(** * WeaveAI: the retrieval-augmented answer pipeline and its document store

    A shallow embedding of [rag_pipeline.py] and [document_processor.py], and
    of the endpoints of [main.py] over them, with the parts of [logger.py] and
    [auto_enrichment.py] they call.

    Conventions of the embedding.
    - A Python [str] is a [string], one [ascii] per character (code points
      below 256); comparison of strings is by code point, as in Python.
    - A Python [float] is an exact rational of [Q]: distances, confidence and
      relevance scores are computed without binary rounding error, and
      [round(x, 3)] rounds the exact value to the nearest multiple of 1/1000,
      ties to even.
    - A Python exception is a value of [exn]; code that may raise returns a
      [result]; code that also touches the process state (the Chroma
      collection, the disk, the network) runs in the monad [M] over [world].
    - The libraries the code calls (ChromaDB, sentence-transformers,
      langchain, httpx, json, uuid) are not part of the repository: what they
      return is supplied by the class [Environment]; what the HTTP layer needs
      besides (the outcome of writes to disk, the enrichment request, the
      configured upload directory and size limit) by the class [Runtime]. *)

From Stdlib Require Import QArith Qabs Qround ZArith String Ascii List Lia Lqa.
From Stdlib Require Import DecimalString DecimalNat DecimalFacts.
From Stdlib Require Import OrderedTypeEx Sorted Permutation FinFun.
From stdpp Require Import base list gmap strings.

Local Open Scope string_scope.
Local Open Scope list_scope.

(* ================================================================= *)
(** ** Python values *)

(** The newline and the double quote, which a literal cannot hold. *)
Definition nl : string := String (ascii_of_nat 10) EmptyString.
Definition dq : string := String (ascii_of_nat 34) EmptyString.

(** [str(n)] for a non-negative and for an arbitrary integer. *)
Definition str_of_nat (n : nat) : string := NilZero.string_of_uint (Nat.to_uint n).
Definition str_of_Z (z : Z) : string := NilZero.string_of_int (Z.to_int z).

(** [sep.join(parts)]. *)
Definition join (sep : string) (parts : list string) : string := String.concat sep parts.

(** [enumerate(l)]. *)
Fixpoint enumerate_from {A : Type} (i : nat) (l : list A) : list (nat * A) :=
  match l with
  | [] => []
  | x :: l' => (i, x) :: enumerate_from (S i) l'
  end.
Definition enumerate {A : Type} (l : list A) : list (nat * A) := enumerate_from 0 l.

(** [str.isspace] on one character, for the code points below 256:
    TAB, LF, VT, FF, CR, the separators FS, GS, RS, US, the space, NEL and
    the no-break space. *)
Definition py_isspace (c : ascii) : bool :=
  let n := nat_of_ascii c in
  ((9 <=? n)%nat && (n <=? 13)%nat) || ((28 <=? n)%nat && (n <=? 32)%nat)
  || (n =? 133)%nat || (n =? 160)%nat.

Fixpoint py_lstrip (s : string) : string :=
  match s with
  | EmptyString => EmptyString
  | String c s' => if py_isspace c then py_lstrip s' else s
  end.

Fixpoint py_rstrip (s : string) : string :=
  match s with
  | EmptyString => EmptyString
  | String c s' =>
      match py_rstrip s' with
      | EmptyString => if py_isspace c then EmptyString else String c EmptyString
      | r => String c r
      end
  end.

(** [s.strip()]. *)
Definition py_strip (s : string) : string := py_rstrip (py_lstrip s).

(** Truthiness of a string and of a list: [not s], [not l]. *)
Definition str_falsy (s : string) : bool :=
  match s with EmptyString => true | _ => false end.
Definition list_falsy {A : Type} (l : list A) : bool :=
  match l with [] => true | _ => false end.

(** Exceptions: the class and [str(e)]. *)
Inductive exn_class : Type :=
| KeyError | IndexError | TypeError | AttributeError | ValueError
| JSONDecodeError | OSError | HTTPError | RuntimeError.

Record exn : Type := Exn { exn_cls : exn_class; exn_str : string }.

Inductive result (A : Type) : Type :=
| Ok (a : A)
| Raise (e : exn).
Arguments Ok {A} a.
Arguments Raise {A} e.

#[local] Set Warnings "-register-all".

(** Values of the kind [json.loads] builds: [None], [bool], [int], [float],
    [str], [list] and [dict] (keys are strings, in insertion order). *)
Inductive json : Type :=
| JNone
| JBool (b : bool)
| JInt (z : Z)
| JFloat (q : Q)
| JStr (s : string)
| JList (l : list json)
| JDict (d : list (string * json)).

(** [d.get(key)] on the items of a dict. *)
Fixpoint items_get (key : string) (d : list (string * json)) : option json :=
  match d with
  | [] => None
  | (k, v) :: d' => if String.eqb k key then Some v else items_get key d'
  end.

Definition type_name (v : json) : string :=
  match v with
  | JNone => "NoneType" | JBool _ => "bool" | JInt _ => "int" | JFloat _ => "float"
  | JStr _ => "str" | JList _ => "list" | JDict _ => "dict"
  end.

(** [v[key]] for a string key. *)
Definition getitem_str (v : json) (key : string) : result json :=
  match v with
  | JDict d =>
      match items_get key d with
      | Some x => Ok x
      | None => Raise (Exn KeyError ("'" +:+ key +:+ "'"))
      end
  | JList _ => Raise (Exn TypeError "list indices must be integers or slices, not str")
  | JStr _ => Raise (Exn TypeError "string indices must be integers, not 'str'")
  | _ => Raise (Exn TypeError ("'" +:+ type_name v +:+ "' object is not subscriptable"))
  end.

(** [v[i]] for a non-negative integer index. *)
Definition getitem_int (v : json) (i : nat) : result json :=
  match v with
  | JDict _ => Raise (Exn KeyError (str_of_nat i))
  | JList l =>
      match nth_error l i with
      | Some x => Ok x
      | None => Raise (Exn IndexError "list index out of range")
      end
  | JStr s =>
      match String.get i s with
      | Some c => Ok (JStr (String c EmptyString))
      | None => Raise (Exn IndexError "string index out of range")
      end
  | _ => Raise (Exn TypeError ("'" +:+ type_name v +:+ "' object is not subscriptable"))
  end.

(** [v.get(key, default)]: only a dict has the method. *)
Definition method_get (v : json) (key : string) (default : json) : result json :=
  match v with
  | JDict d =>
      match items_get key d with
      | Some x => Ok x
      | None => Ok default
      end
  | _ => Raise (Exn AttributeError
                  ("'" +:+ type_name v +:+ "' object has no attribute 'get'"))
  end.

(* ================================================================= *)
(** ** Arithmetic on floats *)

Section Floats.
Local Open Scope Q_scope.

(** [max(a, b)] and [min(a, b)]: the first argument unless the second is
    strictly larger (smaller). *)
Definition py_max (a b : Q) : Q := if Qlt_le_dec a b then b else a.
Definition py_min (a b : Q) : Q := if Qlt_le_dec b a then b else a.

(** [sum(l)] and [len(l)] as a float. *)
Definition py_sum (l : list Q) : Q := fold_left Qplus l 0.
Definition py_len {A : Type} (l : list A) : Q := inject_Z (Z.of_nat (length l)).

(** The integer nearest to [x], ties to the even one. *)
Definition round_half_even (x : Q) : Z :=
  let f := Qfloor x in
  match Qcompare (x - inject_Z f) (1 # 2) with
  | Lt => f
  | Gt => (f + 1)%Z
  | Eq => if Z.even f then f else (f + 1)%Z
  end.

(** [round(x, ndigits)]: the nearest multiple of [1 / 10^ndigits]. *)
Definition pow10 (ndigits : nat) : positive := Z.to_pos (10 ^ Z.of_nat ndigits).

Definition py_round (x : Q) (ndigits : nat) : Q :=
  round_half_even (x * inject_Z (Zpos (pow10 ndigits))) # pow10 ndigits.

(** [RAGPipeline._calculate_confidence]. *)
Definition _calculate_confidence (distances : list Q) : Q :=
  if list_falsy distances then 0
  else
    let avg_distance := py_sum distances / py_len distances in
    let confidence := py_max 0 (py_min 1 (1 - avg_distance / 2)) in
    py_round confidence 3.


Definition clamp (x lo hi : Q) : Q :=
  if Qlt_le_dec x lo then lo else if Qlt_le_dec hi x then hi else x.

Definition rounded_to (ndigits : nat) (x r : Q) : Prop :=
  (exists k : Z, r == k # pow10 ndigits) /\ Qabs (r - x) <= 1 # (2 * pow10 ndigits).

End Floats.

(* ================================================================= *)
(** ** Results and the state of the process *)

Definition result_bind {A B : Type} (r : result A) (k : A -> result B) : result B :=
  match r with
  | Ok a => k a
  | Raise e => Raise e
  end.

#[global] Instance result_ret : MRet result := fun _ a => Ok a.
#[global] Instance result_mbind : MBind result := fun _ _ k r => result_bind r k.

(** A [for] loop whose body may raise: the exception ends the loop. *)
Fixpoint for_each {A B : Type} (body : B -> A -> result B) (l : list A) (acc : B)
  : result B :=
  match l with
  | [] => Ok acc
  | x :: l' =>
      match body acc x with
      | Ok acc' => for_each body l' acc'
      | Raise e => Raise e
      end
  end.

(** [l[i]] on a Python list. *)
Definition getitem_list {A : Type} (l : list A) (i : nat) : result A :=
  match nth_error l i with
  | Some x => Ok x
  | None => Raise (Exn IndexError "list index out of range")
  end.

(** Chunk metadata, the dict [process_and_store_document] writes; the one key
    the readers take with [.get] is optional. *)
Record metadata : Type := Metadata {
  md_document_id : string;
  md_filename : string;
  md_chunk_index : nat;
  md_total_chunks : nat;
  md_file_path : option string
}.

(** One record of the Chroma collection. *)
Record chunk : Type := Chunk {
  chunk_id : string;
  chunk_document : string;
  chunk_embedding : list Q;
  chunk_metadata : metadata
}.

(** The dict [search_documents] returns: three parallel lists. *)
Record search_results : Type := SearchResults {
  sr_documents : list string;
  sr_metadatas : list metadata;
  sr_distances : list Q
}.

(** A Search Hit, and the parallel lists a list of hits is returned as. *)
Record hit : Type := Hit {
  hit_text : string;
  hit_metadata : metadata;
  hit_distance : Q
}.

Definition results_of_hits (hs : list hit) : search_results :=
  {| sr_documents := map hit_text hs;
     sr_metadatas := map hit_metadata hs;
     sr_distances := map hit_distance hs |}.

(** What [collection.query] returns: one inner list per query embedding. *)
Record query_output : Type := QueryOutput {
  qo_documents : list (list string);
  qo_metadatas : list (list metadata);
  qo_distances : list (list Q)
}.

(** The completion request and what [client.post] does with it. *)
Record request : Type := Request {
  req_url : string;
  req_api_key : string;
  req_messages : list (string * string);
  req_max_tokens : Z;
  req_temperature : Q;
  req_response_format : string
}.

Inductive http_outcome : Type :=
| PostRaises (e : exn)
| Response (status_code : Z) (text : string).

(** Calls that leave the process or write to the store, in the order made. *)
Inductive event : Type :=
| EvEncode (texts : list string)
| EvPost (r : request)
| EvAdd (ids : list string)
| EvDelete (document_id : string)
| EvRemove (path : string).

Record world : Type := World {
  collection : list chunk;
  files : gset string;
  in_use : gset string;
  uuids_drawn : nat;
  trace : list event
}.

Definition M (A : Type) : Type := world -> result A * world.

#[global] Instance M_ret : MRet M := fun _ a w => (Ok a, w).
#[global] Instance M_mbind : MBind M := fun _ _ k m w =>
  match m w with
  | (Ok a, w') => k a w'
  | (Raise e, w') => (Raise e, w')
  end.

Definition raise {A : Type} (e : exn) : M A := fun w => (Raise e, w).
Definition lift {A : Type} (r : result A) : M A := fun w => (r, w).

(** [try: body / except Exception as e: handler e]. *)
Definition try_except {A : Type} (body : M A) (handler : exn -> M A) : M A :=
  fun w =>
    match body w with
    | (Ok a, w') => (Ok a, w')
    | (Raise e, w') => handler e w'
    end.

(** [try: body / except OSError: pass]. *)
Definition try_except_OSError (body : M unit) : M unit :=
  fun w =>
    match body w with
    | (Raise (Exn OSError _), w') => (Ok tt, w')
    | other => other
    end.

Definition emit (ev : event) : M unit :=
  fun w => (Ok tt, {| collection := collection w; files := files w; in_use := in_use w;
                      uuids_drawn := uuids_drawn w; trace := trace w ++ [ev] |}).

(** The completion requests of a log. *)
Definition posts (tr : list event) : list request :=
  flat_map (fun ev => match ev with EvPost r => [r] | _ => [] end) tr.

(** The settings of [config.py] the two classes read. *)
Record Config : Type := {
  OPENAI_API_BASE : string;
  OPENAI_API_KEY : string;
  OPENAI_API_VERSION : string;
  OPENAI_DEPLOYMENT_NAME : string;
  TOP_K_DOCUMENTS : nat
}.

(** What the libraries and the outside world answer. *)
Class Environment : Type := {
  config : Config;
  (** [json.loads] and [response.json] *)
  json_loads : string -> result json;
  (** [httpx.Client.post] on the completion endpoint *)
  http_post : request -> http_outcome;
  (** [SentenceTransformer.encode(texts).tolist()] *)
  encode : list string -> result (list (list Q));
  (** [collection.query] on the stored chunks *)
  collection_query : list chunk -> list Q -> nat -> result query_output;
  (** [Path(file_path).suffix.lower()] *)
  path_suffix_lower : string -> string;
  (** the three readers: PyPDF2, python-docx and a UTF-8 text file *)
  _extract_from_pdf : string -> result string;
  _extract_from_docx : string -> result string;
  _extract_from_text : string -> result string;
  (** [RecursiveCharacterTextSplitter.split_text] *)
  split_text : string -> result (list string);
  (** [str(uuid.uuid4())], by the number of identifiers drawn before *)
  uuid4 : nat -> string
}.

(* ================================================================= *)
(** ** rag_pipeline.py *)

(** One entry of [sources] in a Query Result. *)
Record source : Type := Source {
  src_filename : string;
  src_chunk_index : nat;
  src_total_chunks : nat;
  src_relevance_score : Q
}.

(** The dict [generate_answer] returns. The three fields read from the
    completion hold whatever value the completion gave. *)
Record query_result : Type := QueryResult {
  qr_answer : json;
  qr_confidence : Q;
  qr_missing_info : json;
  qr_enrichment_suggestions : json;
  qr_sources : list source
}.

(** One element of the list [suggest_auto_enrichment] returns. *)
Record suggestion : Type := Suggestion {
  missing_topic : string;
  suggested_sources : list string;
  search_queries : list string
}.

(** The block of one hit in the context. *)
Definition context_block (filename doc : string) : string :=
  "Document: " +:+ filename +:+ nl +:+ "Content: " +:+ doc +:+ nl +:+ "---".

(** [RAGPipeline._prepare_context]. *)
Definition _prepare_context (search_results : search_results) : result string :=
  let documents := sr_documents search_results in
  let metadatas := sr_metadatas search_results in
  context_parts ←
    for_each (fun context_parts '(i, doc) =>
                metadata ← getitem_list metadatas i;
                mret (context_parts ++ [context_block (md_filename metadata) doc]))
             (enumerate documents) [];
  mret (join nl context_parts).

(** [RAGPipeline._prepare_sources]. *)
Definition _prepare_sources (search_results : search_results) : list source :=
  let metadatas := sr_metadatas search_results in
  let distances := sr_distances search_results in
  fold_left
    (fun sources '(i, metadata) =>
       sources ++
       [ {| src_filename := md_filename metadata;
            src_chunk_index := md_chunk_index metadata;
            src_total_chunks := md_total_chunks metadata;
            src_relevance_score :=
              if (i <? length distances)%nat
              then py_round (1 - nth i distances 0 / 2)%Q 3
              else 0%Q |} ])
    (enumerate metadatas) [].

(** [RAGPipeline.suggest_auto_enrichment]. *)
Definition suggest_auto_enrichment (missing_info : list string) (query : string)
  : list suggestion :=
  if list_falsy missing_info then []
  else
    fold_left
      (fun suggestions info =>
         suggestions ++
         [ {| missing_topic := info;
              suggested_sources :=
                [ "Search for '" +:+ info +:+ "' in academic papers";
                  "Look up '" +:+ info +:+ "' in industry documentation";
                  "Find recent articles about '" +:+ info +:+ "'" ];
              search_queries :=
                [ info +:+ " " +:+ query;
                  info +:+ " best practices";
                  info +:+ " latest research" ] |} ])
      missing_info [].

(** The bundle the specification describes for one missing topic. *)
Definition suggestion_bundle (query info : string) : suggestion :=
  {| missing_topic := info;
     suggested_sources :=
       [ "Search for '" +:+ info +:+ "' in academic papers";
         "Look up '" +:+ info +:+ "' in industry documentation";
         "Find recent articles about '" +:+ info +:+ "'" ];
     search_queries :=
       [ info +:+ " " +:+ query; info +:+ " best practices"; info +:+ " latest research" ] |}.

Definition system_prompt : string :=
  join nl
    [ "You are an AI assistant that answers questions based on provided documents and analyzes the completeness of your answers.";
      "";
      "Your task is to:";
      "1. Answer the user's question using ONLY the information from the provided documents";
      "2. Analyze if your answer is complete or if important information is missing";
      "3. Suggest specific ways to enrich the knowledge base if information is incomplete";
      "";
      "Respond in the following JSON format:";
      "{";
      "    " +:+ dq +:+ "answer" +:+ dq +:+ ": " +:+ dq
        +:+ "Your detailed answer based on the documents" +:+ dq +:+ ",";
      "    " +:+ dq +:+ "missing_info" +:+ dq +:+ ": [" +:+ dq
        +:+ "List of specific information that would make the answer more complete"
        +:+ dq +:+ "],";
      "    " +:+ dq +:+ "enrichment_suggestions" +:+ dq +:+ ": [" +:+ dq
        +:+ "Specific suggestions for documents, data, or sources to add" +:+ dq +:+ "]";
      "}";
      "";
      "CRITICAL Guidelines:";
      "- NEVER include specific facts, dates, names, or details in missing_info or enrichment_suggestions that are not present in the provided documents";
      "- Only describe TYPES of information that are missing (e.g., " +:+ dq
        +:+ "company history" +:+ dq +:+ ", " +:+ dq +:+ "technical specifications" +:+ dq
        +:+ ") without providing the actual details";
      "- LIMIT missing_info to maximum 2 items, keep them short and generic";
      "- LIMIT enrichment_suggestions to maximum 2 items, keep them concise";
      "- If the documents don't contain information about the topic, simply state that information about the topic is missing";
      "- Do NOT hallucinate or provide factual details from your training data";
      "- Be brief and generic about what additional information would be helpful";
      "- If the answer is complete, set missing_info to an empty array";
      "";
      "Examples of CORRECT missing_info (max 2 items):";
      "- " +:+ dq +:+ "Basic company information" +:+ dq;
      "- " +:+ dq +:+ "Product details" +:+ dq;
      "";
      "Examples of CORRECT enrichment_suggestions (max 2 items):";
      "- " +:+ dq +:+ "Add company overview documents" +:+ dq;
      "- " +:+ dq +:+ "Include product information" +:+ dq;
      "";
      "Examples of INCORRECT (too detailed, too many items):";
      "- " +:+ dq +:+ "Historical background and founding details, Details about products and achievements, Information about impact on industry, Market presence data" +:+ dq;
      "" ].

(** The result of the short circuit on an empty retrieval. *)
Definition no_documents_result : query_result :=
  {| qr_answer := JStr "I don't have any relevant documents to answer your question.";
     qr_confidence := 0%Q;
     qr_missing_info := JList [JStr "No relevant documents found in the knowledge base"];
     qr_enrichment_suggestions :=
       JList [ JStr "Upload documents related to your query";
               JStr "Try rephrasing your question with different keywords" ];
     qr_sources := [] |}.

Section Pipeline.
Context `{Environment}.

(** [client.post(...)]: the call is made, then answers or raises. *)
Definition client_post (r : request) : M (Z * string) :=
  emit (EvPost r);;
  match http_post r with
  | PostRaises e => raise e
  | Response status_code text => mret (status_code, text)
  end.

(** [json.loads(v)] on a value: only a string can be parsed. *)
Definition json_loads_value (v : json) : result json :=
  match v with
  | JStr s => json_loads s
  | _ => Raise (Exn TypeError
                  ("the JSON object must be str, bytes or bytearray, not " +:+ type_name v))
  end.

(** [result["choices"][0]["message"]["content"]]. *)
Definition message_content (body : json) : result json :=
  choices ← getitem_str body "choices";
  choice ← getitem_int choices 0;
  message ← getitem_str choice "message";
  getitem_str message "content".

(** The request [_call_openai_with_completeness_check] builds: the URL, the
    [api-key] header and the payload. *)
Definition completion_request (query context : string) : request :=
  let user_prompt :=
    "Context from documents:" +:+ nl +:+ context +:+ nl +:+ nl
    +:+ "Question: " +:+ query +:+ nl +:+ nl
    +:+ "Please provide a comprehensive answer and analysis." in
  {| req_url := OPENAI_API_BASE config +:+ "/openai/deployments/"
                +:+ OPENAI_DEPLOYMENT_NAME config
                +:+ "/chat/completions?api-version=" +:+ OPENAI_API_VERSION config;
     req_api_key := OPENAI_API_KEY config;
     req_messages := [("system", system_prompt); ("user", user_prompt)];
     req_max_tokens := 1500;
     req_temperature := (3 # 10)%Q;
     req_response_format := "json_object" |}.

(** The two dicts of the failure branches. *)
Definition api_call_failed (status_code : Z) (text : string) : json :=
  JDict
    [ ("answer", JStr ("Error calling OpenAI API: " +:+ str_of_Z status_code
                       +:+ " - " +:+ text));
      ("missing_info", JList [JStr "API call failed"]);
      ("enrichment_suggestions", JList [JStr "Check API configuration and try again"]) ].

Definition system_error (e : exn) : json :=
  JDict
    [ ("answer", JStr ("Error generating response: " +:+ exn_str e));
      ("missing_info", JList [JStr "System error occurred"]);
      ("enrichment_suggestions", JList [JStr "Check system configuration and try again"]) ].

(** [RAGPipeline._call_openai_with_completeness_check]. *)
Definition _call_openai_with_completeness_check (query context : string) : M json :=
  let payload := completion_request query context in
  try_except
    ('(status_code, text) ← client_post payload;
     if (status_code =? 200)%Z then
       result ← lift (json_loads text);
       content ← lift (message_content result);
       lift (json_loads_value content)
     else mret (api_call_failed status_code text))
    (fun e => mret (system_error e)).

(** [embedding_model.encode(texts).tolist()]. *)
Definition model_encode (texts : list string) : M (list (list Q)) :=
  emit (EvEncode texts);; lift (encode texts).

(** [collection.query(query_embeddings=[e], n_results=n, include=...)]. *)
Definition query_collection (query_embedding : list Q) (n_results : nat) : M query_output :=
  fun w => (collection_query (collection w) query_embedding n_results, w).

(** [DocumentProcessor.search_documents], with [n_results] left to its
    default. *)
Definition search_documents (query : string) : M search_results :=
  let n_results := TOP_K_DOCUMENTS config in
  embeddings ← model_encode [query];
  query_embedding ← lift (getitem_list embeddings 0);
  results ← query_collection query_embedding n_results;
  mret {| sr_documents := match qo_documents results with x :: _ => x | [] => [] end;
          sr_metadatas := match qo_metadatas results with x :: _ => x | [] => [] end;
          sr_distances := match qo_distances results with x :: _ => x | [] => [] end |}.

(** [RAGPipeline.generate_answer]. *)
Definition generate_answer (query : string) : M query_result :=
  search_results ← search_documents query;
  if list_falsy (sr_documents search_results) then mret no_documents_result
  else
    context ← lift (_prepare_context search_results);
    response ← _call_openai_with_completeness_check query context;
    let confidence := _calculate_confidence (sr_distances search_results) in
    let sources := _prepare_sources search_results in
    answer ← lift (method_get response "answer" (JStr ""));
    missing_info ← lift (method_get response "missing_info" (JList []));
    enrichment_suggestions ← lift (method_get response "enrichment_suggestions" (JList []));
    mret {| qr_answer := answer;
            qr_confidence := confidence;
            qr_missing_info := missing_info;
            qr_enrichment_suggestions := enrichment_suggestions;
            qr_sources := sources |}.

End Pipeline.

(* ================================================================= *)
(** ** document_processor.py *)

(** The dict [process_and_store_document] returns, by its [status]. *)
Inductive ingest_result : Type :=
| IngestSuccess (document_id filename : string) (total_chunks : nat)
| IngestError (filename error : string).

(** One document of the listing; [doc_chunks] holds the pairs
    [(chunk_index, total_chunks)]. *)
Record document_entry : Type := DocumentEntry {
  doc_document_id : string;
  doc_filename : string;
  doc_total_chunks : nat;
  doc_file_path : string;
  doc_chunks : list (nat * nat)
}.

Record document_listing : Type := DocumentListing {
  dl_documents : list document_entry;
  dl_total_documents : nat;
  dl_total_chunks : nat
}.

(** The dict [delete_document] returns, by its [status]. *)
Inductive delete_result : Type :=
| DeleteSuccess (message : string) (deleted_chunks : nat) (filename : string)
| DeleteError (error : string).

Definition set_collection (c : list chunk) (w : world) : world :=
  {| collection := c; files := files w; in_use := in_use w;
     uuids_drawn := uuids_drawn w; trace := trace w |}.

Definition set_files (f : gset string) (w : world) : world :=
  {| collection := collection w; files := f; in_use := in_use w;
     uuids_drawn := uuids_drawn w; trace := trace w |}.

Definition has_id (id : string) (c : chunk) : bool := String.eqb (chunk_id c) id.

Definition of_document (document_id : string) (c : chunk) : bool :=
  String.eqb (md_document_id (chunk_metadata c)) document_id.

Fixpoint build_chunks (ids documents : list string) (embeddings : list (list Q))
    (metadatas : list metadata) : list chunk :=
  match ids, documents, embeddings, metadatas with
  | i :: ids', d :: documents', e :: embeddings', m :: metadatas' =>
      Chunk i d e m :: build_chunks ids' documents' embeddings' metadatas'
  | _, _, _, _ => []
  end.

(** Modelled from the spec: the Vector Store's [add] (ChromaDB itself is not
    part of the repository). One call writes the whole batch; a record whose
    id is already stored is not stored again; a batch whose four lists differ
    in length is refused and leaves the store as it was. *)
Definition store_add (batch : list chunk) (store : list chunk) : list chunk :=
  fold_left (fun st c => if existsb (has_id (chunk_id c)) st then st else st ++ [c])
            batch store.

Definition add_to_collection (embeddings : list (list Q)) (documents : list string)
    (metadatas : list metadata) (ids : list string) : M unit :=
  fun w =>
    if (length embeddings =? length ids)%nat && (length documents =? length ids)%nat
       && (length metadatas =? length ids)%nat
    then (Ok tt, set_collection
                   (store_add (build_chunks ids documents embeddings metadatas) (collection w))
                   w)
    else (Raise (Exn ValueError "Unequal lengths for fields of the batch"), w).

Definition collection_add (embeddings : list (list Q)) (documents : list string)
    (metadatas : list metadata) (ids : list string) : M unit :=
  emit (EvAdd ids);; add_to_collection embeddings documents metadatas ids.

(** Modelled from the spec: the Vector Store's filtered read, filtered
    delete and count. *)
Definition collection_get_where (document_id : string) : M (list chunk) :=
  fun w => (Ok (List.filter (of_document document_id) (collection w)), w).

Definition delete_from_collection (document_id : string) : M unit :=
  fun w => (Ok tt, set_collection
                     (List.filter (fun c => negb (of_document document_id c)) (collection w))
                     w).

Definition collection_delete_where (document_id : string) : M unit :=
  emit (EvDelete document_id);; delete_from_collection document_id.

Definition collection_count (w : world) : nat := length (collection w).

(** [os.path.exists] and [os.remove]: removing a file that is missing or in
    use raises [OSError] and leaves the disk as it was. *)
Definition os_path_exists (path : string) : M bool :=
  fun w => (Ok (bool_decide (path ∈ files w)), w).

Definition unlink (path : string) : M unit :=
  fun w =>
    if bool_decide (path ∈ files w) && negb (bool_decide (path ∈ in_use w))
    then (Ok tt, set_files (files w ∖ {[path]}) w)
    else (Raise (Exn OSError ("cannot remove '" +:+ path +:+ "'")), w).

Definition os_remove (path : string) : M unit :=
  emit (EvRemove path);; unlink path.

(** [str(uuid.uuid4())]. *)
Definition fresh_uuid `{Environment} : M string :=
  fun w => (Ok (uuid4 (uuids_drawn w)),
            {| collection := collection w; files := files w; in_use := in_use w;
               uuids_drawn := S (uuids_drawn w); trace := trace w |}).

(** The dict [documents] of [get_all_documents], in insertion order. *)
Fixpoint dict_mem {V : Type} (key : string) (d : list (string * V)) : bool :=
  match d with
  | [] => false
  | (k, _) :: d' => String.eqb k key || dict_mem key d'
  end.

Fixpoint dict_update {V : Type} (key : string) (f : V -> V) (d : list (string * V))
  : list (string * V) :=
  match d with
  | [] => []
  | (k, v) :: d' => if String.eqb k key then (k, f v) :: d' else (k, v) :: dict_update key f d'
  end.

Definition append_chunk (c : nat * nat) (e : document_entry) : document_entry :=
  {| doc_document_id := doc_document_id e; doc_filename := doc_filename e;
     doc_total_chunks := doc_total_chunks e; doc_file_path := doc_file_path e;
     doc_chunks := doc_chunks e ++ [c] |}.

(** The body of the grouping loop of [get_all_documents]. *)
Definition group_step (documents : list (string * document_entry)) (metadata : metadata)
  : list (string * document_entry) :=
  let doc_id := md_document_id metadata in
  let filename := md_filename metadata in
  let documents :=
    if negb (dict_mem doc_id documents)
    then documents ++
         [ (doc_id, {| doc_document_id := doc_id;
                       doc_filename := filename;
                       doc_total_chunks := md_total_chunks metadata;
                       doc_file_path := default "" (md_file_path metadata);
                       doc_chunks := [] |}) ]
    else documents in
  dict_update doc_id (append_chunk (md_chunk_index metadata, md_total_chunks metadata))
              documents.

(** [document_list.sort(key=lambda x: x["filename"])]: the sort is stable, an
    entry stays behind the earlier entries of the same filename. *)
Fixpoint insert_by_filename (x : document_entry) (l : list document_entry)
  : list document_entry :=
  match l with
  | [] => [x]
  | y :: l' =>
      if String.leb (doc_filename x) (doc_filename y) then x :: l
      else y :: insert_by_filename x l'
  end.

Definition sort_by_filename (l : list document_entry) : list document_entry :=
  fold_right insert_by_filename [] l.

(** [DocumentProcessor.get_all_documents], the branch of [status]
    [success]: reading the metadata of the collection does not raise here. *)
Definition get_all_documents (w : world) : document_listing :=
  let metadatas := map chunk_metadata (collection w) in
  let documents := fold_left group_step metadatas [] in
  let document_list := sort_by_filename (map snd documents) in
  {| dl_documents := document_list;
     dl_total_documents := length document_list;
     dl_total_chunks := length metadatas |}.

Section Processor.
Context `{Environment}.

(** [DocumentProcessor.extract_text_from_file]. *)
Definition extract_text_from_file (file_path : string) : M string :=
  let file_extension := path_suffix_lower file_path in
  if String.eqb file_extension ".pdf" then lift (_extract_from_pdf file_path)
  else if String.eqb file_extension ".docx" then lift (_extract_from_docx file_path)
  else if String.eqb file_extension ".txt" || String.eqb file_extension ".md"
       then lift (_extract_from_text file_path)
  else raise (Exn ValueError ("Unsupported file type: " +:+ file_extension)).

(** [DocumentProcessor.chunk_text] and [generate_embeddings]. *)
Definition chunk_text (text : string) : M (list string) := lift (split_text text).
Definition generate_embeddings (texts : list string) : M (list (list Q)) :=
  model_encode texts.

(** [DocumentProcessor.process_and_store_document]. *)
Definition process_and_store_document (file_path filename : string) : M ingest_result :=
  try_except
    (text ← extract_text_from_file file_path;
     if str_falsy (py_strip text)
     then raise (Exn ValueError "No text content found in the document")
     else
       chunks ← chunk_text text;
       if list_falsy chunks
       then raise (Exn ValueError "No chunks generated from the document")
       else
         embeddings ← generate_embeddings chunks;
         document_id ← fresh_uuid;
         let chunk_ids :=
           map (fun i => document_id +:+ "_" +:+ str_of_nat i) (seq 0 (length chunks)) in
         let metadatas :=
           map (fun i => {| md_document_id := document_id;
                            md_filename := filename;
                            md_chunk_index := i;
                            md_total_chunks := length chunks;
                            md_file_path := Some file_path |})
               (seq 0 (length chunks)) in
         collection_add embeddings chunks metadatas chunk_ids;;
         mret (IngestSuccess document_id filename (length chunks)))
    (fun e => mret (IngestError filename (exn_str e))).

(** [DocumentProcessor.delete_document]. *)
Definition delete_document (document_id : string) : M delete_result :=
  try_except
    (results ← collection_get_where document_id;
     let ids := map chunk_id results in
     let metadatas := map chunk_metadata results in
     if list_falsy ids then mret (DeleteError "Document not found")
     else
       let filename :=
         match metadatas with m :: _ => md_filename m | [] => "Unknown" end in
       let chunk_count := length ids in
       collection_delete_where document_id;;
       let file_path :=
         match metadatas with m :: _ => default "" (md_file_path m) | [] => "" end in
       (if str_falsy file_path then mret tt
        else
          file_exists ← os_path_exists file_path;
          if (file_exists : bool) then try_except_OSError (os_remove file_path)
          else mret tt);;
       mret (DeleteSuccess ("Document '" +:+ filename +:+ "' deleted successfully")
                           chunk_count filename))
    (fun e => mret (DeleteError (exn_str e))).

End Processor.

(* ================================================================= *)
(** ** The words of the specification, and an environment to run the model *)


Definition block_of_hit (h : hit) : string :=
  "Document: " +:+ md_filename (hit_metadata h) +:+ nl
  +:+ "Content: " +:+ hit_text h +:+ nl +:+ "---".

(** The value the completion step returns, by the answer of the endpoint. *)
Definition completion_value `{Environment} (query context : string) : json :=
  match http_post (completion_request query context) with
  | PostRaises e => system_error e
  | Response status_code text =>
      if (status_code =? 200)%Z then
        match json_loads text with
        | Raise e => system_error e
        | Ok body =>
            match message_content body with
            | Raise e => system_error e
            | Ok content =>
                match json_loads_value content with
                | Raise e => system_error e
                | Ok v => v
                end
            end
        end
      else api_call_failed status_code text
  end.

(** The chunk ids [{documentId}_{index}] for the indices [0..n-1], and the
    records an ingestion of [chunks] under [document_id] hands to the store. *)
Definition chunk_ids_of (document_id : string) (n : nat) : list string :=
  map (fun i => document_id +:+ "_" +:+ str_of_nat i) (seq 0 n).

Definition ingested_chunks (document_id filename file_path : string)
    (chunks : list string) (embeddings : list (list Q)) : list chunk :=
  build_chunks (chunk_ids_of document_id (length chunks)) chunks embeddings
    (map (fun i => {| md_document_id := document_id;
                      md_filename := filename;
                      md_chunk_index := i;
                      md_total_chunks := length chunks;
                      md_file_path := Some file_path |})
         (seq 0 (length chunks))).

(** The listing entry of a document, from the stored metadata in store
    order: the filename, chunk count and path of its first chunk, and the
    pairs [(chunk_index, total_chunks)] of all its chunks. *)
Definition metadata_of (document_id : string) (m : metadata) : bool :=
  String.eqb (md_document_id m) document_id.

Definition entry_of (document_id : string) (ms : list metadata) : option document_entry :=
  match List.filter (metadata_of document_id) ms with
  | [] => None
  | m :: rest =>
      Some {| doc_document_id := document_id;
              doc_filename := md_filename m;
              doc_total_chunks := md_total_chunks m;
              doc_file_path := default "" (md_file_path m);
              doc_chunks := map (fun m' => (md_chunk_index m', md_total_chunks m'))
                                (m :: rest) |}
  end.

Definition filename_le (a b : document_entry) : Prop :=
  String.leb (doc_filename a) (doc_filename b) = true.

(** What the grouping loop of [get_all_documents] maintains: after the
    metadata [ms], the dict has one key per document identifier seen, and
    under each key the entry of that document. *)
Record grouped (ms : list metadata) (docs : list (string * document_entry)) : Prop := {
  grouped_keys : List.NoDup (map fst docs);
  grouped_entry : forall k e, In (k, e) docs -> entry_of k ms = Some e;
  grouped_all : forall m, In m ms -> In (md_document_id m) (map fst docs)
}.

(** The defaults of [config.py]. *)
Definition default_config : Config :=
  {| OPENAI_API_BASE := "https://your-azure-openai-endpoint.openai.azure.com";
     OPENAI_API_KEY := "your-api-key-here";
     OPENAI_API_VERSION := "2023-12-01-preview";
     OPENAI_DEPLOYMENT_NAME := "gpt-4";
     TOP_K_DOCUMENTS := 5 |}.

(** A parser that knows the few texts of its table and rejects the rest. *)
Fixpoint table_loads (table : list (string * json)) (s : string) : result json :=
  match table with
  | [] => Raise (Exn JSONDecodeError "Expecting value: line 1 column 1 (char 0)")
  | (k, v) :: table' => if String.eqb k s then Ok v else table_loads table' s
  end.

(** An environment for running the model: the endpoint gives one fixed
    answer, every file is a text file holding [file_text], the store returns
    its first [n] chunks at distance 1/2, and identifiers are numbered. *)
Definition sample_environment (table : list (string * json)) (completion : http_outcome)
    (file_text : result string) (splitter : string -> list string) : Environment :=
  {| config := default_config;
     json_loads := table_loads table;
     http_post := fun _ => completion;
     encode := fun texts => Ok (map (fun t => [inject_Z (Z.of_nat (String.length t))]) texts);
     collection_query := fun store _ n =>
       Ok {| qo_documents := [map chunk_document (take n store)];
             qo_metadatas := [map chunk_metadata (take n store)];
             qo_distances := [map (fun _ => (1 # 2)%Q) (take n store)] |};
     path_suffix_lower := fun _ => ".txt";
     _extract_from_pdf := fun _ => file_text;
     _extract_from_docx := fun _ => file_text;
     _extract_from_text := fun _ => file_text;
     split_text := fun t => Ok (splitter t);
     uuid4 := fun n => "doc-" +:+ str_of_nat n |}.

Definition empty_world : world :=
  {| collection := []; files := ∅; in_use := ∅; uuids_drawn := 0; trace := [] |}.

(** A store holding one chunk of one document, and the search results the
    sample environment returns on it. *)
Definition sample_metadata : metadata :=
  {| md_document_id := "doc-0"; md_filename := "notes.txt"; md_chunk_index := 0;
     md_total_chunks := 1; md_file_path := Some "./uploads/notes.txt" |}.

Definition sample_chunk : chunk :=
  {| chunk_id := "doc-0_0"; chunk_document := "Rocq is a proof assistant.";
     chunk_embedding := [26%Q]; chunk_metadata := sample_metadata |}.

Definition sample_world : world :=
  {| collection := [sample_chunk]; files := {["./uploads/notes.txt"]}; in_use := ∅;
     uuids_drawn := 1; trace := [] |}.

Definition sample_results : search_results :=
  {| sr_documents := ["Rocq is a proof assistant."];
     sr_metadatas := [sample_metadata];
     sr_distances := [(1 # 2)%Q] |}.

Definition sample_context : string :=
  "Document: notes.txt" +:+ nl +:+ "Content: Rocq is a proof assistant." +:+ nl +:+ "---".

(** The text of a completion body whose first choice carries [content] (a
    text without quotes or backslashes), and the value it parses to. *)
Definition completion_text (content : string) : string :=
  "{" +:+ dq +:+ "choices" +:+ dq +:+ ": [{" +:+ dq +:+ "message" +:+ dq +:+ ": {"
  +:+ dq +:+ "content" +:+ dq +:+ ": " +:+ dq +:+ content +:+ dq +:+ "}}]}".

Definition completion_body (content : string) : json :=
  JDict [("choices", JList [JDict [("message", JDict [("content", JStr content)])]])].

(** The same store while the uploaded file is held open by another process. *)
Definition busy_world : world :=
  {| collection := [sample_chunk]; files := {["./uploads/notes.txt"]};
     in_use := {["./uploads/notes.txt"]}; uuids_drawn := 1; trace := [] |}.

(** Two more environments: one whose completion content is the empty JSON
    object, and one whose embedding model fails. *)
Definition object_environment : Environment :=
  sample_environment [ (completion_text "{}", completion_body "{}"); ("{}", JDict []) ]
                     (Response 200 (completion_text "{}")) (Ok "") (fun _ => []).

Definition broken_encoder_environment : Environment :=
  {| config := default_config;
     json_loads := table_loads [];
     http_post := fun _ => Response 200 "";
     encode := fun _ => Raise (Exn RuntimeError "model not loaded");
     collection_query := fun _ _ _ =>
       Ok {| qo_documents := []; qo_metadatas := []; qo_distances := [] |};
     path_suffix_lower := fun _ => ".txt";
     _extract_from_pdf := fun _ => Ok "";
     _extract_from_docx := fun _ => Ok "";
     _extract_from_text := fun _ => Ok "Rocq is a proof assistant.";
     split_text := fun t => Ok [t];
     uuid4 := fun n => "doc-" +:+ str_of_nat n |}.

(** The world after one more logged call. *)
Definition logged (ev : event) (w : world) : world :=
  {| collection := collection w; files := files w; in_use := in_use w;
     uuids_drawn := uuids_drawn w; trace := trace w ++ [ev] |}.

(** A store as the two writers keep it: every chunk is named after its
    document and index and records the number of stored chunks of its
    document, and the chunks of a document carry the indices 0, 1, 2, ... in
    store order. *)
Definition document_chunks (document_id : string) (store : list chunk) : list chunk :=
  List.filter (of_document document_id) store.

Definition well_formed (store : list chunk) : Prop :=
  (forall c, In c store ->
     chunk_id c = md_document_id (chunk_metadata c) +:+ "_"
                  +:+ str_of_nat (md_chunk_index (chunk_metadata c)) /\
     md_total_chunks (chunk_metadata c)
     = length (document_chunks (md_document_id (chunk_metadata c)) store)) /\
  (forall document_id,
     map (fun c => md_chunk_index (chunk_metadata c)) (document_chunks document_id store)
     = seq 0 (length (document_chunks document_id store))).

(** No stored chunk belongs to [document_id] yet. *)
Definition fresh_document (document_id : string) (store : list chunk) : Prop :=
  forall c, In c store -> md_document_id (chunk_metadata c) <> document_id.

Fixpoint has_underscore (s : string) : bool :=
  match s with
  | EmptyString => false
  | String c s' => Ascii.eqb c "_"%char || has_underscore s'
  end.

(** The worlds the three operations of the service reach from an empty
    store, each ingestion drawing an identifier no stored document has. *)
Inductive reachable `{Environment} : world -> Prop :=
| reachable_empty (w : world) :
    collection w = [] -> reachable w
| reachable_ingest (w w' : world) (file_path filename : string) (r : result ingest_result) :
    reachable w ->
    fresh_document (uuid4 (uuids_drawn w)) (collection w) ->
    process_and_store_document file_path filename w = (r, w') ->
    reachable w'
| reachable_delete (w w' : world) (document_id : string) (r : result delete_result) :
    reachable w ->
    delete_document document_id w = (r, w') ->
    reachable w'
| reachable_answer (w w' : world) (query : string) (r : result query_result) :
    reachable w ->
    generate_answer query w = (r, w') ->
    reachable w'.

(** An environment whose text files hold one sentence and whose splitter
    returns the text as a single chunk, and the world after one ingestion
    into the empty store. *)
Definition ingest_environment : Environment :=
  sample_environment [] (Response 200 "") (Ok "Rocq is a proof assistant.") (fun t => [t]).

Definition after_ingest_world : world :=
  snd (@process_and_store_document ingest_environment "./uploads/notes.txt" "notes.txt"
         empty_world).

(* ================================================================= *)
(** ** main.py and logger.py: the HTTP layer over the two classes *)

(** Truthiness, [len] and iteration of a value of the completion. *)
Definition json_truthy (v : json) : bool :=
  match v with
  | JNone => false
  | JBool b => b
  | JInt z => negb (z =? 0)%Z
  | JFloat q => negb (Qeq_bool q 0)
  | JStr s => negb (str_falsy s)
  | JList l => negb (list_falsy l)
  | JDict d => negb (list_falsy d)
  end.

Definition json_len (v : json) : result nat :=
  match v with
  | JStr s => Ok (String.length s)
  | JList l => Ok (length l)
  | JDict d => Ok (length d)
  | _ => Raise (Exn TypeError ("object of type '" +:+ type_name v +:+ "' has no len()"))
  end.

Definition json_iter (v : json) : result (list json) :=
  match v with
  | JStr s => Ok (map (fun c => JStr (String c EmptyString)) (list_ascii_of_string s))
  | JList l => Ok l
  | JDict d => Ok (map (fun p => JStr (fst p)) d)
  | _ => Raise (Exn TypeError ("'" +:+ type_name v +:+ "' object is not iterable"))
  end.

(** The request [generate_enrichment_content] posts: the URL, the [api-key]
    header and the payload. *)
Record enrichment_request : Type := EnrichmentRequest {
  er_url : string;
  er_api_key : string;
  er_messages : list (string * string);
  er_max_tokens : Z;
  er_temperature : Q;
  er_top_p : Q
}.

(** What the HTTP layer needs from outside. *)
Class Runtime : Type := {
  (** [httpx.Client.post] on the completion endpoint, for an enrichment *)
  enrichment_post : enrichment_request -> http_outcome;
  (** [AutoEnrichment._create_short_filename], a chain of regular
      expression substitutions *)
  _create_short_filename : string -> string;
  (** [str(v)] of a float, a list or a dict *)
  py_repr : json -> string;
  (** whether the [n]-th write of the process, to the given path, succeeds *)
  io_outcome : nat -> string -> result unit;
  (** [config.UPLOAD_DIRECTORY] and [config.MAX_FILE_SIZE_MB] *)
  UPLOAD_DIRECTORY : string;
  MAX_FILE_SIZE_MB : Z;
  (** [os.path.join] *)
  os_path_join : string -> string -> string
}.

(** [config.ALLOWED_EXTENSIONS]. *)
Definition ALLOWED_EXTENSIONS : list string := [".pdf"; ".docx"; ".txt"; ".md"].

(** [f"{v}"] for a value of the completion. *)
Definition format_value `{Runtime} (v : json) : string :=
  match v with
  | JStr s => s
  | JNone => "None"
  | JBool true => "True"
  | JBool false => "False"
  | JInt z => str_of_Z z
  | _ => py_repr v
  end.

(** One element of the list [suggest_auto_enrichment] returns when it is
    called, as [search_query] calls it, with whatever the completion gave as
    [missing_info]: the topic is the element itself. *)
Record topic_suggestion : Type := TopicSuggestion {
  ts_missing_topic : json;
  ts_suggested_sources : list string;
  ts_search_queries : list string
}.

(** [RAGPipeline.suggest_auto_enrichment] on an argument of any type. *)
Definition suggest_auto_enrichment_any `{Runtime} (missing_info : json) (query : string)
  : result (list topic_suggestion) :=
  if negb (json_truthy missing_info) then Ok []
  else
    items ← json_iter missing_info;
    mret (fold_left
            (fun suggestions info =>
               suggestions ++
               [ {| ts_missing_topic := info;
                    ts_suggested_sources :=
                      [ "Search for '" +:+ format_value info +:+ "' in academic papers";
                        "Look up '" +:+ format_value info +:+ "' in industry documentation";
                        "Find recent articles about '" +:+ format_value info +:+ "'" ];
                    ts_search_queries :=
                      [ format_value info +:+ " " +:+ query;
                        format_value info +:+ " best practices";
                        format_value info +:+ " latest research" ] |} ])
            items []).

(** The state of the server process: the world of the two classes and the
    paths it tried to write so far (uploads and JSONL log lines), in order. *)
Record server : Type := Server {
  sv_world : world;
  sv_writes : list string
}.

Definition SM (A : Type) : Type := server -> result A * server.

#[global] Instance SM_ret : MRet SM := fun _ a s => (Ok a, s).
#[global] Instance SM_mbind : MBind SM := fun _ _ k m s =>
  match m s with
  | (Ok a, s') => k a s'
  | (Raise e, s') => (Raise e, s')
  end.

Definition in_world {A : Type} (m : M A) : SM A :=
  fun s => let '(r, w') := m (sv_world s) in
           (r, {| sv_world := w'; sv_writes := sv_writes s |}).

Definition of_result {A : Type} (r : result A) : SM A := fun s => (r, s).

(** [try: body / except Exception as e: handler e]. *)
Definition sm_try {A : Type} (body : SM A) (handler : exn -> SM A) : SM A :=
  fun s =>
    match body s with
    | (Ok a, s') => (Ok a, s')
    | (Raise e, s') => handler e s'
    end.

(** [with open(path, mode) as f: f.write(...)]: the write is attempted, and
    either succeeds, after which the path exists, or raises. A write that
    raises is taken to fail in [open]; what is written is not modelled. *)
Definition write_file `{Runtime} (path : string) : SM unit :=
  fun s =>
    let writes := sv_writes s ++ [path] in
    match io_outcome (length (sv_writes s)) path with
    | Ok _ =>
        (Ok tt, {| sv_world := set_files (files (sv_world s) ∪ {[path]}) (sv_world s);
                   sv_writes := writes |})
    | Raise e => (Raise e, {| sv_world := sv_world s; sv_writes := writes |})
    end.

(** The dict [search_query] returns: the Query Result, and the key
    [auto_enrichment] when it was set. *)
Record search_response : Type := SearchResponse {
  sq_result : query_result;
  sq_auto_enrichment : option (list topic_suggestion)
}.

(** An endpoint answers with a body, or with the status 500 and a detail. *)
Inductive reply (A : Type) : Type :=
| Http200 (body : A)
| Http500 (detail : string).
Arguments Http200 {A} body.
Arguments Http500 {A} detail.

(** The [filename] key of the dict of an ingestion. *)
Definition ingest_filename (r : ingest_result) : string :=
  match r with
  | IngestSuccess _ filename _ => filename
  | IngestError filename _ => filename
  end.

(** The dict [generate_enrichment_content] returns, by its [status] and
    without its timestamp, and the dict [auto_enrich_knowledge_base]
    returns. *)
Inductive enrichment_data : Type :=
| Generated (query : string) (content : json)
| NotGenerated (query error : string).

Inductive enrich_result : Type :=
| EnrichSuccess (filename : string) (chunks_added : nat) (query : string)
                (content_length : nat)
| EnrichError (error : string).

(** One uploaded file: its name and its bytes, as read from the request. *)
Record upload_file : Type := UploadFile {
  uf_filename : string;
  uf_content : list Byte.byte
}.

(** [lines[start:]] for a Python list. *)
Definition slice_from {A : Type} (start : Z) (l : list A) : list A :=
  let n := Z.of_nat (length l) in
  let start := if (start <? 0)%Z then Z.max 0 (start + n) else Z.min start n in
  drop (Z.to_nat start) l.

Section Endpoints.
Context `{Environment} `{Runtime}.

(** [WeaveAILogger.log_enrichment]: the count of the topics, then the line. *)
Definition log_enrichment (missing_topics : json) : SM unit :=
  _ ← of_result (json_len missing_topics);
  write_file "logs/enrichment.jsonl".

(** [WeaveAILogger.log_query]: the counts of the entry ([sources] is the list
    [generate_answer] built), then the line. *)
Definition log_query (response : search_response) : SM unit :=
  _ ← of_result (json_len (qr_missing_info (sq_result response)));
  _ ← of_result (json_len (qr_enrichment_suggestions (sq_result response)));
  write_file "logs/queries.jsonl".

(** [WeaveAILogger.log_document_upload]. *)
Definition log_document_upload (filename : string) (result : ingest_result) : SM unit :=
  write_file "logs/uploads.jsonl".

(** The [try] block of [search_query]. *)
Definition search_query_body (query : string) : SM search_response :=
  result ← in_world (generate_answer query);
  auto_enrichment ←
    (if json_truthy (qr_missing_info result)
     then
       auto_enrichment ←
         of_result (suggest_auto_enrichment_any (qr_missing_info result) query);
       _ ← log_enrichment (qr_missing_info result);
       mret (Some auto_enrichment)
     else mret None);
  let response := {| sq_result := result; sq_auto_enrichment := auto_enrichment |} in
  _ ← log_query response;
  mret response.

(** [search_query] of main.py: every exception becomes the status 500 with
    [str(e)] as detail. *)
Definition search_query (query : string) (s : server) : reply search_response * server :=
  match search_query_body query s with
  | (Ok response, s') => (Http200 response, s')
  | (Raise e, s') => (Http500 (exn_str e), s')
  end.

(** The [except] block of the loop of [upload_documents]: [results] is the
    list as the [try] block left it. *)
Definition upload_failed (filename : string) (results : list ingest_result) (e : exn)
  : SM (list ingest_result) :=
  let error_result := IngestError filename (exn_str e) in
  _ ← log_document_upload filename error_result;
  mret (results ++ [error_result]).

(** The [try] statement of the loop of [upload_documents]: the result is
    appended before the upload is logged, so it stays in [results] when the
    logging raises. *)
Definition upload_process (filename file_path : string) (results : list ingest_result)
  : SM (list ingest_result) :=
  fun s =>
    match in_world (process_and_store_document file_path filename) s with
    | (Raise e, s1) => upload_failed filename results e s1
    | (Ok result, s1) =>
        match log_document_upload filename result s1 with
        | (Ok _, s2) => (Ok (results ++ [result]), s2)
        | (Raise e, s2) => upload_failed filename (results ++ [result]) e s2
        end
    end.

(** One turn of the loop of [upload_documents]. *)
Definition upload_one (results : list ingest_result) (file : upload_file)
  : SM (list ingest_result) :=
  let filename := uf_filename file in
  let file_extension := path_suffix_lower filename in
  if negb (existsb (String.eqb file_extension) ALLOWED_EXTENSIONS)
  then mret (results ++
             [IngestError filename ("Unsupported file type: " +:+ file_extension)])
  else
    let file_size := Z.of_nat (length (uf_content file)) in
    if (MAX_FILE_SIZE_MB * 1024 * 1024 <? file_size)%Z
    then mret (results ++
               [IngestError filename
                  ("File too large. Maximum size: " +:+ str_of_Z MAX_FILE_SIZE_MB +:+ "MB")])
    else
      let file_path := os_path_join UPLOAD_DIRECTORY filename in
      _ ← write_file file_path;
      upload_process filename file_path results.

Fixpoint upload_loop (files : list upload_file) (results : list ingest_result)
  : SM (list ingest_result) :=
  match files with
  | [] => mret results
  | file :: files' =>
      results' ← upload_one results file;
      upload_loop files' results'
  end.

(** [upload_documents] of main.py; an exception leaves the endpoint. *)
Definition upload_documents (files : list upload_file) : SM (list ingest_result) :=
  upload_loop files [].

(** The request of [generate_enrichment_content]. *)
Definition enrichment_request_of (user_query : string) : enrichment_request :=
  let enrichment_prompt :=
    "You are a knowledgeable assistant. The user asked: " +:+ dq +:+ user_query +:+ dq
    +:+ nl +:+ nl
    +:+ "Please provide comprehensive, factual information to answer this question. Include:"
    +:+ nl +:+ "- Key facts and background information"
    +:+ nl +:+ "- Important details and context"
    +:+ nl +:+ "- Relevant examples or explanations"
    +:+ nl +:+ "- Any additional useful information related to the topic"
    +:+ nl +:+ nl
    +:+ "Write in a clear, informative style suitable for a knowledge base. Aim for 3-4 paragraphs of detailed information." in
  {| er_url := OPENAI_API_BASE config +:+ "/openai/deployments/"
               +:+ OPENAI_DEPLOYMENT_NAME config
               +:+ "/chat/completions?api-version=" +:+ OPENAI_API_VERSION config;
     er_api_key := OPENAI_API_KEY config;
     er_messages :=
       [ ("system",
          "You are a helpful assistant that provides comprehensive, factual information on any topic.");
         ("user", enrichment_prompt) ];
     er_max_tokens := 1000;
     er_temperature := (3 # 10)%Q;
     er_top_p := (9 # 10)%Q |}.

(** [AutoEnrichment.generate_enrichment_content]. The body of the response
    is parsed for the log line before the status is looked at, and the
    length of the content is taken for the next log line. *)
Definition generate_enrichment_content (user_query : string) : SM enrichment_data :=
  sm_try
    (match enrichment_post (enrichment_request_of user_query) with
     | PostRaises e => of_result (Raise e)
     | Response status_code text =>
         _ ← of_result (json_loads text);
         if (status_code =? 200)%Z then
           result ← of_result (json_loads text);
           content ← of_result (message_content result);
           _ ← of_result (json_len content);
           mret (Generated user_query content)
         else
           mret (NotGenerated user_query ("OpenAI API error: " +:+ str_of_Z status_code))
     end)
    (fun e => mret (NotGenerated user_query (exn_str e))).

(** [AutoEnrichment.auto_enrich_knowledge_base], on the document processor
    of main.py. *)
Definition auto_enrich_knowledge_base (user_query : string) : SM enrich_result :=
  sm_try
    (enrichment_data ← generate_enrichment_content user_query;
     match enrichment_data with
     | Generated _ content =>
         let short_query := _create_short_filename user_query in
         let temp_filename := "auto_enriched_" +:+ short_query +:+ ".txt" in
         let temp_filepath := "./uploads/" +:+ temp_filename in
         _ ← write_file temp_filepath;
         result ← in_world (process_and_store_document temp_filepath temp_filename);
         match result with
         | IngestSuccess _ _ total_chunks =>
             content_length ← of_result (json_len content);
             mret (EnrichSuccess temp_filename total_chunks user_query content_length)
         | IngestError _ error =>
             mret (EnrichError ("Failed to store enrichment: " +:+ error))
         end
     | NotGenerated _ error => mret (EnrichError error)
     end)
    (fun e => mret (EnrichError (exn_str e))).


(** [WeaveAILogger.get_recent_queries]; [log] is the query log: [None] when
    the file does not exist, else what opening and reading its lines gives. *)
Definition get_recent_queries (log : option (result (list string))) (limit : Z)
  : result (list json) :=
  match log with
  | None => Ok []
  | Some read =>
      lines ← read;
      queries ←
        for_each (fun queries line =>
                    match json_loads (py_strip line) with
                    | Ok entry => Ok (queries ++ [entry])
                    | Raise (Exn JSONDecodeError _) => Ok queries
                    | Raise e => Raise e
                    end)
                 (slice_from (- limit) lines) [];
      mret (rev queries)
  end.

End Endpoints.

(** A runtime whose writes succeed, with the defaults of [config.py], and a
    server that has written nothing over the sample store. *)
Definition sample_runtime : Runtime :=
  {| enrichment_post := fun _ =>
       Response 200 (completion_text "Rocq is a proof assistant.");
     _create_short_filename := fun _ => "rocq";
     py_repr := fun v => "<" +:+ type_name v +:+ ">";
     io_outcome := fun _ _ => Ok tt;
     UPLOAD_DIRECTORY := "./uploads";
     MAX_FILE_SIZE_MB := 50;
     os_path_join := fun d f => d +:+ "/" +:+ f |}.

Definition sample_server : server := {| sv_world := sample_world; sv_writes := [] |}.



(** A runtime whose second write fails. *)
Definition flaky_runtime : Runtime :=
  {| enrichment_post := fun _ => Response 503 "Service Unavailable";
     _create_short_filename := fun _ => "rocq";
     py_repr := fun v => "<" +:+ type_name v +:+ ">";
     io_outcome := fun n _ =>
       if (n =? 1)%nat then Raise (Exn OSError "[Errno 28] No space left on device")
       else Ok tt;
     UPLOAD_DIRECTORY := "./uploads";
     MAX_FILE_SIZE_MB := 50;
     os_path_join := fun d f => d +:+ "/" +:+ f |}.

Definition empty_server : server := {| sv_world := empty_world; sv_writes := [] |}.

Definition notes_upload : upload_file :=
  {| uf_filename := "notes.txt"; uf_content := [Byte.x52; Byte.x6f; Byte.x63; Byte.x71] |}.


Definition upload_environment : Environment :=
  {| config := default_config;
     json_loads := table_loads [("{}", JDict [])];
     http_post := fun _ => Response 200 "";
     encode := fun texts => Ok (map (fun t => [inject_Z (Z.of_nat (String.length t))]) texts);
     collection_query := fun _ _ _ =>
       Ok {| qo_documents := []; qo_metadatas := []; qo_distances := [] |};
     path_suffix_lower := fun p =>
       if String.eqb p "image.png" then ".png" else ".txt";
     _extract_from_pdf := fun _ => Ok "";
     _extract_from_docx := fun _ => Ok "";
     _extract_from_text := fun _ => Ok "Rocq is a proof assistant.";
     split_text := fun t => Ok [t];
     uuid4 := fun n => "doc-" +:+ str_of_nat n |}.

Definition image_upload : upload_file :=
  {| uf_filename := "image.png"; uf_content := [Byte.x89; Byte.x50; Byte.x4e; Byte.x47] |}.

(** The server after one and after two uploads of [notes.txt]. *)
Definition once_uploaded : server :=
  snd (@upload_documents upload_environment sample_runtime [notes_upload] empty_server).

Definition twice_uploaded : server :=
  snd (@upload_documents upload_environment sample_runtime [notes_upload] once_uploaded).

(** A server that has logged one query, and a query log of three lines. *)
Definition logged_server : server :=
  {| sv_world := sample_world; sv_writes := ["logs/queries.jsonl"] |}.

Definition sample_log : list string := ["{}" +:+ nl; "oops" +:+ nl; "{}" +:+ nl].

(** An environment that parses the completion of the sample runtime. *)
Definition enrich_environment : Environment :=
  sample_environment
    [ (completion_text "Rocq is a proof assistant.",
       completion_body "Rocq is a proof assistant.") ]
    (Response 200 "") (Ok "Rocq is a proof assistant.") (fun t => [t]).

(* ================================================================= *)
(** * Properties *)
Section FloatFacts.
Local Open Scope Q_scope.

Lemma round_half_even_close (x : Q) :
  - (1 # 2) <= inject_Z (round_half_even x) - x <= 1 # 2.
Proof.
  unfold round_half_even.
  pose proof (Qfloor_le x) as Hlo.
  pose proof (Qlt_floor x) as Hhi.
  rewrite inject_Z_plus in Hhi.
  change (inject_Z 1) with 1 in Hhi.
  destruct (Qcompare_spec (x - inject_Z (Qfloor x)) (1 # 2)) as [He | Hl | Hg].
  - destruct (Z.even (Qfloor x)).
    + lra.
    + rewrite inject_Z_plus. change (inject_Z 1) with 1. lra.
  - lra.
  - rewrite inject_Z_plus. change (inject_Z 1) with 1. lra.
Qed.

Lemma py_round_rounded (x : Q) (n : nat) : rounded_to n x (py_round x n).
Proof.
  unfold rounded_to, py_round.
  set (p := pow10 n).
  split.
  - eexists. reflexivity.
  - pose proof (round_half_even_close (x * inject_Z (Z.pos p))) as [Hlo Hhi].
    set (k := round_half_even (x * inject_Z (Z.pos p))) in *.
    apply Qabs_Qle_condition.
    assert (Hk : k # p == inject_Z k * (1 # p)).
    { unfold Qeq, inject_Z. simpl. lia. }
    assert (Hx : x == (x * inject_Z (Z.pos p)) * (1 # p)).
    { unfold Qeq, inject_Z. simpl. destruct x as [a b]. simpl. lia. }
    assert (Hb : 1 # (2 * p) == (1 # 2) * (1 # p)).
    { unfold Qeq. simpl. lia. }
    assert (Hp : 0 < 1 # p) by reflexivity.
    rewrite Hb, Hk.
    set (y := x * inject_Z (Z.pos p)) in *.
    assert (Hd : inject_Z k * (1 # p) - x == (inject_Z k - y) * (1 # p)).
    { rewrite Hx. ring. }
    assert (Hn : - ((1 # 2) * (1 # p)) == (- (1 # 2)) * (1 # p)) by ring.
    rewrite Hd, Hn.
    split; apply Qmult_le_compat_r; auto using Qlt_le_weak.
Qed.

Lemma py_clamp_eq (x : Q) : py_max 0 (py_min 1 x) == clamp x 0 1.
Proof.
  unfold py_max, py_min, clamp.
  repeat (destruct (Qlt_le_dec _ _)); lra.
Qed.


Lemma clamp_bounds (x : Q) : 0 <= clamp x 0 1 <= 1.
Proof.
  unfold clamp. repeat (destruct (Qlt_le_dec _ _)); lra.
Qed.



Lemma rounded_to_compat (n : nat) (x y r : Q) :
  x == y -> rounded_to n x r -> rounded_to n y r.
Proof.
  unfold rounded_to. intros Hxy [Hk Hb]. split; [exact Hk |].
  rewrite <- Hxy. exact Hb.
Qed.

Lemma rounded_unit_interval (x r : Q) :
  0 <= x <= 1 -> rounded_to 3 x r -> 0 <= r <= 1.
Proof.
  intros [Hx0 Hx1] [[k Hk] Hb].
  apply Qabs_Qle_condition in Hb. destruct Hb as [Hb1 Hb2].
  change (pow10 3) with 1000%positive in *.
  change (2 * 1000)%positive with 2000%positive in *.
  rewrite Hk.
  assert (H1 : - (1 # 2000) <= k # 1000) by lra.
  assert (H2 : k # 1000 <= 2001 # 2000) by lra.
  unfold Qle in *. simpl in *. lia.
Qed.



End FloatFacts.

(* ================================================================= *)
(** ** Loops that append *)

Section Loops.
Context {A B : Type}.

Lemma fold_left_append (f : A -> B) (l : list A) (init : list B) :
  fold_left (fun acc x => acc ++ [f x]) l init = init ++ map f l.
Proof.
  revert init. induction l as [| x l IH]; intros init; simpl.
  - symmetry. apply app_nil_r.
  - rewrite IH, <- app_assoc. reflexivity.
Qed.

End Loops.

Lemma string_app_empty_r (s : string) : s +:+ "" = s.
Proof.
  induction s as [| c s IH]; [reflexivity |].
  change (String c (s +:+ "") = String c s). rewrite IH. reflexivity.
Qed.

(* ================================================================= *)
(** ** Source attribution and context assembly *)


Lemma prepare_context_loop (metadatas : list metadata) (hs : list hit) (k : nat)
    (acc : list string) :
  (forall j h, hs !! j = Some h -> nth_error metadatas (k + j) = Some (hit_metadata h)) ->
  for_each
    (fun context_parts '(i, doc) =>
       metadata ← getitem_list metadatas i;
       mret (context_parts ++ [context_block (md_filename metadata) doc]))
    (enumerate_from k (map hit_text hs)) acc
  = Ok (acc ++ map block_of_hit hs).
Proof.
  revert k acc. induction hs as [| h hs IH]; intros k acc Hd.
  - cbn. rewrite app_nil_r. reflexivity.
  - cbn [map enumerate_from for_each].
    pose proof (Hd 0%nat h eq_refl) as Hm. rewrite Nat.add_0_r in Hm.
    unfold getitem_list at 1. rewrite Hm. cbn [mbind result_mbind result_bind mret result_ret].
    rewrite IH.
    + rewrite <- app_assoc. reflexivity.
    + intros j h' Hj. specialize (Hd (S j) h' Hj).
      rewrite Nat.add_succ_r in Hd. exact Hd.
Qed.


Lemma hits_metadata_lookup (hs : list hit) (j : nat) (h : hit) :
  hs !! j = Some h -> nth_error (map hit_metadata hs) j = Some (hit_metadata h).
Proof.
  revert j. induction hs as [| h0 hs IH]; intros j Hj; [discriminate |].
  destruct j as [| j]; simpl in *.
  - injection Hj as ->. reflexivity.
  - apply IH, Hj.
Qed.


(** C7. The assembled context of a list of hits is the blocks
    [Document: {filename}\nContent: {text}\n---] of the hits, one per hit in
    retrieval order, joined by single newlines: nothing is dropped, reordered
    or cut. *)
Theorem prepare_context_spec :
  (forall hs : list hit,
      _prepare_context (results_of_hits hs) = Ok (join nl (map block_of_hit hs))) /\
  (forall (h : hit) (hs : list hit),
      _prepare_context (results_of_hits (h :: hs))
      = Ok (block_of_hit h
            +:+ fold_right (fun h' rest => nl +:+ block_of_hit h' +:+ rest) "" hs)).
Proof.
  assert (E : forall hs, _prepare_context (results_of_hits hs)
                         = Ok (join nl (map block_of_hit hs))).
  { intros hs. unfold _prepare_context, results_of_hits, enumerate. simpl.
    rewrite (prepare_context_loop (map hit_metadata hs) hs 0 []).
    - reflexivity.
    - intros j h Hj. apply hits_metadata_lookup, Hj. }
  split; [exact E |].
  intros h hs. rewrite E. f_equal. unfold join.
  revert h. induction hs as [| h' hs IH]; intros h; simpl.
  - symmetry. apply string_app_empty_r.
  - simpl in IH. rewrite IH. reflexivity.
Qed.

(** C9. [suggest_auto_enrichment] is a function of its two arguments alone
    (it takes no state and no environment): the empty list of topics gives
    the empty list, and a list of topics gives one bundle per topic, in input
    order, each templated from that topic and the query. *)
Theorem suggest_auto_enrichment_spec :
  (forall query : string, suggest_auto_enrichment [] query = []) /\
  (forall (missing_info : list string) (query : string),
      suggest_auto_enrichment missing_info query
      = map (suggestion_bundle query) missing_info /\
      length (suggest_auto_enrichment missing_info query) = length missing_info /\
      (forall (i : nat) (topic : string),
          missing_info !! i = Some topic ->
          suggest_auto_enrichment missing_info query !! i
          = Some {| missing_topic := topic;
                    suggested_sources :=
                      [ "Search for '" +:+ topic +:+ "' in academic papers";
                        "Look up '" +:+ topic +:+ "' in industry documentation";
                        "Find recent articles about '" +:+ topic +:+ "'" ];
                    search_queries :=
                      [ topic +:+ " " +:+ query;
                        topic +:+ " best practices";
                        topic +:+ " latest research" ] |})).
Proof.
  split; [reflexivity |].
  intros missing_info query.
  assert (E : suggest_auto_enrichment missing_info query
              = map (suggestion_bundle query) missing_info).
  { unfold suggest_auto_enrichment. destruct missing_info as [| t ts]; [reflexivity |].
    cbv [list_falsy].
    exact (fold_left_append (suggestion_bundle query) (t :: ts) []). }
  rewrite E. split; [reflexivity |]. split; [apply length_map |].
  intros i topic Hi. rewrite list_lookup_fmap, Hi. reflexivity.
Qed.

(* ================================================================= *)
(** ** The answer pipeline *)

Ltac unfold_M :=
  unfold mbind, M_mbind, mret, M_ret, lift, raise, try_except.

Lemma posts_app (t1 t2 : list event) : posts (t1 ++ t2) = posts t1 ++ posts t2.
Proof. unfold posts. apply flat_map_app. Qed.

Section PipelineFacts.
Context `{Environment}.

(** Retrieval embeds the query and reads the store: it posts nothing and
    writes nothing. *)
Lemma search_documents_frame (query : string) (w w1 : world) (r : result search_results) :
  search_documents query w = (r, w1) ->
  trace w1 = trace w ++ [EvEncode [query]] /\ collection w1 = collection w /\
  files w1 = files w.
Proof.
  unfold search_documents, model_encode, query_collection, emit. unfold_M.
  destruct (encode [query]) as [embeddings | e]; cbn.
  - destruct (getitem_list embeddings 0) as [q | e]; cbn.
    + destruct (collection_query (collection w) q (TOP_K_DOCUMENTS config)) as [o | e]; cbn;
        intros [= <- <-]; repeat split.
    + intros [= <- <-]; repeat split.
  - intros [= <- <-]; repeat split.
Qed.

(** The completion step never raises, and posts exactly one request. *)
Lemma call_openai_run (query context : string) (w : world) :
  exists w', _call_openai_with_completeness_check query context w
             = (Ok (completion_value query context), w') /\
             trace w' = trace w ++ [EvPost (completion_request query context)].
Proof.
  eexists. unfold _call_openai_with_completeness_check, completion_value, client_post, emit.
  unfold_M. cbn.
  destruct (http_post (completion_request query context)) as [e | status_code text]; cbn.
  - split; reflexivity.
  - destruct (status_code =? 200)%Z; cbn; [| split; reflexivity].
    destruct (json_loads text) as [body | e]; cbn; [| split; reflexivity].
    destruct (message_content body) as [content | e]; cbn; [| split; reflexivity].
    destruct (json_loads_value content) as [v | e]; cbn; split; reflexivity.
Qed.

(** The pipeline after a retrieval that found something. *)
Lemma generate_answer_with_hits (query : string) (w w1 : world) (sr : search_results)
    (context : string) :
  search_documents query w = (Ok sr, w1) ->
  sr_documents sr <> [] ->
  _prepare_context sr = Ok context ->
  exists w2,
    trace w2 = trace w1 ++ [EvPost (completion_request query context)] /\
    generate_answer query w
    = (let response := completion_value query context in
       answer ← method_get response "answer" (JStr "");
       missing_info ← method_get response "missing_info" (JList []);
       enrichment_suggestions ← method_get response "enrichment_suggestions" (JList []);
       mret {| qr_answer := answer;
               qr_confidence := _calculate_confidence (sr_distances sr);
               qr_missing_info := missing_info;
               qr_enrichment_suggestions := enrichment_suggestions;
               qr_sources := _prepare_sources sr |}, w2).
Proof.
  intros Hs Hne Hc.
  destruct (call_openai_run query context w1) as (w2 & Hrun & Htr).
  exists w2. split; [exact Htr |].
  unfold generate_answer. unfold_M. rewrite Hs.
  destruct (sr_documents sr) as [| doc docs] eqn:Hd; [congruence |].
  cbn [list_falsy]. rewrite Hc, Hrun.
  cbv zeta.
  destruct (method_get (completion_value query context) "answer" (JStr "")); cbn;
    [| reflexivity].
  destruct (method_get (completion_value query context) "missing_info" (JList [])); cbn;
    [| reflexivity].
  destruct (method_get (completion_value query context) "enrichment_suggestions" (JList []));
    cbn; reflexivity.
Qed.

(** C3. When retrieval returns no hit, [generate_answer] returns the fixed
    result: confidence 0, no sources, one canned missing-info entry and two
    canned enrichment suggestions; no request is posted to the completion
    endpoint and the store is left as it was. *)
Theorem generate_answer_no_hits (query : string) (w w1 : world) (sr : search_results) :
  search_documents query w = (Ok sr, w1) ->
  sr_documents sr = [] ->
  generate_answer query w = (Ok no_documents_result, w1) /\
  qr_confidence no_documents_result = 0%Q /\
  qr_sources no_documents_result = [] /\
  qr_missing_info no_documents_result
  = JList [JStr "No relevant documents found in the knowledge base"] /\
  qr_enrichment_suggestions no_documents_result
  = JList [ JStr "Upload documents related to your query";
            JStr "Try rephrasing your question with different keywords" ] /\
  posts (trace w1) = posts (trace w) /\
  collection w1 = collection w.
Proof.
  intros Hs Hd.
  destruct (search_documents_frame _ _ _ _ Hs) as (Htr & Hcol & _).
  split.
  - unfold generate_answer. unfold_M. rewrite Hs, Hd. reflexivity.
  - repeat split; try reflexivity; [| exact Hcol].
    rewrite Htr, posts_app. cbn. apply app_nil_r.
Qed.

(** C10. When the endpoint answers 200 and the content of the first choice
    parses as a JSON object, the fields of the Query Result are read from
    that object without any validation: [answer] is the value under
    ["answer"], or the empty string when the key is missing, and
    [missing_info] and [enrichment_suggestions] are the values under their
    keys, or empty lists when the keys are missing. *)
Theorem generate_answer_no_schema_validation (query : string) (w w1 : world)
    (sr : search_results) (context text content : string) (body : json)
    (d : list (string * json)) :
  search_documents query w = (Ok sr, w1) ->
  sr_documents sr <> [] ->
  _prepare_context sr = Ok context ->
  http_post (completion_request query context) = Response 200 text ->
  json_loads text = Ok body ->
  message_content body = Ok (JStr content) ->
  json_loads content = Ok (JDict d) ->
  exists (w2 : world) (qr : query_result),
    generate_answer query w = (Ok qr, w2) /\
    qr_answer qr = default (JStr "") (items_get "answer" d) /\
    qr_missing_info qr = default (JList []) (items_get "missing_info" d) /\
    qr_enrichment_suggestions qr
    = default (JList []) (items_get "enrichment_suggestions" d) /\
    (items_get "answer" d = None -> qr_answer qr = JStr "") /\
    (items_get "missing_info" d = None -> qr_missing_info qr = JList []) /\
    (items_get "enrichment_suggestions" d = None ->
     qr_enrichment_suggestions qr = JList []) /\
    qr_confidence qr = _calculate_confidence (sr_distances sr) /\
    qr_sources qr = _prepare_sources sr.
Proof.
  intros Hs Hne Hc Hpost Hbody Hcontent Hd.
  destruct (generate_answer_with_hits query w w1 sr context Hs Hne Hc) as (w2 & _ & Hrun).
  assert (Hv : completion_value query context = JDict d).
  { unfold completion_value. rewrite Hpost. cbn. rewrite Hbody, Hcontent. cbn.
    rewrite Hd. reflexivity. }
  rewrite Hv in Hrun.
  exists w2,
    {| qr_answer := default (JStr "") (items_get "answer" d);
       qr_confidence := _calculate_confidence (sr_distances sr);
       qr_missing_info := default (JList []) (items_get "missing_info" d);
       qr_enrichment_suggestions :=
         default (JList []) (items_get "enrichment_suggestions" d);
       qr_sources := _prepare_sources sr |}.
  split.
  - rewrite Hrun. unfold method_get.
    destruct (items_get "answer" d), (items_get "missing_info" d),
      (items_get "enrichment_suggestions" d); reflexivity.
  - cbn [qr_answer qr_missing_info qr_enrichment_suggestions qr_confidence qr_sources].
    repeat split; intros ->; reflexivity.
Qed.

(** X8. The failures the completion step absorbs: a request that raises, a
    status other than 200, and a body that does not parse all give a Query
    Result with a diagnostic answer. *)
Lemma generate_answer_degrades (query : string) (w w1 : world) (sr : search_results)
    (context : string) :
  search_documents query w = (Ok sr, w1) ->
  sr_documents sr <> [] ->
  _prepare_context sr = Ok context ->
  (forall e, http_post (completion_request query context) = PostRaises e ->
     exists w2 qr, generate_answer query w = (Ok qr, w2) /\
       qr_answer qr = JStr ("Error generating response: " +:+ exn_str e) /\
       qr_missing_info qr = JList [JStr "System error occurred"]) /\
  (forall status_code text,
     http_post (completion_request query context) = Response status_code text ->
     status_code <> 200%Z ->
     exists w2 qr, generate_answer query w = (Ok qr, w2) /\
       qr_answer qr = JStr ("Error calling OpenAI API: " +:+ str_of_Z status_code
                            +:+ " - " +:+ text) /\
       qr_missing_info qr = JList [JStr "API call failed"]) /\
  (forall text e,
     http_post (completion_request query context) = Response 200 text ->
     json_loads text = Raise e ->
     exists w2 qr, generate_answer query w = (Ok qr, w2) /\
       qr_answer qr = JStr ("Error generating response: " +:+ exn_str e) /\
       qr_missing_info qr = JList [JStr "System error occurred"]).
Proof.
  intros Hs Hne Hc.
  destruct (generate_answer_with_hits query w w1 sr context Hs Hne Hc) as (w2 & _ & Hrun).
  repeat split.
  - intros e Hpost. exists w2. eexists.
    split; [rewrite Hrun; unfold completion_value; rewrite Hpost; reflexivity |].
    split; reflexivity.
  - intros status_code text Hpost Hcode. exists w2. eexists.
    apply Z.eqb_neq in Hcode.
    split; [rewrite Hrun; unfold completion_value; rewrite Hpost, Hcode; reflexivity |].
    split; reflexivity.
  - intros text e Hpost Hbody. exists w2. eexists.
    split; [rewrite Hrun; unfold completion_value; rewrite Hpost; cbn; rewrite Hbody;
            reflexivity |].
    split; reflexivity.
Qed.

(** C1 (where the code departs from the claim). When the endpoint answers
    200 and the content of the first choice parses as JSON that is not an
    object (a list, a string, a number, [true], [null]), the completion step
    returns that value, and [generate_answer] calls [.get] on it outside any
    [try]: an [AttributeError] escapes instead of a Query Result. *)
Theorem generate_answer_non_object_escapes (query : string) (w w1 : world)
    (sr : search_results) (context text content : string) (body v : json) :
  search_documents query w = (Ok sr, w1) ->
  sr_documents sr <> [] ->
  _prepare_context sr = Ok context ->
  http_post (completion_request query context) = Response 200 text ->
  json_loads text = Ok body ->
  message_content body = Ok (JStr content) ->
  json_loads content = Ok v ->
  (forall d, v <> JDict d) ->
  exists w2 : world,
    generate_answer query w
    = (Raise (Exn AttributeError
                ("'" +:+ type_name v +:+ "' object has no attribute 'get'")), w2).
Proof.
  intros Hs Hne Hc Hpost Hbody Hcontent Hv Hnd.
  destruct (generate_answer_with_hits query w w1 sr context Hs Hne Hc) as (w2 & _ & Hrun).
  exists w2. rewrite Hrun.
  assert (E : completion_value query context = v).
  { unfold completion_value. rewrite Hpost. cbn. rewrite Hbody, Hcontent. cbn.
    rewrite Hv. reflexivity. }
  rewrite E. destruct v; try reflexivity. exfalso. eapply Hnd. reflexivity.
Qed.

End PipelineFacts.

(** The theorems on the sample environment. *)
Lemma generate_answer_no_hits_witness :
  let E := sample_environment [] (Response 200 "") (Ok "") (fun _ => []) in
  @generate_answer E "What is Rocq?" empty_world
  = (Ok no_documents_result,
     {| collection := []; files := ∅; in_use := ∅; uuids_drawn := 0;
        trace := [EvEncode ["What is Rocq?"]] |}).
Proof.
  intros E.
  apply (@generate_answer_no_hits E "What is Rocq?" empty_world _
           {| sr_documents := []; sr_metadatas := []; sr_distances := [] |});
    reflexivity.
Defined.

Lemma generate_answer_no_schema_validation_witness :
  let E := sample_environment
             [ (completion_text "{}", completion_body "{}"); ("{}", JDict []) ]
             (Response 200 (completion_text "{}")) (Ok "") (fun _ => []) in
  exists (w2 : world) (qr : query_result),
    @generate_answer E "What is Rocq?" sample_world = (Ok qr, w2) /\
    qr_answer qr = JStr "" /\ qr_missing_info qr = JList [] /\
    qr_enrichment_suggestions qr = JList [].
Proof.
  intros E.
  destruct (@generate_answer_no_schema_validation E "What is Rocq?" sample_world
              {| collection := [sample_chunk]; files := {["./uploads/notes.txt"]};
                 in_use := ∅; uuids_drawn := 1; trace := [EvEncode ["What is Rocq?"]] |}
              sample_results sample_context (completion_text "{}") "{}" (completion_body "{}") [])
    as (w2 & qr & Hrun & Ha & Hm & Hs & _);
    [reflexivity | discriminate | reflexivity | reflexivity | reflexivity | reflexivity
    | reflexivity |].
  exists w2, qr. repeat split; assumption.
Defined.

Lemma generate_answer_non_object_escapes_witness :
  let E := sample_environment
             [ (completion_text "[]", completion_body "[]"); ("[]", JList []) ]
             (Response 200 (completion_text "[]")) (Ok "") (fun _ => []) in
  exists w2 : world,
    @generate_answer E "What is Rocq?" sample_world
    = (Raise (Exn AttributeError "'list' object has no attribute 'get'"), w2).
Proof.
  intros E.
  apply (@generate_answer_non_object_escapes E "What is Rocq?" sample_world
           {| collection := [sample_chunk]; files := {["./uploads/notes.txt"]};
              in_use := ∅; uuids_drawn := 1; trace := [EvEncode ["What is Rocq?"]] |}
           sample_results sample_context (completion_text "[]") "[]" (completion_body "[]")
           (JList []));
    try reflexivity; discriminate.
Defined.

(* ================================================================= *)
(** ** Deleting a document *)

Lemma filter_of_document_gone (document_id : string) (store : list chunk) :
  List.filter (of_document document_id)
              (List.filter (fun c => negb (of_document document_id c)) store) = [].
Proof.
  induction store as [| c store IH]; [reflexivity |].
  cbn [List.filter]. destruct (of_document document_id c) eqn:Hd; cbn [negb List.filter].
  - exact IH.
  - rewrite Hd. exact IH.
Qed.

Lemma filter_other_documents (document_id other : string) (store : list chunk) :
  other <> document_id ->
  List.filter (of_document other)
              (List.filter (fun c => negb (of_document document_id c)) store)
  = List.filter (of_document other) store.
Proof.
  intros Hne. induction store as [| c store IH]; [reflexivity |].
  cbn [List.filter].
  destruct (of_document document_id c) eqn:Hd; cbn [negb List.filter].
  - destruct (of_document other c) eqn:Ho; [| exact IH].
    unfold of_document in Hd, Ho.
    apply String.eqb_eq in Hd. apply String.eqb_eq in Ho. congruence.
  - rewrite IH. reflexivity.
Qed.

Lemma str_falsy_true (s : string) : str_falsy s = true -> s = "".
Proof. destruct s; [reflexivity | discriminate]. Qed.

(** C6. Deleting an id with no stored chunk returns the error
    [Document not found] and changes nothing: the store, its count, the disk
    and the log stay as they were. Deleting an id with stored chunks succeeds:
    it reports their number and the filename of the first, removes exactly
    the chunks of that document (the count drops by their number, no chunk of
    the document is left, the chunks of other documents stay), and then, when
    the recorded path is non-empty and exists, tries to remove the file; a
    removal that raises [OSError] leaves the file in place and the result is
    still a success. *)
Theorem delete_document_spec (document_id : string) (w : world) :
  (List.filter (of_document document_id) (collection w) = [] ->
   delete_document document_id w = (Ok (DeleteError "Document not found"), w) /\
   collection_count (snd (delete_document document_id w)) = collection_count w) /\
  (forall (c : chunk) (cs : list chunk),
     List.filter (of_document document_id) (collection w) = c :: cs ->
     let filename := md_filename (chunk_metadata c) in
     let file_path := default "" (md_file_path (chunk_metadata c)) in
     exists w' : world,
       delete_document document_id w
       = (Ok (DeleteSuccess ("Document '" +:+ filename +:+ "' deleted successfully")
                            (S (length cs)) filename), w') /\
       collection w' = List.filter (fun c => negb (of_document document_id c)) (collection w) /\
       (collection_count w' + S (length cs) = collection_count w)%nat /\
       List.filter (of_document document_id) (collection w') = [] /\
       (forall other, other <> document_id ->
          List.filter (of_document other) (collection w')
          = List.filter (of_document other) (collection w)) /\
       (file_path <> "" -> file_path ∈ files w ->
          trace w' = trace w ++ [EvDelete document_id; EvRemove file_path] /\
          (file_path ∉ in_use w -> files w' = files w ∖ {[file_path]}) /\
          (file_path ∈ in_use w -> files w' = files w)) /\
       (file_path = "" \/ file_path ∉ files w ->
          trace w' = trace w ++ [EvDelete document_id] /\ files w' = files w)).
Proof.
  split.
  - intros Hnone.
    assert (E : delete_document document_id w
                = (Ok (DeleteError "Document not found"), w)).
    { unfold delete_document, collection_get_where. unfold_M. rewrite Hnone. reflexivity. }
    rewrite E. split; reflexivity.
  - intros c cs Hsome filename file_path.
    pose proof (filter_length (of_document document_id) (collection w)) as Hlen.
    rewrite Hsome in Hlen. cbn [length] in Hlen.
    unfold delete_document, collection_get_where, collection_delete_where,
      delete_from_collection, os_path_exists, os_remove, unlink, try_except_OSError, emit.
    unfold_M. rewrite Hsome. cbn [map list_falsy length]. rewrite length_map.
    fold filename. fold file_path.
    cbn [collection files in_use trace uuids_drawn set_collection set_files].
    assert (Hcount : (length (List.filter (fun c => negb (of_document document_id c))
                                          (collection w)) + S (length cs)
                      = length (collection w))%nat) by lia.
    destruct (str_falsy file_path) eqn:Hfalsy.
    { apply str_falsy_true in Hfalsy.
      eexists. split; [reflexivity |].
      cbn [collection files in_use trace uuids_drawn set_collection set_files].
      unfold collection_count.
      split; [reflexivity |]. split; [exact Hcount |].
      split; [apply filter_of_document_gone |].
      split; [intros other Hne; apply filter_other_documents, Hne |].
      split; [congruence |]. intros _. split; reflexivity. }
    assert (Hpath : file_path <> "").
    { intros He. rewrite He in Hfalsy. discriminate. }
    cbn [files set_collection].
    destruct (bool_decide (file_path ∈ files w)) eqn:Hex.
    + apply bool_decide_eq_true in Hex. cbn [andb].
      assert (Hne : file_path = "" \/ file_path ∉ files w -> False).
      { intros [He | Hn]; contradiction. }
      cbn [files in_use set_collection]. rewrite (bool_decide_eq_true_2 _ Hex). cbn [andb].
      destruct (bool_decide (file_path ∈ in_use w)) eqn:Hbusy.
      * apply bool_decide_eq_true in Hbusy. cbn [negb].
        eexists. split; [reflexivity |].
        cbn [collection files in_use trace uuids_drawn set_collection set_files].
      unfold collection_count.
        split; [reflexivity |]. split; [exact Hcount |].
        split; [apply filter_of_document_gone |].
        split; [intros other Ho; apply filter_other_documents, Ho |].
        split; [| intros Hc; destruct (Hne Hc)].
        intros _ _. split; [rewrite <- app_assoc; reflexivity |].
        split; [intros Hn; contradiction | reflexivity].
      * apply bool_decide_eq_false in Hbusy. cbn [negb].
        eexists. split; [reflexivity |].
        cbn [collection files in_use trace uuids_drawn set_collection set_files].
      unfold collection_count.
        split; [reflexivity |]. split; [exact Hcount |].
        split; [apply filter_of_document_gone |].
        split; [intros other Ho; apply filter_other_documents, Ho |].
        split; [| intros Hc; destruct (Hne Hc)].
        intros _ _. split; [rewrite <- app_assoc; reflexivity |].
        split; [reflexivity | intros Hn; contradiction].
    + apply bool_decide_eq_false in Hex.
      eexists. split; [reflexivity |].
      cbn [collection files in_use trace uuids_drawn set_collection set_files].
      unfold collection_count.
      split; [reflexivity |]. split; [exact Hcount |].
      split; [apply filter_of_document_gone |].
      split; [intros other Ho; apply filter_other_documents, Ho |].
      split; [intros _ Hin; contradiction |].
      intros _. split; reflexivity.
Qed.


(* ================================================================= *)
(** ** Ingesting a document *)

Lemma to_uint_nonnil (n : nat) : Nat.to_uint n <> Decimal.Nil.
Proof.
  rewrite <- (DecimalNat.Unsigned.of_to n) at 1. rewrite DecimalNat.Unsigned.to_of.
  apply DecimalFacts.unorm_nonnil.
Qed.

Lemma str_of_nat_inj (i j : nat) : str_of_nat i = str_of_nat j -> i = j.
Proof.
  unfold str_of_nat. intros E.
  pose proof (NilZero.usu _ (to_uint_nonnil i)) as Hi.
  pose proof (NilZero.usu _ (to_uint_nonnil j)) as Hj.
  rewrite E in Hi. rewrite Hj in Hi. injection Hi as Hu.
  symmetry. apply DecimalNat.Unsigned.to_uint_inj, Hu.
Qed.

Lemma string_app_cancel_l (p s t : string) : p +:+ s = p +:+ t -> s = t.
Proof.
  induction p as [| c p IH]; intros E; [exact E |].
  apply IH. change (String c (p +:+ s) = String c (p +:+ t)) in E. congruence.
Qed.

Lemma chunk_ids_NoDup (document_id : string) (n : nat) :
  List.NoDup (chunk_ids_of document_id n).
Proof.
  unfold chunk_ids_of. apply Injective_map_NoDup; [| apply List.seq_NoDup].
  intros i j E. apply string_app_cancel_l in E. apply string_app_cancel_l in E.
  apply str_of_nat_inj, E.
Qed.


Lemma build_chunks_ids (ids documents : list string) (embeddings : list (list Q))
    (metadatas : list metadata) :
  length documents = length ids -> length embeddings = length ids ->
  length metadatas = length ids ->
  map chunk_id (build_chunks ids documents embeddings metadatas) = ids.
Proof.
  revert documents embeddings metadatas.
  induction ids as [| i ids IH]; intros [| d ds] [| e es] [| m ms]; cbn; try discriminate;
    try reflexivity.
  intros [= Hd] [= He] [= Hm]. rewrite IH; auto.
Qed.

Lemma existsb_has_id_false (id : string) (store : list chunk) :
  ~ In id (map chunk_id store) -> existsb (has_id id) store = false.
Proof.
  induction store as [| c store IH]; intros Hn; [reflexivity |].
  cbn [existsb]. cbn in Hn. rewrite IH by tauto.
  unfold has_id. destruct (String.eqb_spec (chunk_id c) id); [tauto | reflexivity].
Qed.

Lemma store_add_fresh (batch store : list chunk) :
  List.NoDup (map chunk_id batch) ->
  (forall c, In c store -> ~ In (chunk_id c) (map chunk_id batch)) ->
  store_add batch store = store ++ batch.
Proof.
  unfold store_add. revert store.
  induction batch as [| b batch IH]; intros store Hnd Hfresh.
  - cbn. symmetry. apply app_nil_r.
  - cbn [fold_left]. cbn [map] in Hnd. apply List.NoDup_cons_iff in Hnd as [Hb Hnd].
    rewrite existsb_has_id_false.
    + rewrite IH; [rewrite <- app_assoc; reflexivity | exact Hnd |].
      intros c Hc Hin. apply in_app_or in Hc as [Hc | [<- | []]].
      * apply (Hfresh c Hc). right. exact Hin.
      * contradiction.
    + intros Hin. apply in_map_iff in Hin as (c & Hid & Hc).
      apply (Hfresh c Hc). left. congruence.
Qed.

Section IngestFacts.
Context `{Environment}.

(** Reading the file leaves the world as it was. *)
Lemma extract_text_frame (file_path : string) (w : world) :
  exists r, extract_text_from_file file_path w = (r, w).
Proof.
  unfold extract_text_from_file. unfold_M.
  repeat (match goal with |- context [if ?b then _ else _] => destruct b end);
    eexists; reflexivity.
Qed.

(** The run of an ingestion, by the answers of the environment. *)
Lemma process_and_store_document_run (file_path filename : string) (w : world)
    (r : result string) :
  extract_text_from_file file_path w = (r, w) ->
  process_and_store_document file_path filename w
  = match r with
    | Raise e => (Ok (IngestError filename (exn_str e)), w)
    | Ok text =>
        if str_falsy (py_strip text)
        then (Ok (IngestError filename "No text content found in the document"), w)
        else
          match split_text text with
          | Raise e => (Ok (IngestError filename (exn_str e)), w)
          | Ok [] => (Ok (IngestError filename "No chunks generated from the document"), w)
          | Ok chunks =>
              let w1 := snd (emit (EvEncode chunks) w) in
              match encode chunks with
              | Raise e => (Ok (IngestError filename (exn_str e)), w1)
              | Ok embeddings =>
                  let document_id := uuid4 (uuids_drawn w) in
                  let ids := chunk_ids_of document_id (length chunks) in
                  let w2 :=
                    {| collection := collection w; files := files w; in_use := in_use w;
                       uuids_drawn := S (uuids_drawn w);
                       trace := trace w ++ [EvEncode chunks; EvAdd ids] |} in
                  if (length embeddings =? length chunks)%nat
                  then (Ok (IngestSuccess document_id filename (length chunks)),
                        set_collection
                          (store_add (ingested_chunks document_id filename file_path
                                                      chunks embeddings)
                                     (collection w)) w2)
                  else (Ok (IngestError filename "Unequal lengths for fields of the batch"),
                        w2)
              end
          end
    end.
Proof.
  intros Hx.
  unfold process_and_store_document, chunk_text, generate_embeddings, model_encode,
    fresh_uuid, collection_add, add_to_collection, emit.
  unfold_M. rewrite Hx.
  destruct r as [text | e]; [| reflexivity].
  destruct (str_falsy (py_strip text)); [reflexivity |].
  destruct (split_text text) as [chunks | e]; [| reflexivity].
  destruct chunks as [| ch chunks]; [reflexivity |].
  cbn [list_falsy snd].
  destruct (encode (ch :: chunks)) as [embeddings | e]; [| reflexivity].
  cbn [collection files in_use uuids_drawn trace].
  rewrite !length_map, !length_seq, !Nat.eqb_refl, Bool.andb_true_r.
  destruct (length embeddings =? length (ch :: chunks))%nat; cbn [andb].
  - unfold ingested_chunks, chunk_ids_of, set_collection.
    cbn [collection files in_use uuids_drawn trace].
    rewrite <- app_assoc. reflexivity.
  - rewrite <- app_assoc. reflexivity.
Qed.

Lemma ingested_chunks_ids (document_id filename file_path : string)
    (chunks : list string) (embeddings : list (list Q)) :
  length embeddings = length chunks ->
  map chunk_id (ingested_chunks document_id filename file_path chunks embeddings)
  = chunk_ids_of document_id (length chunks).
Proof.
  intros He. unfold ingested_chunks. apply build_chunks_ids.
  - unfold chunk_ids_of. rewrite length_map, length_seq. reflexivity.
  - unfold chunk_ids_of. rewrite length_map, length_seq. exact He.
  - unfold chunk_ids_of. rewrite !length_map, !length_seq. reflexivity.
Qed.


End IngestFacts.

(* ================================================================= *)
(** ** Listing the documents *)

Section Dicts.
Context {V : Type}.

Lemma dict_mem_keys (key : string) (d : list (string * V)) :
  dict_mem key d = true <-> In key (map fst d).
Proof.
  induction d as [| [k v] d IH]; cbn.
  - split; [discriminate | tauto].
  - rewrite Bool.orb_true_iff, IH, String.eqb_eq. tauto.
Qed.

Lemma dict_update_keys (key : string) (f : V -> V) (d : list (string * V)) :
  map fst (dict_update key f d) = map fst d.
Proof.
  induction d as [| [k v] d IH]; cbn; [reflexivity |].
  destruct (String.eqb k key); cbn; [reflexivity | rewrite IH; reflexivity].
Qed.

Lemma dict_update_In (key : string) (f : V -> V) (d : list (string * V)) (k : string)
    (v : V) :
  List.NoDup (map fst d) ->
  In (k, v) (dict_update key f d) ->
  (k <> key /\ In (k, v) d) \/ (k = key /\ exists v0, In (key, v0) d /\ v = f v0).
Proof.
  induction d as [| [k0 v0] d IH]; cbn; [tauto |].
  intros Hnd Hin. apply List.NoDup_cons_iff in Hnd as [Hk0 Hnd].
  destruct (String.eqb_spec k0 key) as [-> | Hne].
  - destruct Hin as [[= <- <-] | Hin].
    + right. split; [reflexivity |]. exists v0. split; [left; reflexivity | reflexivity].
    + left. split; [| right; exact Hin].
      intros ->. apply Hk0. apply in_map_iff. exists (key, v). split; [reflexivity | exact Hin].
  - destruct Hin as [[= <- <-] | Hin].
    + left. split; [exact Hne | left; reflexivity].
    + destruct (IH Hnd Hin) as [[Hk Hd] | [Hk (v1 & Hd & Hv)]].
      * left. split; [exact Hk | right; exact Hd].
      * right. split; [exact Hk |]. exists v1. split; [right; exact Hd | exact Hv].
Qed.

Lemma dict_update_fresh (key : string) (f : V -> V) (d : list (string * V)) (v : V) :
  ~ In key (map fst d) ->
  dict_update key f (d ++ [(key, v)]) = d ++ [(key, f v)].
Proof.
  induction d as [| [k0 v0] d IH]; cbn; intros Hn.
  - rewrite String.eqb_refl. reflexivity.
  - destruct (String.eqb_spec k0 key) as [-> | Hne]; [tauto |].
    rewrite IH by tauto. reflexivity.
Qed.

End Dicts.

(** Sorting by filename. *)
Lemma leb_true_cases (a b : string) :
  String.leb a b = true <-> a = b \/ String_as_OT.lt a b.
Proof.
  unfold String.leb. rewrite <- String_as_OT.cmp_lt.
  change String_as_OT.cmp with String.compare.
  destruct (String.compare a b) eqn:E.
  - apply String.compare_eq_iff in E. tauto.
  - tauto.
  - split; [discriminate |]. intros [-> | Hlt]; [| discriminate].
    pose proof (String.compare_antisym b b) as Ha. rewrite E in Ha. discriminate.
Qed.

Lemma filename_le_trans : Transitive filename_le.
Proof.
  unfold filename_le. intros a b c Hab Hbc.
  apply leb_true_cases in Hab. apply leb_true_cases in Hbc. apply leb_true_cases.
  destruct Hab as [-> | Hab]; [exact Hbc |].
  destruct Hbc as [<- | Hbc]; [right; exact Hab |].
  right. eapply String_as_OT.lt_trans; eassumption.
Qed.

Lemma filename_le_total (a b : document_entry) : filename_le a b \/ filename_le b a.
Proof. apply String.leb_total. Qed.

Lemma insert_by_filename_perm (x : document_entry) (l : list document_entry) :
  Permutation (insert_by_filename x l) (x :: l).
Proof.
  induction l as [| y l IH]; cbn; [reflexivity |].
  destruct (String.leb (doc_filename x) (doc_filename y)); [reflexivity |].
  rewrite IH. apply perm_swap.
Qed.

Lemma sort_by_filename_perm (l : list document_entry) :
  Permutation (sort_by_filename l) l.
Proof.
  induction l as [| x l IH]; cbn; [reflexivity |].
  rewrite insert_by_filename_perm, IH. reflexivity.
Qed.

Lemma insert_by_filename_sorted (x : document_entry) (l : list document_entry) :
  Sorted filename_le l -> Sorted filename_le (insert_by_filename x l).
Proof.
  induction l as [| y l IH]; intros Hs; cbn.
  - repeat constructor.
  - destruct (String.leb (doc_filename x) (doc_filename y)) eqn:Hxy.
    + constructor; [exact Hs | constructor; exact Hxy].
    + assert (Hyx : filename_le y x).
      { destruct (filename_le_total x y) as [Hc | Hc]; [| exact Hc].
        unfold filename_le in Hc. congruence. }
      apply Sorted_inv in Hs as [Hs Hhd].
      constructor; [apply IH, Hs |].
      destruct l as [| z l]; cbn.
      * constructor. exact Hyx.
      * destruct (String.leb (doc_filename x) (doc_filename z)).
        -- constructor. exact Hyx.
        -- constructor. inversion Hhd; assumption.
Qed.

Lemma sort_by_filename_sorted (l : list document_entry) :
  StronglySorted filename_le (sort_by_filename l).
Proof.
  apply Sorted_StronglySorted; [exact filename_le_trans |].
  induction l as [| x l IH]; cbn; [constructor |].
  apply insert_by_filename_sorted, IH.
Qed.

(** The grouping loop. *)
Lemma entry_of_snoc_other (k : string) (ms : list metadata) (m : metadata) :
  md_document_id m <> k -> entry_of k (ms ++ [m]) = entry_of k ms.
Proof.
  intros Hne. unfold entry_of. rewrite List.filter_app. cbn [List.filter].
  unfold metadata_of at 2. destruct (String.eqb_spec (md_document_id m) k); [tauto |].
  rewrite app_nil_r. reflexivity.
Qed.

Lemma entry_of_snoc_same (ms : list metadata) (m : metadata) (e : document_entry) :
  entry_of (md_document_id m) ms = Some e ->
  entry_of (md_document_id m) (ms ++ [m])
  = Some (append_chunk (md_chunk_index m, md_total_chunks m) e).
Proof.
  unfold entry_of. rewrite List.filter_app. cbn [List.filter].
  unfold metadata_of at 3. rewrite String.eqb_refl.
  destruct (List.filter (metadata_of (md_document_id m)) ms) as [| m0 rest];
    [discriminate |].
  intros [= <-]. cbn [app]. unfold append_chunk. cbn.
  rewrite map_app. reflexivity.
Qed.

Lemma entry_of_snoc_new (ms : list metadata) (m : metadata) :
  entry_of (md_document_id m) ms = None ->
  entry_of (md_document_id m) (ms ++ [m])
  = Some (append_chunk (md_chunk_index m, md_total_chunks m)
            {| doc_document_id := md_document_id m;
               doc_filename := md_filename m;
               doc_total_chunks := md_total_chunks m;
               doc_file_path := default "" (md_file_path m);
               doc_chunks := [] |}).
Proof.
  unfold entry_of. rewrite List.filter_app. cbn [List.filter].
  unfold metadata_of at 3. rewrite String.eqb_refl.
  destruct (List.filter (metadata_of (md_document_id m)) ms) as [| m0 rest];
    [| discriminate].
  intros _. reflexivity.
Qed.

Lemma entry_of_None (k : string) (ms : list metadata) :
  (forall m, In m ms -> md_document_id m <> k) -> entry_of k ms = None.
Proof.
  intros Hn. unfold entry_of.
  destruct (List.filter (metadata_of k) ms) as [| m0 rest] eqn:E; [reflexivity |].
  exfalso. assert (Hin : In m0 (List.filter (metadata_of k) ms)) by (rewrite E; left; auto).
  apply filter_In in Hin as [Hin Hk]. unfold metadata_of in Hk.
  apply String.eqb_eq in Hk. exact (Hn m0 Hin Hk).
Qed.

Lemma grouped_nil : grouped [] [].
Proof. split; cbn; [constructor | tauto | tauto]. Qed.

Lemma group_step_grouped (ms : list metadata) (docs : list (string * document_entry))
    (m : metadata) :
  grouped ms docs -> grouped (ms ++ [m]) (group_step docs m).
Proof.
  intros [Hkeys Hentry Hall]. unfold group_step.
  destruct (dict_mem (md_document_id m) docs) eqn:Hmem; cbn [negb].
  - (* the document is known: its entry gets one more chunk *)
    split.
    + rewrite dict_update_keys. exact Hkeys.
    + intros k e Hin. apply dict_update_In in Hin; [| exact Hkeys].
      destruct Hin as [[Hk Hin] | [-> (e0 & Hin & ->)]].
      * rewrite entry_of_snoc_other by congruence. apply Hentry, Hin.
      * apply entry_of_snoc_same, Hentry, Hin.
    + intros m' Hin. rewrite dict_update_keys.
      apply in_app_or in Hin as [Hin | [<- | []]]; [apply Hall, Hin |].
      apply dict_mem_keys, Hmem.
  - (* a new document: a new entry with this one chunk *)
    assert (Hfresh : ~ In (md_document_id m) (map fst docs)).
    { intros Hin. apply dict_mem_keys in Hin. congruence. }
    rewrite dict_update_fresh by exact Hfresh.
    split.
    + rewrite map_app. cbn. apply List.NoDup_app; [exact Hkeys | |].
      * constructor; [cbn; tauto | constructor].
      * intros k Hk [<- | []]. exact (Hfresh Hk).
    + intros k e Hin. apply in_app_or in Hin as [Hin | [[= <- <-] | []]].
      * rewrite entry_of_snoc_other; [apply Hentry, Hin |].
        intros <-. apply Hfresh. apply in_map_iff. exists (md_document_id m, e).
        split; [reflexivity | exact Hin].
      * apply entry_of_snoc_new, entry_of_None.
        intros m' Hin' Heq. apply Hfresh. rewrite <- Heq. apply Hall, Hin'.
    + intros m' Hin. rewrite map_app. apply in_or_app.
      apply in_app_or in Hin as [Hin | [<- | []]]; [left; apply Hall, Hin |].
      right. left. reflexivity.
Qed.

Lemma fold_group_step_grouped (ms pre : list metadata)
    (docs : list (string * document_entry)) :
  grouped pre docs -> grouped (pre ++ ms) (fold_left group_step ms docs).
Proof.
  revert pre docs. induction ms as [| m ms IH]; intros pre docs Hg; cbn.
  - rewrite app_nil_r. exact Hg.
  - replace (pre ++ m :: ms) with ((pre ++ [m]) ++ ms) by (rewrite <- app_assoc; reflexivity).
    apply IH, group_step_grouped, Hg.
Qed.

Lemma entry_of_Some (k : string) (ms : list metadata) (e : document_entry) :
  entry_of k ms = Some e ->
  doc_document_id e = k /\
  doc_chunks e = map (fun m => (md_chunk_index m, md_total_chunks m))
                     (List.filter (metadata_of k) ms) /\
  exists m0, In m0 ms /\ md_document_id m0 = k /\
             doc_filename e = md_filename m0 /\
             doc_total_chunks e = md_total_chunks m0 /\
             doc_file_path e = default "" (md_file_path m0).
Proof.
  unfold entry_of.
  destruct (List.filter (metadata_of k) ms) as [| m0 rest] eqn:E; [discriminate |].
  intros [= <-]. cbn. split; [reflexivity |]. split; [reflexivity |].
  exists m0.
  assert (Hin : In m0 (List.filter (metadata_of k) ms)) by (rewrite E; left; reflexivity).
  apply filter_In in Hin as [Hin Hk]. unfold metadata_of in Hk. apply String.eqb_eq in Hk.
  repeat split; assumption.
Qed.

Lemma grouped_ids (ms : list metadata) (docs : list (string * document_entry)) :
  (forall k e, In (k, e) docs -> entry_of k ms = Some e) ->
  map doc_document_id (map snd docs) = map fst docs.
Proof.
  induction docs as [| [k e] docs IH]; intros Hentry; cbn; [reflexivity |].
  rewrite IH by (intros k' e' Hin; apply Hentry; right; exact Hin).
  destruct (entry_of_Some k ms e (Hentry k e (or_introl eq_refl))) as [-> _].
  reflexivity.
Qed.

(** C8. For every store, the listing holds one entry per stored document
    identifier (no identifier twice, every stored chunk under the entry of
    its document, no entry without a stored chunk), sorted by filename
    ascending; an entry carries the filename, path and chunk count recorded on
    the first stored chunk of its document and the list of the
    [(chunk_index, total_chunks)] pairs of all its chunks in store order;
    where every chunk records the true number of chunks of its document, the
    chunk count of an entry is the length of its chunk list. *)
Theorem get_all_documents_spec (w : world) :
  let ms := map chunk_metadata (collection w) in
  let listing := get_all_documents w in
  StronglySorted filename_le (dl_documents listing) /\
  List.NoDup (map doc_document_id (dl_documents listing)) /\
  (forall e, In e (dl_documents listing) ->
             entry_of (doc_document_id e) ms = Some e /\
             doc_chunks e = map (fun m => (md_chunk_index m, md_total_chunks m))
                                (List.filter (metadata_of (doc_document_id e)) ms) /\
             exists m, In m ms /\ md_document_id m = doc_document_id e) /\
  (forall m, In m ms ->
             exists e, In e (dl_documents listing) /\
                       doc_document_id e = md_document_id m /\
                       In (md_chunk_index m, md_total_chunks m) (doc_chunks e)) /\
  dl_total_documents listing = length (dl_documents listing) /\
  dl_total_chunks listing = collection_count w /\
  ((forall m, In m ms ->
              md_total_chunks m
              = length (List.filter (metadata_of (md_document_id m)) ms)) ->
   forall e, In e (dl_documents listing) -> doc_total_chunks e = length (doc_chunks e)).
Proof.
  intros ms listing.
  pose (docs := fold_left group_step ms []).
  assert (Hg : grouped ms docs) by exact (fold_group_step_grouped ms [] [] grouped_nil).
  destruct Hg as [Hkeys Hentry Hall].
  assert (Hperm : Permutation (dl_documents listing) (map snd docs))
    by apply sort_by_filename_perm.
  assert (Hin : forall e, In e (dl_documents listing) ->
                          entry_of (doc_document_id e) ms = Some e).
  { intros e He. apply (Permutation_in _ Hperm) in He.
    apply in_map_iff in He as ([k e'] & <- & Hd). cbn.
    pose proof (Hentry k e' Hd) as Hk.
    destruct (entry_of_Some _ _ _ Hk) as [-> _]. exact Hk. }
  split; [apply sort_by_filename_sorted |].
  split.
  { apply (Permutation_NoDup (l := map doc_document_id (map snd docs))).
    - apply Permutation_map. symmetry. exact Hperm.
    - rewrite (grouped_ids ms docs Hentry). exact Hkeys. }
  split.
  { intros e He. pose proof (Hin e He) as Hk.
    destruct (entry_of_Some _ _ _ Hk) as (_ & Hchunks & m0 & Hm0 & Hid & _).
    split; [exact Hk |]. split; [exact Hchunks |]. exists m0. split; assumption. }
  split.
  { intros m Hm. pose proof (Hall m Hm) as Hkey.
    apply in_map_iff in Hkey as ([k e] & Hk & Hd). cbn in Hk. subst k.
    exists e. pose proof (Hentry _ _ Hd) as He.
    destruct (entry_of_Some _ _ _ He) as (Hid & Hchunks & _).
    split.
    - apply (Permutation_in _ (Permutation_sym Hperm)).
      apply in_map_iff. exists (md_document_id m, e). split; [reflexivity | exact Hd].
    - split; [exact Hid |]. rewrite Hchunks.
      apply in_map_iff. exists m. split; [reflexivity |].
      apply filter_In. split; [exact Hm |]. unfold metadata_of. apply String.eqb_refl. }
  split; [reflexivity |].
  split; [unfold collection_count; cbn; apply length_map |].
  intros Hcons e He. pose proof (Hin e He) as Hk.
  destruct (entry_of_Some _ _ _ Hk) as (_ & Hchunks & m0 & Hm0 & Hid & _ & Htot & _).
  rewrite Htot, Hchunks, length_map, (Hcons m0 Hm0), Hid. reflexivity.
Qed.

(* ================================================================= *)
(** ** The store on the sample environment *)

Lemma busy_world_file : "./uploads/notes.txt" ∈ files busy_world.
Proof. cbn [files busy_world]. set_solver. Qed.

Lemma busy_world_in_use : "./uploads/notes.txt" ∈ in_use busy_world.
Proof. cbn [in_use busy_world]. set_solver. Qed.


Lemma delete_document_spec_witness :
  (delete_document "doc-9" sample_world
   = (Ok (DeleteError "Document not found"), sample_world) /\
   collection_count (snd (delete_document "doc-9" sample_world)) = 1%nat) /\
  (exists w',
     delete_document "doc-0" busy_world
     = (Ok (DeleteSuccess "Document 'notes.txt' deleted successfully" 1 "notes.txt"), w') /\
     collection w' = [] /\ files w' = files busy_world /\
     trace w' = [EvDelete "doc-0"; EvRemove "./uploads/notes.txt"]).
Proof.
  split.
  - apply (proj1 (delete_document_spec "doc-9" sample_world)). reflexivity.
  - destruct (proj2 (delete_document_spec "doc-0" busy_world) sample_chunk [] eq_refl)
      as (w' & Hrun & Hcol & _ & _ & _ & Hfile & _).
    destruct (Hfile ltac:(discriminate) busy_world_file) as (Htr & _ & Hkeep).
    exists w'. split; [exact Hrun |]. split; [exact Hcol |].
    split; [exact (Hkeep busy_world_in_use) | exact Htr].
Defined.

Lemma get_all_documents_spec_witness :
  List.Forall (fun e => doc_total_chunks e = length (doc_chunks e))
              (dl_documents (get_all_documents sample_world)).
Proof.
  apply List.Forall_forall.
  destruct (get_all_documents_spec sample_world) as (_ & _ & _ & _ & _ & _ & Hcount).
  apply Hcount. intros m [<- | []]. reflexivity.
Defined.

Lemma suggest_auto_enrichment_spec_witness :
  suggest_auto_enrichment ["Product details"] "What is sold?" !! 0%nat
  = Some {| missing_topic := "Product details";
            suggested_sources :=
              [ "Search for 'Product details' in academic papers";
                "Look up 'Product details' in industry documentation";
                "Find recent articles about 'Product details'" ];
            search_queries :=
              [ "Product details What is sold?";
                "Product details best practices";
                "Product details latest research" ] |}.
Proof.
  apply (proj2 suggest_auto_enrichment_spec ["Product details"] "What is sold?").
  reflexivity.
Defined.

(** One ingestion, the listing after it, and the deletion that undoes it. *)
Example ingest_list_delete :
  let E := sample_environment [] (Response 200 "") (Ok "Rocq is a proof assistant.")
                              (fun t => [t]) in
  let '(r1, w1) := @process_and_store_document E "./uploads/notes.txt" "notes.txt"
                     empty_world in
  let '(r2, w2) := delete_document "doc-0" w1 in
  r1 = Ok (IngestSuccess "doc-0" "notes.txt" 1) /\
  map chunk_id (collection w1) = ["doc-0_0"] /\
  dl_documents (get_all_documents w1)
  = [ {| doc_document_id := "doc-0"; doc_filename := "notes.txt"; doc_total_chunks := 1;
         doc_file_path := "./uploads/notes.txt"; doc_chunks := [(0, 1)%nat] |} ] /\
  r2 = Ok (DeleteSuccess "Document 'notes.txt' deleted successfully" 1 "notes.txt") /\
  collection w2 = [] /\
  trace w2 = [ EvEncode ["Rocq is a proof assistant."]; EvAdd ["doc-0_0"];
               EvDelete "doc-0" ].
Proof. vm_compute. repeat split. Qed.

(* ================================================================= *)
(** * Further properties of the code *)

(** ** How the confidence follows the distances *)

Section ConfidenceFacts.
Local Open Scope Q_scope.

Lemma round_half_even_range (x : Q) :
  round_half_even x = Qfloor x \/ round_half_even x = (Qfloor x + 1)%Z.
Proof.
  unfold round_half_even.
  destruct (Qcompare (x - inject_Z (Qfloor x)) (1 # 2)); auto.
  destruct (Z.even (Qfloor x)); auto.
Qed.

Lemma round_half_even_mono (x y : Q) :
  x <= y -> (round_half_even x <= round_half_even y)%Z.
Proof.
  intros Hxy.
  pose proof (Qfloor_resp_le _ _ Hxy) as Hf.
  destruct (Z.eq_dec (Qfloor x) (Qfloor y)) as [He | Hne].
  - unfold round_half_even. rewrite <- He.
    destruct (Qcompare_spec (x - inject_Z (Qfloor x)) (1 # 2)) as [Hx | Hx | Hx];
      destruct (Qcompare_spec (y - inject_Z (Qfloor x)) (1 # 2)) as [Hy | Hy | Hy];
      try destruct (Z.even (Qfloor x)); try lia; exfalso; lra.
  - destruct (round_half_even_range x) as [-> | ->],
      (round_half_even_range y) as [-> | ->]; lia.
Qed.

Lemma py_round_mono (x y : Q) (n : nat) : x <= y -> py_round x n <= py_round y n.
Proof.
  intros Hxy. unfold py_round.
  assert (Hk : (round_half_even (x * inject_Z (Z.pos (pow10 n)))
                <= round_half_even (y * inject_Z (Z.pos (pow10 n))))%Z).
  { apply round_half_even_mono. apply Qmult_le_compat_r; [exact Hxy |].
    unfold Qle. cbn. lia. }
  unfold Qle. cbn. nia.
Qed.

Lemma py_clamp_mono (x y : Q) :
  x <= y -> py_max 0 (py_min 1 x) <= py_max 0 (py_min 1 y).
Proof.
  intros Hxy. unfold py_max, py_min.
  repeat (destruct (Qlt_le_dec _ _)); lra.
Qed.

Lemma py_sum_mono_from (ds ds' : list Q) (a a' : Q) :
  Forall2 Qle ds ds' -> a <= a' -> fold_left Qplus ds a <= fold_left Qplus ds' a'.
Proof.
  intros Hds. revert a a'.
  induction Hds as [| d d' ds ds' Hd Hds IH]; intros a a' Ha; cbn; [exact Ha |].
  apply IH. lra.
Qed.

Lemma py_len_pos {A : Type} (x : A) (l : list A) : 0 < py_len (x :: l).
Proof. unfold py_len, Qlt. cbn. lia. Qed.

Lemma Qdiv_le_compat_r (a b c : Q) : 0 < c -> a <= b -> a / c <= b / c.
Proof.
  intros Hc Hab. unfold Qdiv. apply Qmult_le_compat_r; [exact Hab |].
  apply Qlt_le_weak, Qinv_lt_0_compat, Hc.
Qed.

(** X1. Closer hits never lower the confidence: when every distance of one
    retrieval is at most the distance at the same rank of another, its
    confidence is at least the other's. *)
Theorem calculate_confidence_antitone (ds ds' : list Q) :
  Forall2 Qle ds ds' -> _calculate_confidence ds' <= _calculate_confidence ds.
Proof.
  intros Hds. destruct Hds as [| d d' ds ds' Hd Hds]; [cbn; lra |].
  unfold _calculate_confidence. cbn [list_falsy].
  apply py_round_mono, py_clamp_mono.
  assert (Hsum : py_sum (d :: ds) <= py_sum (d' :: ds')).
  { apply py_sum_mono_from; [constructor; assumption | lra]. }
  assert (Hlen : py_len (d' :: ds') = py_len (d :: ds)).
  { unfold py_len. cbn [length]. rewrite (Forall2_length _ _ _ Hds). reflexivity. }
  rewrite Hlen.
  pose proof (Qdiv_le_compat_r _ _ _ (py_len_pos d ds) Hsum) as Hd2.
  assert (Hhalf : py_sum (d :: ds) / py_len (d :: ds) / 2
                  <= py_sum (d' :: ds') / py_len (d :: ds) / 2).
  { apply Qdiv_le_compat_r; [reflexivity | exact Hd2]. }
  set (h := py_sum (d :: ds) / py_len (d :: ds) / 2) in *.
  set (h' := py_sum (d' :: ds') / py_len (d :: ds) / 2) in *.
  clearbody h h'. lra.
Qed.

Lemma calculate_confidence_antitone_witness :
  _calculate_confidence [1; 3 # 2] <= _calculate_confidence [1 # 2; 1].
Proof.
  apply calculate_confidence_antitone.
  repeat constructor; unfold Qle; cbn; lia.
Defined.

Lemma py_sum_lower (ds : list Q) (b a : Q) :
  Forall (fun d => b <= d) ds ->
  a + b * py_len ds <= fold_left Qplus ds a.
Proof.
  intros Hds. revert a.
  induction Hds as [| d ds Hd Hds IH]; intros a; cbn [fold_left].
  - unfold py_len. change (inject_Z (Z.of_nat (length (@nil Q)))) with 0. ring_simplify.
    apply Qle_refl.
  - specialize (IH (a + d)).
    assert (E : py_len (d :: ds) == py_len ds + 1).
    { unfold py_len. cbn [length]. rewrite Nat2Z.inj_succ, <- Z.add_1_r, inject_Z_plus.
      reflexivity. }
    rewrite E. set (n := py_len ds) in *. clearbody n. nra.
Qed.

Lemma py_sum_upper (ds : list Q) (b a : Q) :
  Forall (fun d => d <= b) ds ->
  fold_left Qplus ds a <= a + b * py_len ds.
Proof.
  intros Hds. revert a.
  induction Hds as [| d ds Hd Hds IH]; intros a; cbn [fold_left].
  - unfold py_len. change (inject_Z (Z.of_nat (length (@nil Q)))) with 0. ring_simplify.
    apply Qle_refl.
  - specialize (IH (a + d)).
    assert (E : py_len (d :: ds) == py_len ds + 1).
    { unfold py_len. cbn [length]. rewrite Nat2Z.inj_succ, <- Z.add_1_r, inject_Z_plus.
      reflexivity. }
    rewrite E. set (n := py_len ds) in *. clearbody n. nra.
Qed.

(** X2. The confidence saturates: a non-empty retrieval whose distances are
    all at least 2 has confidence exactly 0, and one whose distances are all
    at most 0 has confidence exactly 1. *)
Theorem calculate_confidence_saturates (d : Q) (ds : list Q) :
  (Forall (fun x => 2 <= x) (d :: ds) -> _calculate_confidence (d :: ds) == 0) /\
  (Forall (fun x => x <= 0) (d :: ds) -> _calculate_confidence (d :: ds) == 1).
Proof.
  pose proof (py_len_pos d ds) as Hpos.
  split; intros Hall.
  - pose proof (py_sum_lower _ 2 0 Hall) as Hs.
    assert (Havg : 2 <= py_sum (d :: ds) / py_len (d :: ds)).
    { apply Qle_shift_div_l; [exact Hpos |]. unfold py_sum. lra. }
    unfold _calculate_confidence. cbn [list_falsy].
    assert (Hhalf : 1 <= py_sum (d :: ds) / py_len (d :: ds) / 2).
    { apply Qle_shift_div_l; [reflexivity | lra]. }
    set (h := py_sum (d :: ds) / py_len (d :: ds) / 2) in *. clearbody h.
    unfold py_max, py_min.
    repeat (destruct (Qlt_le_dec _ _)); try (exfalso; lra); reflexivity.
  - pose proof (py_sum_upper _ 0 0 Hall) as Hs.
    assert (Havg : py_sum (d :: ds) / py_len (d :: ds) <= 0).
    { apply Qle_shift_div_r; [exact Hpos |]. unfold py_sum. lra. }
    unfold _calculate_confidence. cbn [list_falsy].
    assert (Hhalf : py_sum (d :: ds) / py_len (d :: ds) / 2 <= 0).
    { apply Qle_shift_div_r; [reflexivity | lra]. }
    set (h := py_sum (d :: ds) / py_len (d :: ds) / 2) in *. clearbody h.
    unfold py_max, py_min.
    repeat (destruct (Qlt_le_dec _ _)); try (exfalso; lra); reflexivity.
Qed.

Lemma calculate_confidence_saturates_witness :
  _calculate_confidence [2; 5 # 2] == 0 /\ _calculate_confidence [0; - (1 # 4)] == 1.
Proof.
  split.
  - apply (proj1 (calculate_confidence_saturates 2 [5 # 2])).
    repeat constructor; unfold Qle; cbn; lia.
  - apply (proj2 (calculate_confidence_saturates 0 [- (1 # 4)])).
    repeat constructor; unfold Qle; cbn; lia.
Defined.

End ConfidenceFacts.

(* ================================================================= *)
(** ** Search results whose lists differ in length *)

Lemma nth_error_lookup {A : Type} (l : list A) (i : nat) : nth_error l i = l !! i.
Proof. revert i. induction l as [| x l IH]; intros [| i]; cbn; auto. Qed.

Lemma enumerate_from_lookup {A : Type} (l : list A) (k i : nat) (x : A) :
  l !! i = Some x -> enumerate_from k l !! i = Some ((k + i)%nat, x).
Proof.
  revert k i. induction l as [| y l IH]; intros k [| i] Hi; try discriminate.
  - injection Hi as ->. cbn. rewrite Nat.add_0_r. reflexivity.
  - change (enumerate_from (S k) l !! i = Some ((k + S i)%nat, x)).
    change (l !! i = Some x) in Hi.
    rewrite (IH (S k) i Hi). f_equal. f_equal. lia.
Qed.

Lemma enumerate_from_length {A : Type} (l : list A) (k : nat) :
  length (enumerate_from k l) = length l.
Proof. revert k. induction l as [| y l IH]; intros k; cbn; auto. Qed.

Lemma fold_left_append_pairs {A B C : Type} (g : A -> B -> C) (l : list (A * B))
    (init : list C) :
  fold_left (fun acc '(i, m) => acc ++ [g i m]) l init
  = init ++ map (fun p => g (fst p) (snd p)) l.
Proof.
  revert init. induction l as [| [i m] l IH]; intros init; cbn.
  - symmetry. apply app_nil_r.
  - rewrite IH, <- app_assoc. reflexivity.
Qed.

(** The record [_prepare_sources] builds at index [i]. *)
Lemma prepare_sources_as_map (sr : search_results) :
  _prepare_sources sr
  = map (fun p : nat * metadata =>
           {| src_filename := md_filename (snd p);
              src_chunk_index := md_chunk_index (snd p);
              src_total_chunks := md_total_chunks (snd p);
              src_relevance_score :=
                if (fst p <? length (sr_distances sr))%nat
                then py_round (1 - nth (fst p) (sr_distances sr) 0 / 2)%Q 3
                else 0%Q |})
        (enumerate (sr_metadatas sr)).
Proof.
  unfold _prepare_sources.
  apply (fold_left_append_pairs
           (fun i m => {| src_filename := md_filename m;
                          src_chunk_index := md_chunk_index m;
                          src_total_chunks := md_total_chunks m;
                          src_relevance_score :=
                            if (i <? length (sr_distances sr))%nat
                            then py_round (1 - nth i (sr_distances sr) 0 / 2)%Q 3
                            else 0%Q |})
           (enumerate (sr_metadatas sr)) []).
Qed.

(** X3. [_prepare_sources] follows the metadata list alone: it returns one
    record per metadata entry whatever the lengths of the other two lists,
    and an entry whose index has no distance gets the relevance score 0
    instead of an [IndexError]. *)
Theorem prepare_sources_ragged (sr : search_results) :
  length (_prepare_sources sr) = length (sr_metadatas sr) /\
  (forall (i : nat) (m : metadata),
      sr_metadatas sr !! i = Some m ->
      _prepare_sources sr !! i
      = Some {| src_filename := md_filename m;
                src_chunk_index := md_chunk_index m;
                src_total_chunks := md_total_chunks m;
                src_relevance_score :=
                  match sr_distances sr !! i with
                  | Some d => py_round (1 - d / 2)%Q 3
                  | None => 0%Q
                  end |}).
Proof.
  rewrite prepare_sources_as_map. split.
  - rewrite length_map. apply enumerate_from_length.
  - intros i m Hi. rewrite list_lookup_fmap.
    unfold enumerate. rewrite (enumerate_from_lookup _ 0 i m Hi).
    cbn [fmap option_fmap option_map fst snd Nat.add].
    destruct (sr_distances sr !! i) as [d |] eqn:Hd.
    + assert (Hlt : (i < length (sr_distances sr))%nat) by (eapply lookup_lt_Some; eauto).
      apply Nat.ltb_lt in Hlt. rewrite Hlt.
      rewrite (nth_lookup_Some _ _ _ _ Hd). reflexivity.
    + apply lookup_ge_None in Hd. apply Nat.ltb_ge in Hd. rewrite Hd. reflexivity.
Qed.

Lemma prepare_sources_ragged_witness :
  _prepare_sources {| sr_documents := []; sr_metadatas := [sample_metadata];
                      sr_distances := [] |} !! 0%nat
  = Some {| src_filename := "notes.txt"; src_chunk_index := 0; src_total_chunks := 1;
            src_relevance_score := 0%Q |}.
Proof.
  apply (proj2 (prepare_sources_ragged
                  {| sr_documents := []; sr_metadatas := [sample_metadata];
                     sr_distances := [] |}) 0%nat sample_metadata).
  reflexivity.
Defined.

Lemma prepare_context_loop_bounds (metadatas : list metadata) (documents : list string)
    (k : nat) (acc : list string) :
  (k <= length metadatas)%nat ->
  for_each
    (fun context_parts '(i, doc) =>
       metadata ← getitem_list metadatas i;
       mret (context_parts ++ [context_block (md_filename metadata) doc]))
    (enumerate_from k documents) acc
  = if (k + length documents <=? length metadatas)%nat
    then Ok (acc ++ zip_with (fun doc m => context_block (md_filename m) doc)
                             documents (drop k metadatas))
    else Raise (Exn IndexError "list index out of range").
Proof.
  revert k acc. induction documents as [| doc documents IH]; intros k acc Hk.
  - cbn [enumerate_from for_each length zip_with]. rewrite Nat.add_0_r, app_nil_r.
    apply Nat.leb_le in Hk. rewrite Hk. reflexivity.
  - cbn [enumerate_from for_each length].
    unfold getitem_list at 1. rewrite nth_error_lookup.
    destruct (metadatas !! k) as [m |] eqn:Hm.
    + cbn [mbind result_mbind result_bind mret result_ret].
      assert (Hlt : (k < length metadatas)%nat) by (eapply lookup_lt_Some; eauto).
      rewrite IH by lia.
      replace (S k + length documents)%nat with (k + S (length documents))%nat by lia.
      destruct (k + S (length documents) <=? length metadatas)%nat; [| reflexivity].
      rewrite (drop_S _ _ _ Hm). cbn [zip_with]. rewrite <- app_assoc. reflexivity.
    + cbn [mbind result_mbind result_bind].
      apply lookup_ge_None in Hm.
      assert (Hgt : (k + S (length documents) <=? length metadatas)%nat = false)
        by (apply Nat.leb_gt; lia).
      rewrite Hgt. reflexivity.
Qed.

(** X4. [_prepare_context] pairs each document with the metadata at the same
    index: with at least as many metadata entries as documents it returns the
    joined blocks and ignores the surplus metadata; with fewer it raises
    [IndexError], which nothing in [generate_answer] catches. *)
Theorem prepare_context_bounds (sr : search_results) :
  ((length (sr_documents sr) <= length (sr_metadatas sr))%nat ->
   _prepare_context sr
   = Ok (join nl (zip_with (fun doc m => "Document: " +:+ md_filename m +:+ nl
                                         +:+ "Content: " +:+ doc +:+ nl +:+ "---")
                           (sr_documents sr) (sr_metadatas sr)))) /\
  ((length (sr_metadatas sr) < length (sr_documents sr))%nat ->
   _prepare_context sr = Raise (Exn IndexError "list index out of range")).
Proof.
  unfold _prepare_context, enumerate.
  rewrite (prepare_context_loop_bounds _ _ 0 []) by lia.
  cbn [Nat.add drop app]. split; intros Hlen.
  - apply Nat.leb_le in Hlen. rewrite Hlen. reflexivity.
  - apply Nat.leb_gt in Hlen. rewrite Hlen. reflexivity.
Qed.

Lemma prepare_context_bounds_witness :
  _prepare_context {| sr_documents := ["a"; "b"]; sr_metadatas := [sample_metadata];
                      sr_distances := [] |}
  = Raise (Exn IndexError "list index out of range") /\
  _prepare_context {| sr_documents := ["a"]; sr_metadatas := [sample_metadata; sample_metadata];
                      sr_distances := [] |}
  = Ok ("Document: notes.txt" +:+ nl +:+ "Content: a" +:+ nl +:+ "---").
Proof.
  split.
  - apply (proj2 (prepare_context_bounds
                    {| sr_documents := ["a"; "b"]; sr_metadatas := [sample_metadata];
                       sr_distances := [] |})).
    cbn. lia.
  - apply (proj1 (prepare_context_bounds
                    {| sr_documents := ["a"];
                       sr_metadatas := [sample_metadata; sample_metadata];
                       sr_distances := [] |})).
    cbn. lia.
Defined.

(* ================================================================= *)
(** ** What [generate_answer] returns, raises and leaves alone *)

Lemma calculate_confidence_range (ds : list Q) :
  (0 <= _calculate_confidence ds <= 1)%Q.
Proof.
  destruct ds as [| d ds]; [cbn; lra |].
  unfold _calculate_confidence. cbn [list_falsy].
  eapply rounded_unit_interval; [apply clamp_bounds |].
  eapply rounded_to_compat; [apply py_clamp_eq | apply py_round_rounded].
Qed.

Section AnswerFacts.
Context `{Environment}.

Lemma search_documents_world (query : string) (w : world) :
  snd (search_documents query w) = logged (EvEncode [query]) w.
Proof.
  unfold search_documents, model_encode, query_collection, emit. unfold_M.
  destruct (encode [query]) as [embeddings | e]; cbn; [| reflexivity].
  destruct (getitem_list embeddings 0) as [q | e]; cbn; [| reflexivity].
  destruct (collection_query (collection w) q (TOP_K_DOCUMENTS config)) as [o | e]; cbn;
    reflexivity.
Qed.

Lemma call_openai_world (query context : string) (w : world) :
  _call_openai_with_completeness_check query context w
  = (Ok (completion_value query context),
     logged (EvPost (completion_request query context)) w).
Proof.
  unfold _call_openai_with_completeness_check, completion_value, client_post, emit, logged.
  unfold_M. cbn.
  destruct (http_post (completion_request query context)) as [e | status_code text]; cbn;
    [reflexivity |].
  destruct (status_code =? 200)%Z; cbn; [| reflexivity].
  destruct (json_loads text) as [body | e]; cbn; [| reflexivity].
  destruct (message_content body) as [content | e]; cbn; [| reflexivity].
  destruct (json_loads_value content) as [v | e]; cbn; reflexivity.
Qed.

(** The four ways through [generate_answer]. *)
Lemma generate_answer_unfold (query : string) (w : world) :
  generate_answer query w
  = let w1 := logged (EvEncode [query]) w in
    match fst (search_documents query w) with
    | Raise e => (Raise e, w1)
    | Ok sr =>
        if list_falsy (sr_documents sr) then (Ok no_documents_result, w1)
        else
          match _prepare_context sr with
          | Raise e => (Raise e, w1)
          | Ok context =>
              (let response := completion_value query context in
               answer ← method_get response "answer" (JStr "");
               missing_info ← method_get response "missing_info" (JList []);
               enrichment_suggestions ←
                 method_get response "enrichment_suggestions" (JList []);
               mret {| qr_answer := answer;
                       qr_confidence := _calculate_confidence (sr_distances sr);
                       qr_missing_info := missing_info;
                       qr_enrichment_suggestions := enrichment_suggestions;
                       qr_sources := _prepare_sources sr |},
               logged (EvPost (completion_request query context)) w1)
          end
    end.
Proof.
  cbv zeta. rewrite <- search_documents_world.
  unfold generate_answer. unfold_M.
  destruct (search_documents query w) as [[sr | e] w1]; cbn [fst snd]; [| reflexivity].
  destruct (list_falsy (sr_documents sr)); [reflexivity |].
  destruct (_prepare_context sr) as [context | e]; [| reflexivity].
  rewrite call_openai_world.
  destruct (method_get (completion_value query context) "answer" (JStr "")); cbn;
    [| reflexivity].
  destruct (method_get (completion_value query context) "missing_info" (JList [])); cbn;
    [| reflexivity].
  destruct (method_get (completion_value query context) "enrichment_suggestions" (JList []));
    cbn; reflexivity.
Qed.

(** X5. Every Query Result [generate_answer] returns has a confidence within
    [0, 1]. After an empty retrieval it is the fixed result; otherwise its
    confidence and its sources are computed from the retrieval alone, whatever
    the completion answered, with one source record per retrieved metadata
    entry. *)
Theorem generate_answer_result_invariants (query : string) (w w' : world)
    (qr : query_result) :
  generate_answer query w = (Ok qr, w') ->
  (0 <= qr_confidence qr <= 1)%Q /\
  exists sr : search_results,
    fst (search_documents query w) = Ok sr /\
    (sr_documents sr = [] -> qr = no_documents_result) /\
    (sr_documents sr <> [] ->
     qr_confidence qr = _calculate_confidence (sr_distances sr) /\
     qr_sources qr = _prepare_sources sr /\
     length (qr_sources qr) = length (sr_metadatas sr)).
Proof.
  rewrite generate_answer_unfold. cbv zeta.
  destruct (fst (search_documents query w)) as [sr | e]; [| discriminate].
  destruct (sr_documents sr) as [| doc docs] eqn:Hdocs; cbn [list_falsy].
  - intros [= <- <-]. split; [cbn; lra |].
    exists sr. split; [reflexivity |]. rewrite Hdocs. split; [reflexivity | congruence].
  - destruct (_prepare_context sr) as [context | e]; [| discriminate].
    cbv zeta.
    destruct (method_get (completion_value query context) "answer" (JStr ""));
      [| discriminate].
    destruct (method_get (completion_value query context) "missing_info" (JList []));
      [| discriminate].
    destruct (method_get (completion_value query context) "enrichment_suggestions"
                (JList [])); [| discriminate].
    intros [= <- <-].
    cbn [qr_confidence qr_sources mbind result_mbind result_bind mret result_ret].
    split; [apply calculate_confidence_range |].
    exists sr. split; [reflexivity |]. rewrite Hdocs. split; [discriminate |].
    intros _. split; [reflexivity |]. split; [reflexivity |].
    apply prepare_sources_ragged.
Qed.

(** X6. [generate_answer] reads and never writes: in every case, returning
    or raising, the store, the disk and the identifier supply are as before,
    and the log gains the embedding of the query followed by at most one
    completion request (a failed completion is not retried). *)
Theorem generate_answer_frame (query : string) (w : world) :
  let w' := snd (generate_answer query w) in
  collection w' = collection w /\ files w' = files w /\ in_use w' = in_use w /\
  uuids_drawn w' = uuids_drawn w /\
  (trace w' = trace w ++ [EvEncode [query]] \/
   exists context,
     trace w' = trace w ++ [EvEncode [query]; EvPost (completion_request query context)]).
Proof.
  cbv zeta. rewrite generate_answer_unfold. cbv zeta.
  destruct (fst (search_documents query w)) as [sr | e]; cbn [snd];
    [| repeat split; left; reflexivity].
  destruct (list_falsy (sr_documents sr)); cbn [snd];
    [repeat split; left; reflexivity |].
  destruct (_prepare_context sr) as [context | e]; cbn [snd];
    [| repeat split; left; reflexivity].
  repeat split. right. exists context. cbn. rewrite <- app_assoc. reflexivity.
Qed.

(** X7. A retrieval that fails is not absorbed: when the embedding model
    raises, returns no embedding, or the store's query raises,
    [generate_answer] raises that exception, and no completion request is
    made. *)
Theorem generate_answer_retrieval_failure (query : string) (w : world) :
  (forall e, encode [query] = Raise e ->
             generate_answer query w = (Raise e, logged (EvEncode [query]) w)) /\
  (encode [query] = Ok [] ->
   generate_answer query w
   = (Raise (Exn IndexError "list index out of range"), logged (EvEncode [query]) w)) /\
  (forall v vs e,
     encode [query] = Ok (v :: vs) ->
     collection_query (collection w) v (TOP_K_DOCUMENTS config) = Raise e ->
     generate_answer query w = (Raise e, logged (EvEncode [query]) w)) /\
  posts (trace (logged (EvEncode [query]) w)) = posts (trace w).
Proof.
  assert (Hfst : forall r,
             fst (search_documents query w) = Raise r ->
             generate_answer query w = (Raise r, logged (EvEncode [query]) w)).
  { intros r Hr. rewrite generate_answer_unfold. cbv zeta. rewrite Hr. reflexivity. }
  split; [| split; [| split]].
  - intros e He. apply Hfst.
    unfold search_documents, model_encode, emit. unfold_M. rewrite He. reflexivity.
  - intros He. apply Hfst.
    unfold search_documents, model_encode, emit. unfold_M. rewrite He. reflexivity.
  - intros v vs e He Hq. apply Hfst.
    unfold search_documents, model_encode, query_collection, emit. unfold_M.
    rewrite He. cbn. rewrite Hq. reflexivity.
  - cbn. rewrite posts_app. cbn. apply app_nil_r.
Qed.

(** X9. The completion step absorbs every failure: whatever the endpoint
    does, [_call_openai_with_completeness_check] returns a value, posts
    exactly one request and changes nothing else. *)
Theorem call_openai_never_raises (query context : string) (w : world) :
  exists v : json,
    _call_openai_with_completeness_check query context w
    = (Ok v, logged (EvPost (completion_request query context)) w) /\
    ((forall e, http_post (completion_request query context) = PostRaises e ->
                v = system_error e) /\
     (forall status_code text,
        http_post (completion_request query context) = Response status_code text ->
        status_code <> 200%Z -> v = api_call_failed status_code text)).
Proof.
  exists (completion_value query context). split; [apply call_openai_world |].
  unfold completion_value. split.
  - intros e ->. reflexivity.
  - intros status_code text -> Hcode. apply Z.eqb_neq in Hcode. rewrite Hcode. reflexivity.
Qed.

End AnswerFacts.

Lemma generate_answer_result_invariants_witness :
  (0 <= _calculate_confidence [(1 # 2)%Q] <= 1)%Q.
Proof.
  apply (@generate_answer_result_invariants object_environment "What is Rocq?"
           sample_world
           (logged (EvPost (@completion_request object_environment "What is Rocq?"
                              sample_context))
                   (logged (EvEncode ["What is Rocq?"]) sample_world))
           {| qr_answer := JStr ""; qr_confidence := _calculate_confidence [(1 # 2)%Q];
              qr_missing_info := JList []; qr_enrichment_suggestions := JList [];
              qr_sources := _prepare_sources sample_results |}).
  reflexivity.
Defined.

Lemma generate_answer_retrieval_failure_witness :
  @generate_answer broken_encoder_environment "What is Rocq?" sample_world
  = (Raise (Exn RuntimeError "model not loaded"),
     logged (EvEncode ["What is Rocq?"]) sample_world).
Proof.
  apply (proj1 (@generate_answer_retrieval_failure broken_encoder_environment
                  "What is Rocq?" sample_world)).
  reflexivity.
Defined.

Lemma generate_answer_degrades_witness :
  let E := sample_environment [] (Response 500 "Internal Server Error") (Ok "")
                              (fun _ => []) in
  exists w2 qr,
    @generate_answer E "What is Rocq?" sample_world = (Ok qr, w2) /\
    qr_answer qr = JStr "Error calling OpenAI API: 500 - Internal Server Error" /\
    qr_missing_info qr = JList [JStr "API call failed"].
Proof.
  intros E.
  destruct (@generate_answer_degrades E "What is Rocq?" sample_world
              (logged (EvEncode ["What is Rocq?"]) sample_world)
              sample_results sample_context) as (_ & Hstatus & _);
    [reflexivity | discriminate | reflexivity |].
  apply (Hstatus 500%Z "Internal Server Error"); [reflexivity | discriminate].
Defined.

(* ================================================================= *)
(** ** The store under ingestion, listing and deletion *)

(** An entry is listed exactly when it is the entry of its document. *)
Lemma listing_In_iff (w : world) (e : document_entry) :
  In e (dl_documents (get_all_documents w))
  <-> entry_of (doc_document_id e) (map chunk_metadata (collection w)) = Some e.
Proof.
  set (ms := map chunk_metadata (collection w)).
  pose (docs := fold_left group_step ms []).
  assert (Hg : grouped ms docs) by exact (fold_group_step_grouped ms [] [] grouped_nil).
  destruct Hg as [Hkeys Hentry Hall].
  assert (Hperm : Permutation (dl_documents (get_all_documents w)) (map snd docs))
    by apply sort_by_filename_perm.
  split.
  - intros He. apply (Permutation_in _ Hperm) in He.
    apply in_map_iff in He as ([k e'] & <- & Hd). cbn.
    pose proof (Hentry k e' Hd) as Hk.
    destruct (entry_of_Some _ _ _ Hk) as [-> _]. exact Hk.
  - intros He. destruct (entry_of_Some _ _ _ He) as (_ & _ & m0 & Hm0 & Hid & _).
    pose proof (Hall m0 Hm0) as Hkey. rewrite Hid in Hkey.
    apply in_map_iff in Hkey as ([k e'] & Hk & Hd). cbn in Hk. subst k.
    pose proof (Hentry _ _ Hd) as He'.
    assert (e' = e) as -> by congruence.
    apply (Permutation_in _ (Permutation_sym Hperm)).
    apply in_map_iff. exists (doc_document_id e, e). split; [reflexivity | exact Hd].
Qed.

(** The run of a deletion. *)
Lemma delete_document_run (document_id : string) (w : world) :
  delete_document document_id w
  = match document_chunks document_id (collection w) with
    | [] => (Ok (DeleteError "Document not found"), w)
    | c :: cs =>
        let filename := md_filename (chunk_metadata c) in
        let file_path := default "" (md_file_path (chunk_metadata c)) in
        let w1 := set_collection
                    (List.filter (fun c => negb (of_document document_id c)) (collection w))
                    (logged (EvDelete document_id) w) in
        (Ok (DeleteSuccess ("Document '" +:+ filename +:+ "' deleted successfully")
                           (S (length cs)) filename),
         if str_falsy file_path then w1
         else if bool_decide (file_path ∈ files w)
              then if bool_decide (file_path ∈ in_use w)
                   then logged (EvRemove file_path) w1
                   else set_files (files w ∖ {[file_path]}) (logged (EvRemove file_path) w1)
              else w1)
    end.
Proof.
  unfold document_chunks.
  unfold delete_document, collection_get_where, collection_delete_where,
    delete_from_collection, os_path_exists, os_remove, unlink, try_except_OSError, emit.
  unfold_M.
  destruct (List.filter (of_document document_id) (collection w)) as [| c cs] eqn:Hsome;
    [reflexivity |].
  cbn [map list_falsy length]. rewrite length_map. cbv zeta.
  destruct (str_falsy (default "" (md_file_path (chunk_metadata c)))); [reflexivity |].
  unfold set_collection, set_files, logged.
  cbn [collection files in_use uuids_drawn trace].
  destruct (bool_decide (default "" (md_file_path (chunk_metadata c)) ∈ files w)) eqn:Hex;
    [| reflexivity].
  cbn [andb collection files in_use uuids_drawn trace]. rewrite Hex.
  destruct (bool_decide (default "" (md_file_path (chunk_metadata c)) ∈ in_use w));
    reflexivity.
Qed.

Lemma delete_document_collection (document_id : string) (w : world) :
  collection (snd (delete_document document_id w))
  = List.filter (fun c => negb (of_document document_id c)) (collection w).
Proof.
  rewrite delete_document_run. unfold document_chunks.
  destruct (List.filter (of_document document_id) (collection w)) as [| c cs] eqn:Hsome.
  - cbn [snd]. symmetry. apply forallb_filter_id.
    apply forallb_forall. intros c Hc.
    destruct (of_document document_id c) eqn:Hd; [| reflexivity].
    exfalso. assert (Hin : In c (List.filter (of_document document_id) (collection w)))
      by (apply filter_In; auto).
    rewrite Hsome in Hin. destruct Hin.
  - cbv zeta. cbn [snd].
    repeat (match goal with |- context [if ?b then _ else _] => destruct b end);
      reflexivity.
Qed.

(** The batch of an ingestion. *)
Lemma build_chunks_metadatas (ids documents : list string) (embeddings : list (list Q))
    (metadatas : list metadata) :
  length documents = length ids -> length embeddings = length ids ->
  length metadatas = length ids ->
  map chunk_metadata (build_chunks ids documents embeddings metadatas) = metadatas.
Proof.
  revert documents embeddings metadatas.
  induction ids as [| i ids IH]; intros [| d ds] [| e es] [| m ms]; cbn; try discriminate;
    try reflexivity.
  intros [= Hd] [= He] [= Hm]. rewrite IH; auto.
Qed.

Lemma build_chunks_Forall (P : string -> metadata -> Prop) (ids documents : list string)
    (embeddings : list (list Q)) (metadatas : list metadata) :
  Forall2 P ids metadatas ->
  List.Forall (fun c => P (chunk_id c) (chunk_metadata c))
              (build_chunks ids documents embeddings metadatas).
Proof.
  intros HP. revert documents embeddings.
  induction HP as [| i m ids ms Him HP IH]; intros documents embeddings.
  - destruct documents, embeddings; constructor.
  - destruct documents as [| d ds], embeddings as [| e es]; cbn; try constructor.
    + exact Him.
    + apply IH.
Qed.

Lemma Forall2_map_same {A B C : Type} (P : B -> C -> Prop) (f : A -> B) (g : A -> C)
    (l : list A) :
  (forall x, P (f x) (g x)) -> Forall2 P (map f l) (map g l).
Proof. intros HP. induction l as [| x l IH]; cbn; constructor; auto. Qed.

Section BatchFacts.
Variables (document_id filename file_path : string).
Variables (chunks : list string) (embeddings : list (list Q)).
Hypothesis Hlen : length embeddings = length chunks.

Let batch := ingested_chunks document_id filename file_path chunks embeddings.

Lemma batch_metadatas :
  map chunk_metadata batch
  = map (fun i => {| md_document_id := document_id; md_filename := filename;
                     md_chunk_index := i; md_total_chunks := length chunks;
                     md_file_path := Some file_path |})
        (seq 0 (length chunks)).
Proof.
  unfold batch, ingested_chunks. apply build_chunks_metadatas.
  - unfold chunk_ids_of. rewrite length_map, length_seq. reflexivity.
  - unfold chunk_ids_of. rewrite length_map, length_seq. exact Hlen.
  - unfold chunk_ids_of. rewrite !length_map, !length_seq. reflexivity.
Qed.

Lemma batch_length : length batch = length chunks.
Proof.
  rewrite <- (length_map chunk_metadata), batch_metadatas, length_map, length_seq.
  reflexivity.
Qed.

Lemma batch_chunks :
  List.Forall
    (fun c => chunk_id c = document_id +:+ "_"
                           +:+ str_of_nat (md_chunk_index (chunk_metadata c)) /\
              md_document_id (chunk_metadata c) = document_id /\
              md_filename (chunk_metadata c) = filename /\
              md_total_chunks (chunk_metadata c) = length chunks /\
              md_file_path (chunk_metadata c) = Some file_path)
    batch.
Proof.
  unfold batch, ingested_chunks, chunk_ids_of.
  apply (build_chunks_Forall
           (fun i m => i = document_id +:+ "_" +:+ str_of_nat (md_chunk_index m) /\
                       md_document_id m = document_id /\ md_filename m = filename /\
                       md_total_chunks m = length chunks /\
                       md_file_path m = Some file_path)).
  apply Forall2_map_same. intros i. cbn. repeat split.
Qed.

Lemma batch_indices :
  map (fun c => md_chunk_index (chunk_metadata c)) batch = seq 0 (length chunks).
Proof.
  rewrite <- (map_map chunk_metadata md_chunk_index), batch_metadatas, map_map.
  cbn. apply map_id.
Qed.

Lemma batch_of_document : List.filter (of_document document_id) batch = batch.
Proof.
  apply forallb_filter_id. apply forallb_forall. intros c Hc.
  pose proof batch_chunks as Hb. rewrite List.Forall_forall in Hb.
  destruct (Hb c Hc) as (_ & Hid & _). unfold of_document. rewrite Hid.
  apply String.eqb_refl.
Qed.

Lemma batch_of_other (other : string) :
  other <> document_id -> List.filter (of_document other) batch = [].
Proof.
  intros Hne. destruct (List.filter (of_document other) batch) as [| c cs] eqn:E;
    [reflexivity |].
  exfalso. assert (Hin : In c (List.filter (of_document other) batch))
    by (rewrite E; left; reflexivity).
  apply filter_In in Hin as [Hin Hc].
  pose proof batch_chunks as Hb. rewrite List.Forall_forall in Hb.
  destruct (Hb c Hin) as (_ & Hid & _). unfold of_document in Hc.
  apply String.eqb_eq in Hc. congruence.
Qed.

End BatchFacts.

Lemma fresh_document_none (document_id : string) (store : list chunk) :
  fresh_document document_id store -> List.filter (of_document document_id) store = [].
Proof.
  intros Hfresh. destruct (List.filter (of_document document_id) store) as [| c cs] eqn:E;
    [reflexivity |].
  exfalso. assert (Hin : In c (List.filter (of_document document_id) store))
    by (rewrite E; left; reflexivity).
  apply filter_In in Hin as [Hin Hc]. unfold of_document in Hc.
  apply String.eqb_eq in Hc. exact (Hfresh c Hin Hc).
Qed.

Lemma fresh_document_keep (document_id : string) (store : list chunk) :
  fresh_document document_id store ->
  List.filter (fun c => negb (of_document document_id c)) store = store.
Proof.
  intros Hfresh. apply forallb_filter_id. apply forallb_forall. intros c Hc.
  unfold of_document. destruct (String.eqb_spec (md_document_id (chunk_metadata c)) document_id);
    [exfalso; eapply Hfresh; eauto | reflexivity].
Qed.

(** Chunk ids do not collide across documents: the index after the last
    underscore is made of digits. *)
Lemma has_underscore_app (s t : string) :
  has_underscore (s +:+ "_" +:+ t) = true.
Proof.
  induction s as [| c s IH]; [reflexivity |].
  change (Ascii.eqb c "_"%char || has_underscore (s +:+ "_" +:+ t) = true).
  rewrite IH. apply Bool.orb_true_r.
Qed.

Lemma string_of_uint_no_underscore (d : Decimal.uint) :
  has_underscore (NilEmpty.string_of_uint d) = false.
Proof. induction d; cbn; auto. Qed.

Lemma str_of_nat_no_underscore (n : nat) : has_underscore (str_of_nat n) = false.
Proof.
  unfold str_of_nat, NilZero.string_of_uint.
  destruct (Nat.to_uint n); try apply string_of_uint_no_underscore. reflexivity.
Qed.

Lemma last_underscore_inj (s1 s2 t1 t2 : string) :
  has_underscore t1 = false -> has_underscore t2 = false ->
  s1 +:+ "_" +:+ t1 = s2 +:+ "_" +:+ t2 -> s1 = s2.
Proof.
  intros H1 H2. revert s2.
  induction s1 as [| c s1 IH]; intros [| c2 s2] E.
  - reflexivity.
  - exfalso. change (String "_" t1 = String c2 (s2 +:+ "_" +:+ t2)) in E.
    injection E as _ E. rewrite E, has_underscore_app in H1. discriminate.
  - exfalso. change (String c (s1 +:+ "_" +:+ t1) = String "_" t2) in E.
    injection E as _ E. rewrite <- E, has_underscore_app in H2. discriminate.
  - change (String c (s1 +:+ "_" +:+ t1) = String c2 (s2 +:+ "_" +:+ t2)) in E.
    injection E as -> E. f_equal. apply IH, E.
Qed.

Lemma well_formed_fresh_ids (store : list chunk) (document_id : string) (n : nat) :
  well_formed store -> fresh_document document_id store ->
  forall c, In c store -> ~ In (chunk_id c) (chunk_ids_of document_id n).
Proof.
  intros [Hwf _] Hfresh c Hc Hin.
  destruct (Hwf c Hc) as [Hid _].
  unfold chunk_ids_of in Hin. apply in_map_iff in Hin as (i & Hi & _).
  rewrite Hid in Hi.
  apply last_underscore_inj in Hi; try apply str_of_nat_no_underscore.
  exact (Hfresh c Hc (eq_sym Hi)).
Qed.

Lemma well_formed_nil : well_formed [].
Proof. split; [intros c [] | intros id; reflexivity]. Qed.

Lemma well_formed_ingest (store : list chunk) (document_id filename file_path : string)
    (chunks : list string) (embeddings : list (list Q)) :
  length embeddings = length chunks ->
  well_formed store -> fresh_document document_id store ->
  well_formed (store ++ ingested_chunks document_id filename file_path chunks embeddings).
Proof.
  intros Hlen [Hwf Hidx] Hfresh.
  pose proof (batch_chunks document_id filename file_path chunks embeddings) as Hb.
  rewrite List.Forall_forall in Hb.
  pose proof (batch_length document_id filename file_path chunks embeddings Hlen) as Hbl.
  pose proof (batch_indices document_id filename file_path chunks embeddings Hlen) as Hbi.
  pose proof (batch_of_document document_id filename file_path chunks embeddings) as Hbd.
  pose proof (batch_of_other document_id filename file_path chunks embeddings) as Hbo.
  remember (ingested_chunks document_id filename file_path chunks embeddings) as batch
    eqn:Ebatch.
  assert (Hnew : document_chunks document_id (store ++ batch) = batch).
  { unfold document_chunks. rewrite List.filter_app.
    rewrite fresh_document_none by exact Hfresh. exact Hbd. }
  assert (Hold : forall other, other <> document_id ->
                   document_chunks other (store ++ batch) = document_chunks other store).
  { intros other Hne. unfold document_chunks.
    rewrite List.filter_app, (Hbo other Hne). apply app_nil_r. }
  split.
  - intros c Hc. apply in_app_or in Hc as [Hc | Hc].
    + destruct (Hwf c Hc) as [Hid Htot]. split; [exact Hid |].
      rewrite Hold by (apply Hfresh, Hc). exact Htot.
    + destruct (Hb c Hc) as (Hid & Hdoc & _ & Htot & _).
      rewrite Hdoc. split; [exact Hid |].
      rewrite Hnew, Htot. symmetry. exact Hbl.
  - intros other. destruct (String.eqb_spec other document_id) as [-> | Hne].
    + rewrite Hnew, Hbl. exact Hbi.
    + rewrite Hold by exact Hne. apply Hidx.
Qed.

Lemma well_formed_delete (store : list chunk) (document_id : string) :
  well_formed store ->
  well_formed (List.filter (fun c => negb (of_document document_id c)) store).
Proof.
  intros [Hwf Hidx]. split.
  - intros c Hc. apply filter_In in Hc as [Hc Hkeep].
    destruct (Hwf c Hc) as [Hid Htot]. split; [exact Hid |].
    unfold document_chunks. rewrite filter_other_documents; [exact Htot |].
    intros Heq. unfold of_document in Hkeep. rewrite Heq, String.eqb_refl in Hkeep.
    discriminate.
  - intros other. unfold document_chunks.
    destruct (String.eqb_spec other document_id) as [-> | Hne].
    + rewrite filter_of_document_gone. reflexivity.
    + rewrite filter_other_documents by exact Hne. apply Hidx.
Qed.

Lemma filter_metadata_of (document_id : string) (store : list chunk) :
  List.filter (metadata_of document_id) (map chunk_metadata store)
  = map chunk_metadata (document_chunks document_id store).
Proof.
  unfold document_chunks. induction store as [| c store IH]; [reflexivity |].
  cbn [map List.filter]. unfold metadata_of at 1, of_document at 1.
  destruct (String.eqb (md_document_id (chunk_metadata c)) document_id); cbn [map];
    rewrite IH; reflexivity.
Qed.

(** In a well-formed store the listing shows, for every document, the chunk
    indices 0 .. total_chunks - 1. *)
Lemma well_formed_listing (w : world) (e : document_entry) :
  well_formed (collection w) ->
  In e (dl_documents (get_all_documents w)) ->
  doc_chunks e
  = map (fun i => (i, doc_total_chunks e)) (seq 0 (doc_total_chunks e)).
Proof.
  intros [Hwf Hidx] He. apply listing_In_iff in He.
  destruct (entry_of_Some _ _ _ He) as (_ & Hchunks & m0 & Hm0 & Hid & _ & Htot & _).
  set (k := doc_document_id e) in *.
  rewrite filter_metadata_of in Hchunks.
  apply in_map_iff in Hm0 as (c0 & Hc0 & Hin0).
  destruct (Hwf c0 Hin0) as [_ Htot0]. rewrite Hc0, Hid in Htot0.
  rewrite Htot, Htot0, Hchunks, <- (Hidx k), !map_map.
  apply map_ext_in. intros c Hc. cbn.
  apply filter_In in Hc as [Hc Hk]. unfold of_document in Hk. apply String.eqb_eq in Hk.
  destruct (Hwf c Hc) as [_ Htotc]. rewrite Hk in Htotc. rewrite Htotc. reflexivity.
Qed.

Section StoreFacts.
Context `{Environment}.

(** What an ingestion leaves behind. *)
Lemma ingest_outcome (file_path filename : string) (w w' : world)
    (r : result ingest_result) :
  process_and_store_document file_path filename w = (r, w') ->
  (exists error,
     r = Ok (IngestError filename error) /\ collection w' = collection w /\
     files w' = files w /\ in_use w' = in_use w) \/
  (exists chunks embeddings,
     chunks <> [] /\ length embeddings = length chunks /\
     r = Ok (IngestSuccess (uuid4 (uuids_drawn w)) filename (length chunks)) /\
     collection w'
     = store_add (ingested_chunks (uuid4 (uuids_drawn w)) filename file_path
                                  chunks embeddings)
                 (collection w) /\
     files w' = files w /\ in_use w' = in_use w).
Proof.
  destruct (extract_text_frame file_path w) as [rx Hx].
  rewrite (process_and_store_document_run _ _ _ _ Hx).
  destruct rx as [text | e]; [| intros [= <- <-]; left; eauto].
  destruct (str_falsy (py_strip text)); [intros [= <- <-]; left; eauto |].
  destruct (split_text text) as [chunks | e]; [| intros [= <- <-]; left; eauto].
  destruct chunks as [| ch chunks]; [intros [= <- <-]; left; eauto |].
  destruct (encode (ch :: chunks)) as [embeddings | e];
    [| intros [= <- <-]; left; eexists; repeat split].
  cbv zeta.
  destruct (length embeddings =? length (ch :: chunks))%nat eqn:Hlen;
    [| intros [= <- <-]; left; eexists; repeat split].
  apply Nat.eqb_eq in Hlen.
  intros [= <- <-]. right. exists (ch :: chunks), embeddings.
  repeat split; [discriminate | exact Hlen].
Qed.

Lemma ingest_appends (file_path filename document_id : string) (n : nat) (w w' : world) :
  well_formed (collection w) ->
  fresh_document (uuid4 (uuids_drawn w)) (collection w) ->
  process_and_store_document file_path filename w
  = (Ok (IngestSuccess document_id filename n), w') ->
  exists chunks embeddings,
    chunks <> [] /\ length embeddings = length chunks /\ n = length chunks /\
    document_id = uuid4 (uuids_drawn w) /\
    collection w'
    = collection w ++ ingested_chunks document_id filename file_path chunks embeddings.
Proof.
  intros Hwf Hfresh Hrun.
  destruct (ingest_outcome _ _ _ _ _ Hrun)
    as [(error & Hr & _) | (chunks & embeddings & Hne & Hlen & Hr & Hcol & _)];
    [discriminate |].
  injection Hr as -> ->.
  exists chunks, embeddings. repeat split; try assumption.
  rewrite Hcol. apply store_add_fresh.
  - rewrite (ingested_chunks_ids _ _ _ _ _ Hlen). apply chunk_ids_NoDup.
  - rewrite (ingested_chunks_ids _ _ _ _ _ Hlen).
    apply well_formed_fresh_ids; assumption.
Qed.

Lemma generate_answer_collection (query : string) (w : world) :
  collection (snd (generate_answer query w)) = collection w.
Proof.
  rewrite generate_answer_unfold. cbv zeta.
  destruct (fst (search_documents query w)) as [sr | e]; cbn [snd]; [| reflexivity].
  destruct (list_falsy (sr_documents sr)); cbn [snd]; [reflexivity |].
  destruct (_prepare_context sr) as [context | e]; reflexivity.
Qed.

Lemma reachable_well_formed (w : world) : reachable w -> well_formed (collection w).
Proof.
  induction 1 as [w Hnil | w w' fp fn r _ IH Hfresh Hrun | w w' id r _ IH Hrun
                 | w w' q r _ IH Hrun].
  - rewrite Hnil. apply well_formed_nil.
  - destruct r as [[document_id filename n | filename error] | e].
    + pose proof Hrun as Hrun'.
      destruct (ingest_outcome _ _ _ _ _ Hrun)
        as [(error & Hr & _) | (chunks & embeddings & _ & _ & Hr & _)]; [discriminate |].
      injection Hr as -> -> ->.
      destruct (ingest_appends _ _ _ _ _ _ IH Hfresh Hrun')
        as (chunks' & embeddings' & _ & Hlen & _ & _ & ->).
      apply well_formed_ingest; assumption.
    + destruct (ingest_outcome _ _ _ _ _ Hrun)
        as [(error' & _ & -> & _) | (chunks & embeddings & _ & _ & Hr & _)];
        [exact IH | discriminate].
    + destruct (ingest_outcome _ _ _ _ _ Hrun)
        as [(error' & Hr & _) | (chunks & embeddings & _ & _ & Hr & _)]; discriminate.
  - assert (E : collection w' = collection (snd (delete_document id w)))
      by (rewrite Hrun; reflexivity).
    rewrite E, delete_document_collection. apply well_formed_delete, IH.
  - assert (E : collection w' = collection (snd (generate_answer q w)))
      by (rewrite Hrun; reflexivity).
    rewrite E, generate_answer_collection. exact IH.
Qed.

End StoreFacts.

Lemma entry_of_app_l_nil (k : string) (ms1 ms2 : list metadata) :
  List.filter (metadata_of k) ms1 = [] -> entry_of k (ms1 ++ ms2) = entry_of k ms2.
Proof. intros E. unfold entry_of. rewrite List.filter_app, E. reflexivity. Qed.

Lemma entry_of_app_r_nil (k : string) (ms1 ms2 : list metadata) :
  List.filter (metadata_of k) ms2 = [] -> entry_of k (ms1 ++ ms2) = entry_of k ms1.
Proof. intros E. unfold entry_of. rewrite List.filter_app, E, app_nil_r. reflexivity. Qed.

Lemma listing_NoDup (w : world) : List.NoDup (dl_documents (get_all_documents w)).
Proof.
  set (ms := map chunk_metadata (collection w)).
  pose (docs := fold_left group_step ms []).
  assert (Hg : grouped ms docs) by exact (fold_group_step_grouped ms [] [] grouped_nil).
  destruct Hg as [Hkeys Hentry _].
  assert (Hperm : Permutation (dl_documents (get_all_documents w)) (map snd docs))
    by apply sort_by_filename_perm.
  apply (NoDup_map_inv doc_document_id).
  apply (Permutation_NoDup (l := map doc_document_id (map snd docs))).
  - apply Permutation_map. symmetry. exact Hperm.
  - rewrite (grouped_ids ms docs Hentry). exact Hkeys.
Qed.

Section StoreTheorems.
Context `{Environment}.

(** X10. A failing step of an ingestion is reported, never raised: an
    unsupported extension, a reader, chunker or embedding model that raises
    each give an error result carrying the message of the exception, and the
    store and the disk stay as they were. *)
Theorem process_and_store_document_errors (file_path filename : string) (w : world) :
  let ext := path_suffix_lower file_path in
  (ext <> ".pdf" -> ext <> ".docx" -> ext <> ".txt" -> ext <> ".md" ->
   process_and_store_document file_path filename w
   = (Ok (IngestError filename ("Unsupported file type: " +:+ ext)), w)) /\
  (forall e,
     extract_text_from_file file_path w = (Raise e, w) ->
     process_and_store_document file_path filename w
     = (Ok (IngestError filename (exn_str e)), w)) /\
  (forall text e,
     extract_text_from_file file_path w = (Ok text, w) ->
     py_strip text <> "" ->
     split_text text = Raise e ->
     process_and_store_document file_path filename w
     = (Ok (IngestError filename (exn_str e)), w)) /\
  (forall text ch chunks e,
     extract_text_from_file file_path w = (Ok text, w) ->
     py_strip text <> "" ->
     split_text text = Ok (ch :: chunks) ->
     encode (ch :: chunks) = Raise e ->
     process_and_store_document file_path filename w
     = (Ok (IngestError filename (exn_str e)), logged (EvEncode (ch :: chunks)) w)).
Proof.
  cbv zeta. split; [| split; [| split]].
  - intros Hpdf Hdocx Htxt Hmd.
    assert (Hx : extract_text_from_file file_path w
                 = (Raise (Exn ValueError ("Unsupported file type: "
                                           +:+ path_suffix_lower file_path)), w)).
    { unfold extract_text_from_file. unfold_M.
      apply String.eqb_neq in Hpdf, Hdocx, Htxt, Hmd.
      rewrite Hpdf, Hdocx, Htxt, Hmd. reflexivity. }
    rewrite (process_and_store_document_run _ _ _ _ Hx). reflexivity.
  - intros e Hx. rewrite (process_and_store_document_run _ _ _ _ Hx). reflexivity.
  - intros text e Hx Hblank Hsplit.
    rewrite (process_and_store_document_run _ _ _ _ Hx), Hsplit.
    destruct (py_strip text); [congruence | reflexivity].
  - intros text ch chunks e Hx Hblank Hsplit Henc.
    rewrite (process_and_store_document_run _ _ _ _ Hx), Hsplit. cbv zeta. rewrite Henc.
    destruct (py_strip text); [congruence | reflexivity].
Qed.

(** X11. After a successful ingestion into a store the service has built,
    the listing shows the new document under the identifier returned, with
    its filename, path, chunk count and the chunk indices 0 .. count - 1; the
    entries of the other documents are as before, the number of documents
    grows by one and the number of chunks by the chunk count. *)
Theorem ingest_then_list (file_path filename document_id : string) (n : nat)
    (w w' : world) :
  reachable w ->
  fresh_document (uuid4 (uuids_drawn w)) (collection w) ->
  process_and_store_document file_path filename w
  = (Ok (IngestSuccess document_id filename n), w') ->
  In {| doc_document_id := document_id; doc_filename := filename;
        doc_total_chunks := n; doc_file_path := file_path;
        doc_chunks := map (fun i => (i, n)) (seq 0 n) |}
     (dl_documents (get_all_documents w')) /\
  (forall e, doc_document_id e <> document_id ->
             In e (dl_documents (get_all_documents w'))
             <-> In e (dl_documents (get_all_documents w))) /\
  dl_total_documents (get_all_documents w') = S (dl_total_documents (get_all_documents w)) /\
  dl_total_chunks (get_all_documents w') = (dl_total_chunks (get_all_documents w) + n)%nat.
Proof.
  intros Hreach Hfresh Hrun.
  pose proof (reachable_well_formed w Hreach) as Hwf.
  destruct (ingest_appends _ _ _ _ _ _ Hwf Hfresh Hrun)
    as (chunks & embeddings & Hne & Hlen & -> & -> & Hcol).
  set (document_id := uuid4 (uuids_drawn w)) in *.
  set (batch := ingested_chunks document_id filename file_path chunks embeddings) in *.
  assert (Hms : map chunk_metadata (collection w')
                = map chunk_metadata (collection w) ++ map chunk_metadata batch)
    by (rewrite Hcol; apply map_app).
  assert (Hold_none : List.filter (metadata_of document_id)
                                  (map chunk_metadata (collection w)) = []).
  { rewrite filter_metadata_of. unfold document_chunks.
    rewrite fresh_document_none by exact Hfresh. reflexivity. }
  assert (Hnew_other : forall k, k <> document_id ->
             List.filter (metadata_of k) (map chunk_metadata batch) = []).
  { intros k Hk. rewrite filter_metadata_of. unfold document_chunks, batch.
    rewrite batch_of_other by exact Hk. reflexivity. }
  assert (Hentry : In {| doc_document_id := document_id; doc_filename := filename;
                        doc_total_chunks := length chunks; doc_file_path := file_path;
                        doc_chunks := map (fun i => (i, length chunks))
                                          (seq 0 (length chunks)) |}
                     (dl_documents (get_all_documents w'))).
  { apply listing_In_iff. cbn [doc_document_id].
    rewrite Hms, entry_of_app_l_nil by exact Hold_none.
    unfold entry_of. rewrite filter_metadata_of. unfold document_chunks, batch.
    rewrite batch_of_document, (batch_metadatas _ _ _ _ _ Hlen).
    destruct chunks as [| ch chunks]; [congruence |].
    cbn [length seq map]. cbn [md_filename md_total_chunks md_file_path md_chunk_index
                               default from_option id].
    f_equal. f_equal. f_equal. rewrite map_map. reflexivity. }
  assert (Hothers : forall e, doc_document_id e <> document_id ->
             In e (dl_documents (get_all_documents w'))
             <-> In e (dl_documents (get_all_documents w))).
  { intros e He. rewrite !listing_In_iff, Hms.
    rewrite entry_of_app_r_nil by (apply Hnew_other, He). reflexivity. }
  split; [exact Hentry |]. split; [exact Hothers |]. split.
  - cbn [dl_total_documents get_all_documents].
    change (length (dl_documents (get_all_documents w'))
            = S (length (dl_documents (get_all_documents w)))).
    transitivity
      (length ({| doc_document_id := document_id; doc_filename := filename;
                  doc_total_chunks := length chunks; doc_file_path := file_path;
                  doc_chunks := map (fun i => (i, length chunks))
                                    (seq 0 (length chunks)) |}
               :: dl_documents (get_all_documents w))); [| reflexivity].
    apply Permutation_length, Permutation.NoDup_Permutation.
    + apply listing_NoDup.
    + constructor; [| apply listing_NoDup].
      intros Hin. apply listing_In_iff in Hin. cbn [doc_document_id] in Hin.
      unfold entry_of in Hin. rewrite Hold_none in Hin. discriminate.
    + intros e. split.
      * intros Hin. destruct (String.eqb_spec (doc_document_id e) document_id) as [He | He].
        -- left. apply listing_In_iff in Hin, Hentry. cbn [doc_document_id] in Hentry.
           rewrite He in Hin. congruence.
        -- right. apply Hothers; assumption.
      * intros [<- | Hin]; [exact Hentry |].
        apply Hothers; [| exact Hin].
        intros He. apply listing_In_iff in Hin. rewrite He in Hin.
        unfold entry_of in Hin. rewrite Hold_none in Hin. discriminate.
  - cbn [dl_total_chunks get_all_documents]. rewrite Hcol, map_app, length_app, !length_map.
    unfold batch. rewrite batch_length by exact Hlen. reflexivity.
Qed.

(** X12. Deleting the document an ingestion has just stored undoes it: the
    deletion succeeds, reports the chunk count and filename of the ingestion,
    and the store holds exactly the chunks it held before the ingestion. *)
Theorem ingest_then_delete (file_path filename document_id : string) (n : nat)
    (w w' : world) :
  reachable w ->
  fresh_document (uuid4 (uuids_drawn w)) (collection w) ->
  process_and_store_document file_path filename w
  = (Ok (IngestSuccess document_id filename n), w') ->
  fst (delete_document document_id w')
  = Ok (DeleteSuccess ("Document '" +:+ filename +:+ "' deleted successfully") n filename) /\
  collection (snd (delete_document document_id w')) = collection w.
Proof.
  intros Hreach Hfresh Hrun.
  pose proof (reachable_well_formed w Hreach) as Hwf.
  destruct (ingest_appends _ _ _ _ _ _ Hwf Hfresh Hrun)
    as (chunks & embeddings & Hne & Hlen & -> & -> & Hcol).
  pose proof (batch_chunks (uuid4 (uuids_drawn w)) filename file_path chunks embeddings)
    as Hb.
  pose proof (batch_length (uuid4 (uuids_drawn w)) filename file_path chunks embeddings
                Hlen) as Hbl.
  pose proof (batch_of_document (uuid4 (uuids_drawn w)) filename file_path chunks
                embeddings) as Hbd.
  remember (ingested_chunks (uuid4 (uuids_drawn w)) filename file_path chunks embeddings)
    as batch eqn:Ebatch.
  assert (Hgroup : document_chunks (uuid4 (uuids_drawn w)) (collection w') = batch).
  { unfold document_chunks. rewrite Hcol, List.filter_app.
    rewrite fresh_document_none by exact Hfresh. exact Hbd. }
  split.
  - rewrite delete_document_run, Hgroup.
    destruct batch as [| c cs].
    { destruct chunks; [congruence | discriminate]. }
    cbv zeta. cbn [fst]. cbn [length] in Hbl. rewrite Hbl.
    apply List.Forall_inv in Hb. destruct Hb as (_ & _ & -> & _). reflexivity.
  - rewrite delete_document_collection, Hcol, List.filter_app.
    rewrite fresh_document_keep by exact Hfresh.
    assert (Hgone : List.filter (fun c => negb (of_document (uuid4 (uuids_drawn w)) c)) batch
                    = []).
    { apply length_zero_iff_nil.
      pose proof (filter_length (of_document (uuid4 (uuids_drawn w))) batch) as Hfl.
      rewrite Hbd in Hfl. lia. }
    rewrite Hgone. apply app_nil_r.
Qed.

(** X13. The store the service builds keeps the invariant of the data model:
    in every world reached from an empty store by ingestions (each under an
    identifier no stored document has), deletions and queries, every listed
    document carries exactly the chunk indices 0 .. total_chunks - 1, each
    with the same total, and as many chunks as it announces. *)
Theorem reachable_listing_contiguous (w : world) :
  reachable w ->
  List.Forall
    (fun e => doc_chunks e
              = map (fun i => (i, doc_total_chunks e)) (seq 0 (doc_total_chunks e)) /\
              length (doc_chunks e) = doc_total_chunks e)
    (dl_documents (get_all_documents w)).
Proof.
  intros Hreach. pose proof (reachable_well_formed w Hreach) as Hwf.
  apply List.Forall_forall. intros e He.
  pose proof (well_formed_listing w e Hwf He) as Hc.
  split; [exact Hc |]. rewrite Hc, length_map, length_seq. reflexivity.
Qed.

End StoreTheorems.

(** X14. A second deletion of the same identifier always answers
    [Document not found] and changes nothing, whether or not the first one
    found the document. *)
Theorem delete_document_twice (document_id : string) (w : world) :
  let w1 := snd (delete_document document_id w) in
  delete_document document_id w1 = (Ok (DeleteError "Document not found"), w1).
Proof.
  cbv zeta. rewrite (delete_document_run document_id (snd (delete_document document_id w))).
  unfold document_chunks at 1. rewrite delete_document_collection.
  rewrite filter_of_document_gone. reflexivity.
Qed.

(** X15. A deletion removes one document from the listing and nothing else:
    afterwards the listed entries are exactly the entries listed before whose
    identifier is not the deleted one, each unchanged. *)
Theorem delete_then_list (document_id : string) (w : world) (e : document_entry) :
  In e (dl_documents (get_all_documents (snd (delete_document document_id w))))
  <-> In e (dl_documents (get_all_documents w)) /\ doc_document_id e <> document_id.
Proof.
  rewrite !listing_In_iff, delete_document_collection.
  unfold entry_of. rewrite !filter_metadata_of. unfold document_chunks.
  destruct (String.eqb_spec (doc_document_id e) document_id) as [-> | Hne].
  - rewrite filter_of_document_gone. cbn. split; [discriminate | tauto].
  - rewrite filter_other_documents by exact Hne. tauto.
Qed.

Lemma dict_update_sum (key : string) (c : nat * nat)
    (docs : list (string * document_entry)) :
  dict_mem key docs = true ->
  list_sum (map (fun p => length (doc_chunks (snd p)))
                (dict_update key (append_chunk c) docs))
  = S (list_sum (map (fun p => length (doc_chunks (snd p))) docs)).
Proof.
  induction docs as [| [k e] docs IH]; [discriminate |].
  cbn [dict_mem dict_update]. intros Hmem.
  destruct (String.eqb k key); cbn [map list_sum snd].
  - unfold append_chunk. cbn [doc_chunks]. rewrite length_app. cbn [length].
    unfold list_sum. cbn [fold_right]. lia.
  - cbn [orb] in Hmem. specialize (IH Hmem).
    unfold list_sum in *. cbn [fold_right]. rewrite IH. lia.
Qed.

Lemma group_step_sum (docs : list (string * document_entry)) (m : metadata) :
  list_sum (map (fun p => length (doc_chunks (snd p))) (group_step docs m))
  = S (list_sum (map (fun p => length (doc_chunks (snd p))) docs)).
Proof.
  unfold group_step.
  destruct (dict_mem (md_document_id m) docs) eqn:Hmem; cbn [negb].
  - apply dict_update_sum, Hmem.
  - assert (Hfresh : ~ In (md_document_id m) (map fst docs)).
    { intros Hin. apply dict_mem_keys in Hin. congruence. }
    rewrite dict_update_fresh by exact Hfresh.
    rewrite map_app, list_sum_app. cbn. lia.
Qed.

Lemma fold_group_step_sum (ms : list metadata) (docs : list (string * document_entry)) :
  list_sum (map (fun p => length (doc_chunks (snd p))) (fold_left group_step ms docs))
  = (list_sum (map (fun p => length (doc_chunks (snd p))) docs) + length ms)%nat.
Proof.
  revert docs. induction ms as [| m ms IH]; intros docs; cbn [fold_left length].
  - lia.
  - rewrite IH, group_step_sum. lia.
Qed.

(** X16. The listing accounts for every stored chunk exactly once: the
    lengths of the chunk lists of the listed documents add up to the number
    of chunks in the store, which is the [total_chunks] of the listing. *)
Theorem listing_counts_every_chunk (w : world) :
  list_sum (map (fun e => length (doc_chunks e)) (dl_documents (get_all_documents w)))
  = collection_count w /\
  dl_total_chunks (get_all_documents w) = collection_count w.
Proof.
  split; [| apply length_map].
  set (ms := map chunk_metadata (collection w)).
  assert (Hperm : Permutation (dl_documents (get_all_documents w))
                              (map snd (fold_left group_step ms [])))
    by apply sort_by_filename_perm.
  rewrite (Permutation_list_sum (Permutation_map (fun e => length (doc_chunks e)) Hperm)).
  rewrite map_map, fold_group_step_sum. cbn. unfold ms, collection_count.
  apply length_map.
Qed.

(** The store theorems on the sample environments. *)
Lemma process_and_store_document_errors_witness :
  @process_and_store_document broken_encoder_environment "./uploads/notes.txt" "notes.txt"
    empty_world
  = (Ok (IngestError "notes.txt" "model not loaded"),
     logged (EvEncode ["Rocq is a proof assistant."]) empty_world).
Proof.
  apply (proj2 (proj2 (proj2 (@process_and_store_document_errors
                                broken_encoder_environment "./uploads/notes.txt"
                                "notes.txt" empty_world)))
           "Rocq is a proof assistant." "Rocq is a proof assistant." []
           (Exn RuntimeError "model not loaded"));
    try reflexivity.
  discriminate.
Defined.

Lemma after_ingest_run :
  @process_and_store_document ingest_environment "./uploads/notes.txt" "notes.txt"
    empty_world
  = (Ok (IngestSuccess "doc-0" "notes.txt" 1), after_ingest_world).
Proof. reflexivity. Qed.

Lemma empty_world_fresh (document_id : string) :
  fresh_document document_id (collection empty_world).
Proof. intros c []. Qed.

Lemma ingest_then_list_witness :
  In {| doc_document_id := "doc-0"; doc_filename := "notes.txt"; doc_total_chunks := 1;
        doc_file_path := "./uploads/notes.txt"; doc_chunks := [(0, 1)%nat] |}
     (dl_documents (get_all_documents after_ingest_world)).
Proof.
  exact (proj1 (@ingest_then_list ingest_environment "./uploads/notes.txt" "notes.txt"
                  "doc-0" 1 empty_world after_ingest_world
                  (@reachable_empty ingest_environment empty_world eq_refl)
                  (empty_world_fresh _) after_ingest_run)).
Defined.

Lemma ingest_then_delete_witness :
  fst (delete_document "doc-0" after_ingest_world)
  = Ok (DeleteSuccess "Document 'notes.txt' deleted successfully" 1 "notes.txt") /\
  collection (snd (delete_document "doc-0" after_ingest_world)) = [].
Proof.
  exact (@ingest_then_delete ingest_environment "./uploads/notes.txt" "notes.txt"
           "doc-0" 1 empty_world after_ingest_world
           (@reachable_empty ingest_environment empty_world eq_refl)
           (empty_world_fresh _) after_ingest_run).
Defined.

Lemma reachable_listing_contiguous_witness :
  List.Forall
    (fun e => doc_chunks e
              = map (fun i => (i, doc_total_chunks e)) (seq 0 (doc_total_chunks e)) /\
              length (doc_chunks e) = doc_total_chunks e)
    (dl_documents (get_all_documents after_ingest_world)).
Proof.
  apply (@reachable_listing_contiguous ingest_environment).
  apply (@reachable_ingest ingest_environment empty_world after_ingest_world
           "./uploads/notes.txt" "notes.txt" (Ok (IngestSuccess "doc-0" "notes.txt" 1))).
  - apply reachable_empty. reflexivity.
  - apply empty_world_fresh.
  - exact after_ingest_run.
Defined.

(* ================================================================= *)
(** ** The HTTP layer *)

Ltac unfold_SM := unfold mbind, SM_mbind, mret, SM_ret, in_world, of_result.

Lemma json_len_iter (v : json) (items : list json) :
  json_iter v = Ok items -> json_len v = Ok (length items).
Proof.
  destruct v; cbn; intros E; inversion E; subst; try reflexivity.
  - rewrite length_map. f_equal. clear E.
    induction s as [| c s IH]; [reflexivity |]. cbn. f_equal. exact IH.
  - rewrite length_map. reflexivity.
Qed.


Section EndpointFacts.
Context `{Environment} `{Runtime}.

(** The suggestions for the elements of an iterable, one after the other. *)
Lemma suggest_auto_enrichment_any_items (missing_info : json) (query : string)
    (items : list json) :
  json_iter missing_info = Ok items ->
  suggest_auto_enrichment_any missing_info query
  = Ok (map (fun info =>
               {| ts_missing_topic := info;
                  ts_suggested_sources :=
                    [ "Search for '" +:+ format_value info +:+ "' in academic papers";
                      "Look up '" +:+ format_value info +:+ "' in industry documentation";
                      "Find recent articles about '" +:+ format_value info +:+ "'" ];
                  ts_search_queries :=
                    [ format_value info +:+ " " +:+ query;
                      format_value info +:+ " best practices";
                      format_value info +:+ " latest research" ] |})
            items).
Proof.
  intros Hit. unfold suggest_auto_enrichment_any.
  destruct (json_truthy missing_info) eqn:Ht; cbn [negb].
  - rewrite Hit. cbn. rewrite fold_left_append. reflexivity.
  - destruct missing_info; cbn in Ht, Hit; try discriminate.
    + destruct s; cbn in *; [inversion Hit; reflexivity | discriminate].
    + destruct l; cbn in *; [inversion Hit; reflexivity | discriminate].
    + destruct d; cbn in *; [inversion Hit; reflexivity | discriminate].
Qed.

(** On a list of strings the function is the one of the typed call. *)
Lemma suggest_auto_enrichment_any_strings (topics : list string) (query : string) :
  suggest_auto_enrichment_any (JList (map JStr topics)) query
  = Ok (map (fun s => {| ts_missing_topic := JStr (missing_topic s);
                         ts_suggested_sources := suggested_sources s;
                         ts_search_queries := search_queries s |})
            (suggest_auto_enrichment topics query)).
Proof.
  rewrite (suggest_auto_enrichment_any_items _ _ (map JStr topics)) by reflexivity.
  unfold suggest_auto_enrichment.
  destruct topics as [| t topics]; [reflexivity |].
  cbn [list_falsy]. rewrite fold_left_append. cbn [app].
  rewrite !map_map. reflexivity.
Qed.



(** [search_query] after [generate_answer] has returned. *)
Lemma search_query_answered (query : string) (s : server) (result : query_result)
    (w' : world) :
  generate_answer query (sv_world s) = (Ok result, w') ->
  search_query query s
  = let s1 := {| sv_world := w'; sv_writes := sv_writes s |} in
    let missing_info := qr_missing_info result in
    let enrich : SM (option (list topic_suggestion)) :=
      if json_truthy missing_info
      then
        auto_enrichment ← of_result (suggest_auto_enrichment_any missing_info query);
        _ ← log_enrichment missing_info;
        mret (Some auto_enrichment)
      else mret None in
    match enrich s1 with
    | (Raise e, s2) => (Http500 (exn_str e), s2)
    | (Ok auto_enrichment, s2) =>
        let response := {| sq_result := result; sq_auto_enrichment := auto_enrichment |} in
        match log_query response s2 with
        | (Raise e, s3) => (Http500 (exn_str e), s3)
        | (Ok _, s3) => (Http200 response, s3)
        end
    end.
Proof.
  intros Hg. unfold search_query, search_query_body.
  unfold mbind at 1. unfold SM_mbind at 1. unfold in_world at 1. rewrite Hg.
  cbv zeta. unfold mbind at 1. unfold SM_mbind at 1.
  match goal with |- context [match ?m ?s1 with _ => _ end] =>
    destruct (m s1) as [[auto | e] s2] end; [| reflexivity].
  unfold mbind at 1. unfold SM_mbind at 1.
  match goal with |- context [log_query ?r ?s2] =>
    destruct (log_query r s2) as [[[] | e] s3] end; reflexivity.
Qed.



(** X19. When [missing_info] can be iterated, [enrichment_suggestions] has a
    length and the log files can be written, [/search] answers 200 with the
    Query Result unchanged; [auto_enrichment] is present exactly when
    [missing_info] is truthy and then holds one bundle per element, in
    order. The enrichment log is written before the query log, and the store
    is untouched. *)
Theorem search_query_answers (query : string) (s : server) (result : query_result)
    (w' : world) (items : list json) (n : nat) :
  generate_answer query (sv_world s) = (Ok result, w') ->
  json_iter (qr_missing_info result) = Ok items ->
  json_len (qr_enrichment_suggestions result) = Ok n ->
  (forall k path, io_outcome k path = Ok tt) ->
  fst (search_query query s)
  = Http200
      {| sq_result := result;
         sq_auto_enrichment :=
           if json_truthy (qr_missing_info result)
           then Some (map (fun info =>
                             {| ts_missing_topic := info;
                                ts_suggested_sources :=
                                  [ "Search for '" +:+ format_value info
                                    +:+ "' in academic papers";
                                    "Look up '" +:+ format_value info
                                    +:+ "' in industry documentation";
                                    "Find recent articles about '" +:+ format_value info
                                    +:+ "'" ];
                                ts_search_queries :=
                                  [ format_value info +:+ " " +:+ query;
                                    format_value info +:+ " best practices";
                                    format_value info +:+ " latest research" ] |})
                          items)
           else None |} /\
  sv_writes (snd (search_query query s))
  = sv_writes s
    ++ (if json_truthy (qr_missing_info result) then ["logs/enrichment.jsonl"] else [])
    ++ ["logs/queries.jsonl"] /\
  collection (sv_world (snd (search_query query s))) = collection (sv_world s).
Proof.
  intros Hg Hit Hlen Hio.
  pose proof (generate_answer_collection query (sv_world s)) as Hcol.
  rewrite Hg in Hcol. cbn [snd] in Hcol.
  rewrite (search_query_answered _ _ _ _ Hg). cbv zeta.
  unfold log_query, log_enrichment, write_file. unfold_SM.
  cbn [sq_result sv_writes sv_world].
  rewrite (suggest_auto_enrichment_any_items _ _ _ Hit).
  rewrite (json_len_iter _ _ Hit), Hlen.
  destruct (json_truthy (qr_missing_info result)).
  - repeat (rewrite Hio; cbn [fst snd sv_writes sv_world]).
    split; [reflexivity |]. split; [rewrite <- app_assoc; reflexivity |]. exact Hcol.
  - rewrite !Hio. cbn [fst snd sv_writes sv_world].
    split; [reflexivity |]. split; [reflexivity |]. exact Hcol.
Qed.



(** X21. A log file that cannot be written costs the client the answer:
    when [generate_answer] has returned a result and the first log write of
    the request raises, [/search] answers 500 with that error. *)
Theorem search_query_log_failure (query : string) (s : server) (result : query_result)
    (w' : world) (items : list json) (n : nat) (e : exn) :
  generate_answer query (sv_world s) = (Ok result, w') ->
  json_iter (qr_missing_info result) = Ok items ->
  json_len (qr_enrichment_suggestions result) = Ok n ->
  io_outcome (length (sv_writes s))
             (if json_truthy (qr_missing_info result)
              then "logs/enrichment.jsonl" else "logs/queries.jsonl")
  = Raise e ->
  search_query query s
  = (Http500 (exn_str e),
     {| sv_world := w';
        sv_writes := sv_writes s
                     ++ [if json_truthy (qr_missing_info result)
                         then "logs/enrichment.jsonl" else "logs/queries.jsonl"] |}).
Proof.
  intros Hg Hit Hlen Hio.
  rewrite (search_query_answered _ _ _ _ Hg). cbv zeta.
  unfold log_query, log_enrichment, write_file. unfold_SM.
  cbn [sq_result sv_writes sv_world].
  rewrite (suggest_auto_enrichment_any_items _ _ _ Hit).
  rewrite (json_len_iter _ _ Hit), Hlen.
  destruct (json_truthy (qr_missing_info result)); cbv iota in Hio;
    cbn [sv_writes sv_world]; rewrite Hio; reflexivity.
Qed.




(** *** Uploads *)

Lemma upload_one_rejected (results : list ingest_result) (file : upload_file) (s : server) :
  existsb (String.eqb (path_suffix_lower (uf_filename file))) ALLOWED_EXTENSIONS = false \/
  (MAX_FILE_SIZE_MB * 1024 * 1024 < Z.of_nat (length (uf_content file)))%Z ->
  upload_one results file s
  = (Ok (results ++
         [IngestError (uf_filename file)
            (if existsb (String.eqb (path_suffix_lower (uf_filename file)))
                        ALLOWED_EXTENSIONS
             then "File too large. Maximum size: " +:+ str_of_Z MAX_FILE_SIZE_MB +:+ "MB"
             else "Unsupported file type: " +:+ path_suffix_lower (uf_filename file))]),
     s).
Proof.
  intros Hrej. unfold upload_one. cbv zeta.
  destruct (existsb (String.eqb (path_suffix_lower (uf_filename file))) ALLOWED_EXTENSIONS);
    cbn [negb]; [| reflexivity].
  destruct Hrej as [Hrej | Hrej]; [discriminate |].
  apply Z.ltb_lt in Hrej. rewrite Hrej. reflexivity.
Qed.

Lemma upload_one_accepted (results : list ingest_result) (file : upload_file) (s : server) :
  existsb (String.eqb (path_suffix_lower (uf_filename file))) ALLOWED_EXTENSIONS = true ->
  (Z.of_nat (length (uf_content file)) <= MAX_FILE_SIZE_MB * 1024 * 1024)%Z ->
  upload_one results file s
  = match io_outcome (length (sv_writes s))
                     (os_path_join UPLOAD_DIRECTORY (uf_filename file)) with
    | Ok _ =>
        upload_process (uf_filename file)
          (os_path_join UPLOAD_DIRECTORY (uf_filename file)) results
          {| sv_world :=
               set_files (files (sv_world s)
                          ∪ {[os_path_join UPLOAD_DIRECTORY (uf_filename file)]})
                         (sv_world s);
             sv_writes := sv_writes s
                          ++ [os_path_join UPLOAD_DIRECTORY (uf_filename file)] |}
    | Raise e =>
        (Raise e,
         {| sv_world := sv_world s;
            sv_writes := sv_writes s
                         ++ [os_path_join UPLOAD_DIRECTORY (uf_filename file)] |})
    end.
Proof.
  intros Hext Hsize. unfold upload_one. cbv zeta. rewrite Hext. cbn [negb].
  apply Z.ltb_ge in Hsize. rewrite Hsize.
  unfold mbind, SM_mbind, write_file.
  destruct (io_outcome _ _); reflexivity.
Qed.

(** The [try] statement, by the outcome of the ingestion and of the writes
    to the upload log. *)
Lemma upload_process_run (filename file_path : string) (results : list ingest_result)
    (s : server) :
  exists (r : ingest_result) (w1 : world),
    process_and_store_document file_path filename (sv_world s) = (Ok r, w1) /\
    upload_process filename file_path results s
    = match io_outcome (length (sv_writes s)) "logs/uploads.jsonl" with
      | Ok _ =>
          (Ok (results ++ [r]),
           {| sv_world := set_files (files w1 ∪ {["logs/uploads.jsonl"]}) w1;
              sv_writes := sv_writes s ++ ["logs/uploads.jsonl"] |})
      | Raise e =>
          match io_outcome (S (length (sv_writes s))) "logs/uploads.jsonl" with
          | Ok _ =>
              (Ok ((results ++ [r]) ++ [IngestError filename (exn_str e)]),
               {| sv_world := set_files (files w1 ∪ {["logs/uploads.jsonl"]}) w1;
                  sv_writes := (sv_writes s ++ ["logs/uploads.jsonl"])
                               ++ ["logs/uploads.jsonl"] |})
          | Raise e' =>
              (Raise e',
               {| sv_world := w1;
                  sv_writes := (sv_writes s ++ ["logs/uploads.jsonl"])
                               ++ ["logs/uploads.jsonl"] |})
          end
      end.
Proof.
  destruct (process_and_store_document file_path filename (sv_world s)) as [r w1] eqn:Hrun.
  assert (Hok : exists r', r = Ok r').
  { destruct (ingest_outcome _ _ _ _ _ Hrun) as [(error & -> & _) | (c & em & _ & _ & -> & _)];
      eexists; reflexivity. }
  destruct Hok as (r' & ->). exists r', w1. split; [reflexivity |].
  unfold upload_process, in_world. rewrite Hrun.
  unfold log_document_upload, upload_failed, write_file. unfold_SM.
  unfold log_document_upload, write_file.
  cbn [sv_writes sv_world].
  destruct (io_outcome (length (sv_writes s)) "logs/uploads.jsonl") as [[] | e];
    [reflexivity |].
  cbn [sv_writes sv_world]. rewrite length_app, Nat.add_comm. cbn [length Nat.add].
  destruct (io_outcome (S (length (sv_writes s))) "logs/uploads.jsonl") as [[] | e'];
    reflexivity.
Qed.


Lemma upload_loop_rejected (files : list upload_file) (results : list ingest_result)
    (s : server) :
  List.Forall
    (fun file =>
       existsb (String.eqb (path_suffix_lower (uf_filename file))) ALLOWED_EXTENSIONS = false \/
       (MAX_FILE_SIZE_MB * 1024 * 1024 < Z.of_nat (length (uf_content file)))%Z)
    files ->
  upload_loop files results s
  = (Ok (results ++
         map (fun file =>
                IngestError (uf_filename file)
                  (if existsb (String.eqb (path_suffix_lower (uf_filename file)))
                              ALLOWED_EXTENSIONS
                   then "File too large. Maximum size: " +:+ str_of_Z MAX_FILE_SIZE_MB
                        +:+ "MB"
                   else "Unsupported file type: " +:+ path_suffix_lower (uf_filename file)))
             files),
     s).
Proof.
  intros Hall. revert results.
  induction Hall as [| file files Hrej _ IH]; intros results; cbn [upload_loop map].
  - unfold mret, SM_ret. rewrite app_nil_r. reflexivity.
  - unfold mbind, SM_mbind. rewrite (upload_one_rejected _ _ _ Hrej).
    rewrite IH, <- app_assoc. reflexivity.
Qed.

(** X23. Files that fail the checks of [/upload] (an extension outside the
    allowed four, or more bytes than the configured maximum) cost nothing:
    when every file of a request is rejected, each gets one error entry, in
    request order, with the extension message taking precedence over the
    size message, and nothing is written to disk, to the store or to the
    upload log. *)
Theorem upload_rejected_untouched (files : list upload_file) (s : server) :
  List.Forall
    (fun file =>
       existsb (String.eqb (path_suffix_lower (uf_filename file))) ALLOWED_EXTENSIONS = false \/
       (MAX_FILE_SIZE_MB * 1024 * 1024 < Z.of_nat (length (uf_content file)))%Z)
    files ->
  upload_documents files s
  = (Ok (map (fun file =>
                IngestError (uf_filename file)
                  (if existsb (String.eqb (path_suffix_lower (uf_filename file)))
                              ALLOWED_EXTENSIONS
                   then "File too large. Maximum size: " +:+ str_of_Z MAX_FILE_SIZE_MB
                        +:+ "MB"
                   else "Unsupported file type: " +:+ path_suffix_lower (uf_filename file)))
             files),
     s).
Proof.
  intros Hall. unfold upload_documents. rewrite (upload_loop_rejected _ _ _ Hall).
  reflexivity.
Qed.

Lemma upload_one_entry (results : list ingest_result) (file : upload_file) (s : server) :
  (forall k path, io_outcome k path = Ok tt) ->
  exists r s',
    upload_one results file s = (Ok (results ++ [r]), s') /\
    ingest_filename r = uf_filename file.
Proof.
  intros Hio.
  destruct (existsb (String.eqb (path_suffix_lower (uf_filename file))) ALLOWED_EXTENSIONS)
    eqn:Hext.
  - destruct (Z.ltb_spec (MAX_FILE_SIZE_MB * 1024 * 1024)
                         (Z.of_nat (length (uf_content file)))) as [Hbig | Hsmall].
    + eexists. exists s. split; [apply upload_one_rejected; right; exact Hbig |].
      reflexivity.
    + rewrite (upload_one_accepted _ _ _ Hext Hsmall), Hio.
      match goal with |- context [upload_process ?f ?p ?rs ?s0] =>
        destruct (upload_process_run f p rs s0) as (r & w1 & Hrun & ->) end.
      rewrite Hio. exists r. eexists. split; [reflexivity |].
      destruct (ingest_outcome _ _ _ _ _ Hrun)
        as [(error & Hr & _) | (c & em & _ & _ & Hr & _)];
        injection Hr as ->; reflexivity.
  - eexists. exists s. split; [apply upload_one_rejected; left; exact Hext |].
    reflexivity.
Qed.

Lemma upload_loop_entries (files : list upload_file) (results : list ingest_result)
    (s : server) :
  (forall k path, io_outcome k path = Ok tt) ->
  exists rs s',
    upload_loop files results s = (Ok (results ++ rs), s') /\
    map ingest_filename rs = map uf_filename files.
Proof.
  intros Hio. revert results s.
  induction files as [| file files IH]; intros results s; cbn [upload_loop map].
  - exists [], s. rewrite app_nil_r. split; reflexivity.
  - destruct (upload_one_entry results file s Hio) as (r & s1 & Hone & Hname).
    destruct (IH (results ++ [r]) s1) as (rs & s' & Hloop & Hnames).
    exists (r :: rs), s'. unfold mbind, SM_mbind. rewrite Hone, Hloop.
    rewrite <- app_assoc. split; [reflexivity |].
    cbn [map]. rewrite Hname, Hnames. reflexivity.
Qed.

(** X24. While the disk accepts every write, [/upload] returns normally with
    exactly one entry per uploaded file, in request order, each under the
    name of its file, whether the file was rejected, failed to ingest or was
    stored. *)
Theorem upload_one_result_per_file (files : list upload_file) (s : server) :
  (forall k path, io_outcome k path = Ok tt) ->
  exists results s',
    upload_documents files s = (Ok results, s') /\
    map ingest_filename results = map uf_filename files.
Proof.
  intros Hio. destruct (upload_loop_entries files [] s Hio) as (rs & s' & Hloop & Hnames).
  exists rs, s'. split; [exact Hloop | exact Hnames].
Qed.

Lemma upload_documents_single (file : upload_file) (s : server) :
  upload_documents [file] s = upload_one [] file s.
Proof.
  unfold upload_documents. cbn [upload_loop]. unfold mbind, SM_mbind, mret, SM_ret.
  destruct (upload_one [] file s) as [[results | e] s']; reflexivity.
Qed.

(** X25. An accepted upload is written to the upload directory before it is
    ingested and is not cleaned up: when its ingestion fails, the response
    carries the error entry, the store is as before, and the file stays on
    disk. *)
Theorem upload_failed_ingestion_leaves_file (file : upload_file) (s s' : server)
    (error : string) :
  existsb (String.eqb (path_suffix_lower (uf_filename file))) ALLOWED_EXTENSIONS = true ->
  (Z.of_nat (length (uf_content file)) <= MAX_FILE_SIZE_MB * 1024 * 1024)%Z ->
  upload_documents [file] s = (Ok [IngestError (uf_filename file) error], s') ->
  os_path_join UPLOAD_DIRECTORY (uf_filename file) ∈ files (sv_world s') /\
  collection (sv_world s') = collection (sv_world s).
Proof.
  intros Hext Hsize Hup.
  rewrite upload_documents_single, (upload_one_accepted _ _ _ Hext Hsize) in Hup.
  destruct (io_outcome (length (sv_writes s))
                       (os_path_join UPLOAD_DIRECTORY (uf_filename file)));
    [| discriminate].
  match type of Hup with context [upload_process ?f ?p ?rs ?s0] =>
    destruct (upload_process_run f p rs s0) as (r & w1 & Hrun & Hproc) end.
  rewrite Hproc in Hup. clear Hproc. cbn [sv_world sv_writes app] in Hup, Hrun.
  destruct (io_outcome _ "logs/uploads.jsonl") as [[] | e].
  - injection Hup as Hr <-. cbn [sv_world set_files files collection].
    destruct (ingest_outcome _ _ _ _ _ Hrun)
      as [(error' & _ & Hcol & Hfiles & _) | (c & em & _ & _ & Hr' & _)].
    + rewrite Hfiles, Hcol. cbn [set_files files collection].
      split; [| reflexivity].
      apply elem_of_union_l, elem_of_union_r, elem_of_singleton. reflexivity.
    + injection Hr' as ->. discriminate.
  - destruct (io_outcome _ "logs/uploads.jsonl"); discriminate.
Qed.

(** X26. The result of an ingestion is appended to the response before the
    upload is logged. So when the log write after a stored document raises,
    the document stays in the store; the response then carries two entries
    for the one file, the success and an error with the text of the
    exception, if the second log write succeeds, and the request fails if
    that write raises too. *)
Theorem upload_log_failure_after_ingestion (file : upload_file) (s : server)
    (r : ingest_result) (w1 : world) (e : exn) :
  existsb (String.eqb (path_suffix_lower (uf_filename file))) ALLOWED_EXTENSIONS = true ->
  (Z.of_nat (length (uf_content file)) <= MAX_FILE_SIZE_MB * 1024 * 1024)%Z ->
  io_outcome (length (sv_writes s)) (os_path_join UPLOAD_DIRECTORY (uf_filename file))
  = Ok tt ->
  process_and_store_document
    (os_path_join UPLOAD_DIRECTORY (uf_filename file)) (uf_filename file)
    (set_files (files (sv_world s) ∪ {[os_path_join UPLOAD_DIRECTORY (uf_filename file)]})
               (sv_world s))
  = (Ok r, w1) ->
  io_outcome (S (length (sv_writes s))) "logs/uploads.jsonl" = Raise e ->
  fst (upload_documents [file] s)
  = match io_outcome (S (S (length (sv_writes s)))) "logs/uploads.jsonl" with
    | Ok _ => Ok [r; IngestError (uf_filename file) (exn_str e)]
    | Raise e' => Raise e'
    end /\
  collection (sv_world (snd (upload_documents [file] s))) = collection w1.
Proof.
  intros Hext Hsize Hwrite Hrun Hlog.
  rewrite upload_documents_single, (upload_one_accepted _ _ _ Hext Hsize), Hwrite.
  match goal with |- context [upload_process ?f ?p ?rs ?s0] =>
    destruct (upload_process_run f p rs s0) as (r' & w1' & Hrun' & ->) end.
  cbn [sv_world sv_writes] in *. rewrite Hrun in Hrun'. injection Hrun' as <- <-.
  rewrite length_app, Nat.add_comm. cbn [length Nat.add]. rewrite Hlog.
  destruct (io_outcome (S (S (length (sv_writes s)))) "logs/uploads.jsonl") as [[] | e'];
    split; reflexivity.
Qed.


(** A single accepted upload that is answered with a success entry. *)
Lemma upload_single_success (file : upload_file) (s s' : server) (document_id : string)
    (filename : string) (n : nat) :
  upload_documents [file] s = (Ok [IngestSuccess document_id filename n], s') ->
  exists w1,
    process_and_store_document
      (os_path_join UPLOAD_DIRECTORY (uf_filename file)) (uf_filename file)
      (set_files (files (sv_world s)
                  ∪ {[os_path_join UPLOAD_DIRECTORY (uf_filename file)]})
                 (sv_world s))
    = (Ok (IngestSuccess document_id filename n), w1) /\
    sv_world s' = set_files (files w1 ∪ {["logs/uploads.jsonl"]}) w1.
Proof.
  intros Hup. rewrite upload_documents_single in Hup.
  destruct (existsb (String.eqb (path_suffix_lower (uf_filename file))) ALLOWED_EXTENSIONS)
    eqn:Hext.
  2: { rewrite upload_one_rejected in Hup by (left; exact Hext). rewrite Hext in Hup.
       discriminate. }
  destruct (Z.ltb_spec (MAX_FILE_SIZE_MB * 1024 * 1024)
                       (Z.of_nat (length (uf_content file)))) as [Hbig | Hsmall].
  { rewrite upload_one_rejected in Hup by (right; exact Hbig). rewrite Hext in Hup.
    discriminate. }
  rewrite (upload_one_accepted _ _ _ Hext Hsmall) in Hup.
  destruct (io_outcome (length (sv_writes s))
                       (os_path_join UPLOAD_DIRECTORY (uf_filename file)));
    [| discriminate].
  match type of Hup with context [upload_process ?f ?p ?rs ?s0] =>
    destruct (upload_process_run f p rs s0) as (r & w1 & Hrun & Hproc) end.
  rewrite Hproc in Hup. clear Hproc. cbn [sv_world sv_writes app] in Hup, Hrun.
  destruct (io_outcome _ "logs/uploads.jsonl") as [[] | e].
  - injection Hup as -> <-. exists w1. split; [exact Hrun | reflexivity].
  - destruct (io_outcome _ "logs/uploads.jsonl"); discriminate.
Qed.

(** The entry of a document just ingested into a well-formed store. *)
Lemma ingest_entry_listed (file_path filename document_id : string) (n : nat)
    (w w' : world) :
  well_formed (collection w) ->
  fresh_document (uuid4 (uuids_drawn w)) (collection w) ->
  process_and_store_document file_path filename w
  = (Ok (IngestSuccess document_id filename n), w') ->
  In {| doc_document_id := document_id; doc_filename := filename;
        doc_total_chunks := n; doc_file_path := file_path;
        doc_chunks := map (fun i => (i, n)) (seq 0 n) |}
     (dl_documents (get_all_documents w')).
Proof.
  intros Hwf Hfresh Hrun.
  destruct (ingest_appends _ _ _ _ _ _ Hwf Hfresh Hrun)
    as (chunks & embeddings & Hne & Hlen & -> & -> & Hcol).
  apply listing_In_iff. cbn [doc_document_id].
  rewrite Hcol, map_app, entry_of_app_l_nil.
  2: { rewrite filter_metadata_of. unfold document_chunks.
       rewrite fresh_document_none by exact Hfresh. reflexivity. }
  unfold entry_of. rewrite filter_metadata_of. unfold document_chunks.
  rewrite batch_of_document, (batch_metadatas _ _ _ _ _ Hlen).
  destruct chunks as [| ch chunks]; [congruence |].
  cbn [length seq map]. cbn [md_filename md_total_chunks md_file_path md_chunk_index
                             default from_option id].
  f_equal. f_equal. f_equal. rewrite map_map. reflexivity.
Qed.

(** X27. Uploads are stored under their filename, so two uploads of one
    filename share one file on disk. After both are ingested, deleting the
    first document removes that file, while the second document stays
    listed, complete, with a [file_path] that no longer exists. *)
Theorem upload_same_name_shares_file (file1 file2 : upload_file) (s s1 s2 : server)
    (id1 id2 : string) (n1 n2 : nat) :
  well_formed (collection (sv_world s)) ->
  fresh_document (uuid4 (uuids_drawn (sv_world s))) (collection (sv_world s)) ->
  fresh_document (uuid4 (uuids_drawn (sv_world s1))) (collection (sv_world s1)) ->
  uf_filename file2 = uf_filename file1 ->
  upload_documents [file1] s = (Ok [IngestSuccess id1 (uf_filename file1) n1], s1) ->
  upload_documents [file2] s1 = (Ok [IngestSuccess id2 (uf_filename file2) n2], s2) ->
  os_path_join UPLOAD_DIRECTORY (uf_filename file1) <> "" ->
  os_path_join UPLOAD_DIRECTORY (uf_filename file1) ∉ in_use (sv_world s2) ->
  (os_path_join UPLOAD_DIRECTORY (uf_filename file1)
     ∉ files (snd (delete_document id1 (sv_world s2)))) /\
  In {| doc_document_id := id2; doc_filename := uf_filename file1;
        doc_total_chunks := n2;
        doc_file_path := os_path_join UPLOAD_DIRECTORY (uf_filename file1);
        doc_chunks := map (fun i => (i, n2)) (seq 0 n2) |}
     (dl_documents (get_all_documents (snd (delete_document id1 (sv_world s2))))).
Proof.
  intros Hwf Hfresh1 Hfresh2 Hname Hup1 Hup2 Hpath Hfree.
  rewrite Hname in Hup2.
  destruct (upload_single_success _ _ _ _ _ _ Hup1) as (w1 & Hrun1 & Hs1).
  destruct (upload_single_success _ _ _ _ _ _ Hup2) as (w2 & Hrun2 & Hs2).
  rewrite Hname in Hrun2.
  set (path := os_path_join UPLOAD_DIRECTORY (uf_filename file1)) in *.
  set (name := uf_filename file1) in *.
  (* the first ingestion *)
  assert (Hwf0 : well_formed
                   (collection (set_files (files (sv_world s) ∪ {[path]}) (sv_world s))))
    by exact Hwf.
  assert (Hfresh0 :
            fresh_document
              (uuid4 (uuids_drawn (set_files (files (sv_world s) ∪ {[path]})
                                             (sv_world s))))
              (collection (set_files (files (sv_world s) ∪ {[path]}) (sv_world s))))
    by exact Hfresh1.
  destruct (ingest_appends _ _ _ _ _ _ Hwf0 Hfresh0 Hrun1)
    as (chunks1 & emb1 & Hne1 & Hlen1 & -> & Hid1 & Hcol1).
  cbn [set_files collection uuids_drawn] in Hid1, Hcol1.
  assert (Hwf1 : well_formed (collection w1)).
  { rewrite Hcol1. apply well_formed_ingest; [exact Hlen1 | exact Hwf |].
    rewrite Hid1. exact Hfresh1. }
  assert (Hc1 : collection (sv_world s1) = collection w1) by (rewrite Hs1; reflexivity).
  assert (Hu1 : uuids_drawn (sv_world s1) = uuids_drawn w1) by (rewrite Hs1; reflexivity).
  (* the second ingestion *)
  assert (Hwf1' : well_formed
                    (collection (set_files (files (sv_world s1) ∪ {[path]}) (sv_world s1))))
    by (cbn [set_files collection]; rewrite Hc1; exact Hwf1).
  assert (Hfresh2' :
            fresh_document
              (uuid4 (uuids_drawn (set_files (files (sv_world s1) ∪ {[path]})
                                             (sv_world s1))))
              (collection (set_files (files (sv_world s1) ∪ {[path]}) (sv_world s1))))
    by exact Hfresh2.
  pose proof (ingest_entry_listed _ _ _ _ _ _ Hwf1' Hfresh2' Hrun2) as Hentry.
  destruct (ingest_appends _ _ _ _ _ _ Hwf1' Hfresh2' Hrun2)
    as (chunks2 & emb2 & Hne2 & Hlen2 & Hn2 & Hid2 & Hcol2).
  cbn [set_files collection uuids_drawn] in Hid2, Hcol2.
  destruct (ingest_outcome _ _ _ _ _ Hrun2)
    as [(error & Hr & _) | (c2 & e2 & _ & _ & _ & _ & Hfiles2 & Hinuse2)];
    [discriminate |].
  cbn [set_files files in_use] in Hfiles2, Hinuse2.
  assert (Hc2 : collection (sv_world s2) = collection w2) by (rewrite Hs2; reflexivity).
  (* the two identifiers differ *)
  pose proof (batch_chunks id1 name path chunks1 emb1) as Hb1.
  pose proof (batch_length id1 name path chunks1 emb1 Hlen1) as Hbl1.
  pose proof (batch_of_document id1 name path chunks1 emb1) as Hbd1.
  remember (ingested_chunks id1 name path chunks1 emb1) as batch1 eqn:Ebatch1.
  destruct batch1 as [| c cs].
  { destruct chunks1; [congruence | discriminate]. }
  apply List.Forall_inv in Hb1. destruct Hb1 as (_ & Hcid & _ & _ & Hcpath).
  assert (Hids : id2 <> id1).
  { rewrite Hid2. intros Heq. apply (Hfresh2 c).
    - rewrite Hc1, Hcol1. apply in_or_app. right. left. reflexivity.
    - rewrite Hcid. symmetry. exact Heq. }
  (* the chunks of the first document in the final store *)
  assert (Hgroup : document_chunks id1 (collection (sv_world s2)) = c :: cs).
  { unfold document_chunks. rewrite Hc2, Hcol2, Hc1, Hcol1, !List.filter_app.
    rewrite Hid1 at 1. rewrite fresh_document_none by exact Hfresh1.
    rewrite Hbd1. rewrite Hid2.
    rewrite (batch_of_other _ _ _ _ _ id1).
    - apply app_nil_r.
    - rewrite <- Hid2. intros Heq. apply Hids. symmetry. exact Heq. }
  split.
  - rewrite delete_document_run, Hgroup. cbv zeta. cbn [snd]. rewrite Hcpath.
    cbn [default from_option id].
    assert (Hfalsy : str_falsy path = false).
    { destruct path; [congruence | reflexivity]. }
    rewrite Hfalsy.
    assert (Hin : path ∈ files (sv_world s2)).
    { rewrite Hs2. cbn [set_files files]. rewrite Hfiles2.
      apply elem_of_union_l, elem_of_union_r, elem_of_singleton. reflexivity. }
    rewrite (bool_decide_eq_true_2 _ Hin), (bool_decide_eq_false_2 _ Hfree).
    cbn [set_files files]. intros Hx. apply elem_of_difference in Hx.
    destruct Hx as (_ & Hx). apply Hx, elem_of_singleton. reflexivity.
  - apply listing_In_iff. cbn [doc_document_id].
    rewrite delete_document_collection.
    unfold entry_of. rewrite filter_metadata_of. unfold document_chunks.
    rewrite filter_other_documents by exact Hids.
    apply listing_In_iff in Hentry. cbn [doc_document_id] in Hentry.
    unfold entry_of in Hentry. rewrite filter_metadata_of in Hentry.
    unfold document_chunks in Hentry. rewrite Hc2. exact Hentry.
Qed.


(** *** The query log *)

Lemma recent_queries_loop (lines : list string) (queries : list json) :
  (forall line e, In line lines -> json_loads (py_strip line) = Raise e ->
                  exn_cls e = JSONDecodeError) ->
  for_each (fun queries line =>
              match json_loads (py_strip line) with
              | Ok entry => Ok (queries ++ [entry])
              | Raise (Exn JSONDecodeError _) => Ok queries
              | Raise e => Raise e
              end)
           lines queries
  = Ok (queries ++
        omap (fun line => match json_loads (py_strip line) with
                          | Ok entry => Some entry
                          | Raise _ => None
                          end)
             lines).
Proof.
  revert queries. induction lines as [| line lines IH]; intros queries Hdec;
    cbn [for_each omap list_omap].
  - rewrite app_nil_r. reflexivity.
  - pose proof (Hdec line) as Hline.
    destruct (json_loads (py_strip line)) as [entry | [cls msg]].
    + rewrite IH by (intros l e Hin; apply Hdec; right; exact Hin).
      rewrite <- app_assoc. reflexivity.
    + specialize (Hline _ (or_introl eq_refl) eq_refl). cbn [exn_cls] in Hline.
      subst cls. apply IH. intros l e Hin. apply Hdec. right. exact Hin.
Qed.

(** X28. [get_recent_queries] returns the entries of the last [limit] lines
    of the query log, newest first, leaving out the lines that are not JSON.
    A [limit] of 0 does not give the empty list: it gives every line of the
    log. A missing log file gives the empty list. *)
Theorem get_recent_queries_newest_first (lines : list string) (limit : Z) :
  (0 <= limit)%Z ->
  (forall line e, In line lines -> json_loads (py_strip line) = Raise e ->
                  exn_cls e = JSONDecodeError) ->
  get_recent_queries (Some (Ok lines)) limit
  = Ok (rev (omap (fun line => match json_loads (py_strip line) with
                               | Ok entry => Some entry
                               | Raise _ => None
                               end)
                  (if (limit =? 0)%Z then lines
                   else drop (length lines - Z.to_nat limit) lines))) /\
  get_recent_queries None limit = Ok [].
Proof.
  intros Hlimit Hdec. split; [| reflexivity].
  assert (Hslice : slice_from (- limit) lines
                   = if (limit =? 0)%Z then lines
                     else drop (length lines - Z.to_nat limit) lines).
  { unfold slice_from. destruct (Z.eqb_spec limit 0) as [-> | Hpos].
    - change (- 0 <? 0)%Z with false. cbv iota.
      replace (Z.to_nat (Z.min (- 0) (Z.of_nat (length lines)))) with 0%nat by lia.
      reflexivity.
    - assert (Hneg : (- limit <? 0)%Z = true) by (apply Z.ltb_lt; lia).
      rewrite Hneg. f_equal. lia. }
  unfold get_recent_queries. cbn [mbind result_mbind result_bind].
  rewrite Hslice, recent_queries_loop; [reflexivity |].
  intros line e Hin. apply Hdec.
  destruct (limit =? 0)%Z; [exact Hin |].
  rewrite <- (take_drop (length lines - Z.to_nat limit) lines).
  apply in_or_app. right. exact Hin.
Qed.

(** *** Enrichment *)

(** [generate_enrichment_content] by the answer of the endpoint. *)
Lemma generate_enrichment_content_run (user_query : string) (s : server) :
  generate_enrichment_content user_query s
  = (Ok match enrichment_post (enrichment_request_of user_query) with
        | PostRaises e => NotGenerated user_query (exn_str e)
        | Response status_code text =>
            match json_loads text with
            | Raise e => NotGenerated user_query (exn_str e)
            | Ok body =>
                if (status_code =? 200)%Z then
                  match message_content body with
                  | Raise e => NotGenerated user_query (exn_str e)
                  | Ok content =>
                      match json_len content with
                      | Raise e => NotGenerated user_query (exn_str e)
                      | Ok _ => Generated user_query content
                      end
                  end
                else NotGenerated user_query ("OpenAI API error: " +:+ str_of_Z status_code)
            end
        end,
     s).
Proof.
  unfold generate_enrichment_content, sm_try.
  destruct (enrichment_post (enrichment_request_of user_query)) as [e | status_code text].
  - reflexivity.
  - unfold_SM. destruct (json_loads text) as [body | e]; [| reflexivity].
    destruct (status_code =? 200)%Z; [| reflexivity].
    destruct (message_content body) as [content | e]; [| reflexivity].
    destruct (json_len content); reflexivity.
Qed.

Lemma generate_enrichment_content_full (user_query : string) (s : server)
    (data : enrichment_data) :
  fst (generate_enrichment_content user_query s) = Ok data ->
  generate_enrichment_content user_query s = (Ok data, s).
Proof.
  intros Hgen. rewrite generate_enrichment_content_run in Hgen |- *.
  cbn [fst] in Hgen. injection Hgen as Hgen. f_equal. f_equal. exact Hgen.
Qed.

(** The dict of [generate_enrichment_content] carries the query asked. *)
Lemma generate_enrichment_content_query (user_query : string) (s : server) :
  (forall q content,
     fst (generate_enrichment_content user_query s) = Ok (Generated q content) ->
     q = user_query) /\
  (forall q error,
     fst (generate_enrichment_content user_query s) = Ok (NotGenerated q error) ->
     q = user_query).
Proof.
  rewrite generate_enrichment_content_run. cbn [fst].
  split; intros q x Hgen; injection Hgen as Hgen;
    repeat (match type of Hgen with
            | context [match ?x with _ => _ end] => destruct x
            end; try discriminate);
    injection Hgen as <- _; reflexivity.
Qed.

(** [auto_enrich_knowledge_base] once the content has been generated. *)
Lemma auto_enrich_generated (user_query : string) (content : json) (s : server) :
  fst (generate_enrichment_content user_query s) = Ok (Generated user_query content) ->
  auto_enrich_knowledge_base user_query s
  = let temp_filename := "auto_enriched_" +:+ _create_short_filename user_query +:+ ".txt" in
    let temp_filepath := "./uploads/" +:+ temp_filename in
    match io_outcome (length (sv_writes s)) temp_filepath with
    | Raise e =>
        (Ok (EnrichError (exn_str e)),
         {| sv_world := sv_world s; sv_writes := sv_writes s ++ [temp_filepath] |})
    | Ok _ =>
        let w0 := set_files (files (sv_world s) ∪ {[temp_filepath]}) (sv_world s) in
        match process_and_store_document temp_filepath temp_filename w0 with
        | (Ok (IngestSuccess _ _ total_chunks), w1) =>
            (match json_len content with
             | Ok content_length =>
                 Ok (EnrichSuccess temp_filename total_chunks user_query content_length)
             | Raise e => Ok (EnrichError (exn_str e))
             end,
             {| sv_world := w1; sv_writes := sv_writes s ++ [temp_filepath] |})
        | (Ok (IngestError _ error), w1) =>
            (Ok (EnrichError ("Failed to store enrichment: " +:+ error)),
             {| sv_world := w1; sv_writes := sv_writes s ++ [temp_filepath] |})
        | (Raise e, w1) =>
            (Ok (EnrichError (exn_str e)),
             {| sv_world := w1; sv_writes := sv_writes s ++ [temp_filepath] |})
        end
    end.
Proof.
  intros Hgen. apply generate_enrichment_content_full in Hgen.
  unfold auto_enrich_knowledge_base, sm_try.
  unfold mbind at 1. unfold SM_mbind at 1.
  rewrite Hgen. cbv zeta.
  unfold write_file, in_world. unfold_SM.
  destruct (io_outcome _ _) as [[] | e]; [| reflexivity].
  cbn [sv_world sv_writes].
  destruct (process_and_store_document _ _ _) as [[[id fn n | fn error] | e] w1];
    try reflexivity.
  destruct (json_len content); reflexivity.
Qed.


(** X30. An enrichment answered with status [success] has stored what it
    reports: the file [./uploads/auto_enriched_<short name>.txt] is on disk
    (under [./uploads] whatever the configured upload directory), and the
    listing shows a document of that filename and path with [chunks_added]
    chunks. *)
Theorem auto_enrich_success_listed (user_query : string) (s s' : server)
    (filename query : string) (chunks_added content_length : nat) :
  well_formed (collection (sv_world s)) ->
  fresh_document (uuid4 (uuids_drawn (sv_world s))) (collection (sv_world s)) ->
  auto_enrich_knowledge_base user_query s
  = (Ok (EnrichSuccess filename chunks_added query content_length), s') ->
  filename = "auto_enriched_" +:+ _create_short_filename user_query +:+ ".txt" /\
  query = user_query /\
  ("./uploads/" +:+ filename) ∈ files (sv_world s') /\
  In {| doc_document_id := uuid4 (uuids_drawn (sv_world s)); doc_filename := filename;
        doc_total_chunks := chunks_added; doc_file_path := "./uploads/" +:+ filename;
        doc_chunks := map (fun i => (i, chunks_added)) (seq 0 chunks_added) |}
     (dl_documents (get_all_documents (sv_world s'))).
Proof.
  intros Hwf Hfresh Hrun.
  destruct (fst (generate_enrichment_content user_query s)) as [[q content | q error] | e]
    eqn:Hgen.
  - assert (q = user_query) as ->
      by exact (proj1 (generate_enrichment_content_query user_query s) _ _ Hgen).
    rewrite (auto_enrich_generated _ _ _ Hgen) in Hrun. cbv zeta in Hrun.
    set (name := "auto_enriched_" +:+ _create_short_filename user_query +:+ ".txt") in *.
    destruct (io_outcome _ _) as [[] | e]; [| discriminate].
    destruct (process_and_store_document ("./uploads/" +:+ name) name _)
      as [[[id fn n | fn error] | e] w1] eqn:Hps; try discriminate.
    destruct (json_len content) as [len |]; [| discriminate].
    injection Hrun as <- <- <- <- <-. cbn [sv_world].
    assert (fn = name) as ->.
    { destruct (ingest_outcome _ _ _ _ _ Hps)
        as [(error & Hr & _) | (c & em & _ & _ & Hr & _)]; [discriminate |].
      injection Hr as _ -> _. reflexivity. }
    split; [reflexivity |]. split; [reflexivity |]. split.
    + destruct (ingest_outcome _ _ _ _ _ Hps)
        as [(error & Hr & _) | (c & em & _ & _ & _ & _ & Hfiles & _)]; [discriminate |].
      rewrite Hfiles. cbn [set_files files].
      apply elem_of_union_r, elem_of_singleton. reflexivity.
    + assert (Hid : id = uuid4 (uuids_drawn (sv_world s))).
      { destruct (ingest_outcome _ _ _ _ _ Hps)
          as [(error & Hr & _) | (c & em & _ & _ & Hr & _)]; [discriminate |].
        injection Hr as -> _. reflexivity. }
      rewrite <- Hid.
      refine (ingest_entry_listed _ _ _ _ _ _ _ _ Hps); [exact Hwf | exact Hfresh].
  - exfalso. apply generate_enrichment_content_full in Hgen.
    unfold auto_enrich_knowledge_base, sm_try in Hrun.
    unfold mbind at 1 in Hrun. unfold SM_mbind at 1 in Hrun.
    rewrite Hgen in Hrun. discriminate.
  - rewrite generate_enrichment_content_run in Hgen. discriminate.
Qed.

End EndpointFacts.



Lemma search_query_answers_witness :
  exists result,
    fst (@search_query object_environment sample_runtime "What is Rocq?" sample_server)
    = Http200 {| sq_result := result; sq_auto_enrichment := None |} /\
    qr_missing_info result = JList [] /\
    sv_writes (snd (@search_query object_environment sample_runtime "What is Rocq?"
                      sample_server))
    = ["logs/queries.jsonl"].
Proof.
  exists {| qr_answer := JStr "";
            qr_confidence := _calculate_confidence [(1 # 2)%Q];
            qr_missing_info := JList [];
            qr_enrichment_suggestions := JList [];
            qr_sources := _prepare_sources sample_results |}.
  destruct (@search_query_answers object_environment sample_runtime "What is Rocq?"
              sample_server
              {| qr_answer := JStr "";
                 qr_confidence := _calculate_confidence [(1 # 2)%Q];
                 qr_missing_info := JList [];
                 qr_enrichment_suggestions := JList [];
                 qr_sources := _prepare_sources sample_results |}
              (snd (@generate_answer object_environment "What is Rocq?" sample_world))
              [] 0%nat eq_refl eq_refl eq_refl (fun _ _ => eq_refl))
    as (Hreply & Hwrites & _).
  split; [exact Hreply |]. split; [reflexivity | exact Hwrites].
Defined.


Lemma search_query_log_failure_witness :
  fst (@search_query object_environment flaky_runtime "What is Rocq?" logged_server)
  = Http500 "[Errno 28] No space left on device".
Proof.
  exact (f_equal fst
           (@search_query_log_failure object_environment flaky_runtime "What is Rocq?"
              logged_server
              {| qr_answer := JStr "";
                 qr_confidence := _calculate_confidence [(1 # 2)%Q];
                 qr_missing_info := JList [];
                 qr_enrichment_suggestions := JList [];
                 qr_sources := _prepare_sources sample_results |}
              (snd (@generate_answer object_environment "What is Rocq?" sample_world))
              [] 0%nat (Exn OSError "[Errno 28] No space left on device")
              eq_refl eq_refl eq_refl eq_refl)).
Defined.

Lemma upload_rejected_untouched_witness :
  @upload_documents upload_environment sample_runtime [image_upload] empty_server
  = (Ok [IngestError "image.png" "Unsupported file type: .png"], empty_server).
Proof.
  apply (@upload_rejected_untouched upload_environment sample_runtime [image_upload]
           empty_server).
  constructor; [left; reflexivity | constructor].
Defined.

Lemma upload_one_result_per_file_witness :
  exists results s',
    @upload_documents upload_environment sample_runtime [image_upload; notes_upload]
      empty_server
    = (Ok results, s') /\
    map ingest_filename results = ["image.png"; "notes.txt"].
Proof.
  exact (@upload_one_result_per_file upload_environment sample_runtime
           [image_upload; notes_upload] empty_server (fun _ _ => eq_refl)).
Defined.

Lemma upload_failed_ingestion_leaves_file_witness :
  "./uploads/notes.txt"
    ∈ files (sv_world (snd (@upload_documents broken_encoder_environment sample_runtime
                              [notes_upload] empty_server))) /\
  collection (sv_world (snd (@upload_documents broken_encoder_environment sample_runtime
                               [notes_upload] empty_server))) = [].
Proof.
  apply (@upload_failed_ingestion_leaves_file broken_encoder_environment sample_runtime
           notes_upload empty_server _ "model not loaded").
  - reflexivity.
  - cbn. lia.
  - reflexivity.
Defined.

Lemma upload_log_failure_after_ingestion_witness :
  fst (@upload_documents upload_environment flaky_runtime [notes_upload] empty_server)
  = Ok [ IngestSuccess "doc-0" "notes.txt" 1;
         IngestError "notes.txt" "[Errno 28] No space left on device" ] /\
  length (collection (sv_world (snd (@upload_documents upload_environment flaky_runtime
                                       [notes_upload] empty_server)))) = 1%nat.
Proof.
  destruct (@upload_log_failure_after_ingestion upload_environment flaky_runtime
              notes_upload empty_server (IngestSuccess "doc-0" "notes.txt" 1)
              (snd (@process_and_store_document upload_environment
                      "./uploads/notes.txt" "notes.txt"
                      (set_files (∅ ∪ {["./uploads/notes.txt"]}) empty_world)))
              (Exn OSError "[Errno 28] No space left on device"))
    as (Hreply & Hstore).
  - reflexivity.
  - cbn. lia.
  - reflexivity.
  - reflexivity.
  - reflexivity.
  - split; [exact Hreply |]. rewrite Hstore. reflexivity.
Defined.

Lemma upload_same_name_shares_file_witness :
  ("./uploads/notes.txt"
     ∉ files (snd (delete_document "doc-0" (sv_world twice_uploaded)))) /\
  In {| doc_document_id := "doc-1"; doc_filename := "notes.txt"; doc_total_chunks := 1;
        doc_file_path := "./uploads/notes.txt"; doc_chunks := [(0, 1)%nat] |}
     (dl_documents
        (get_all_documents
           (snd (delete_document "doc-0" (sv_world twice_uploaded))))).
Proof.
  apply (@upload_same_name_shares_file upload_environment sample_runtime
           notes_upload notes_upload empty_server once_uploaded twice_uploaded
           "doc-0" "doc-1" 1 1).
  - apply well_formed_nil.
  - apply empty_world_fresh.
  - intros c Hin. vm_compute in Hin. destruct Hin as [<- | []]. discriminate.
  - reflexivity.
  - reflexivity.
  - reflexivity.
  - discriminate.
  - change (in_use (sv_world twice_uploaded)) with (∅ : gset string).
    apply not_elem_of_empty.
Defined.

Lemma get_recent_queries_newest_first_witness :
  @get_recent_queries upload_environment (Some (Ok sample_log)) 0
  = Ok [JDict []; JDict []] /\
  @get_recent_queries upload_environment None 0 = Ok [].
Proof.
  apply (@get_recent_queries_newest_first upload_environment sample_log 0).
  - lia.
  - intros line e [<- | [<- | [<- | []]]] Hr; vm_compute in Hr;
      try discriminate; injection Hr as <-; reflexivity.
Defined.


Lemma auto_enrich_success_listed_witness :
  "./uploads/auto_enriched_rocq.txt"
    ∈ files (sv_world (snd (@auto_enrich_knowledge_base enrich_environment sample_runtime
                              "What is Rocq?" empty_server))) /\
  In {| doc_document_id := "doc-0"; doc_filename := "auto_enriched_rocq.txt";
        doc_total_chunks := 1; doc_file_path := "./uploads/auto_enriched_rocq.txt";
        doc_chunks := [(0, 1)%nat] |}
     (dl_documents
        (get_all_documents
           (sv_world (snd (@auto_enrich_knowledge_base enrich_environment sample_runtime
                             "What is Rocq?" empty_server))))).
Proof.
  exact (proj2 (proj2 (@auto_enrich_success_listed enrich_environment sample_runtime
                         "What is Rocq?" empty_server
                         (snd (@auto_enrich_knowledge_base enrich_environment
                                 sample_runtime "What is Rocq?" empty_server))
                         "auto_enriched_rocq.txt" "What is Rocq?" 1 26
                         well_formed_nil (empty_world_fresh _) eq_refl))).
Defined.
